(** * spowtd: staging and grid alignment, calibration files

    A shallow embedding of [src/spowtd/load.py]: the timestamp normaliser
    [generate_timestamped_rows], the grid builder [populate_grid_time], the
    two resamplers [populate_rainfall_intensity] and [populate_water_level]
    and [load_data], which runs them, together with the parts of Python,
    numpy and SQLite they call; of [src/spowtd/pestfiles.py], the
    generators of the PEST template, instruction and control files; and of
    [create_specific_yield_function] of [src/spowtd/specific_yield.py] with
    the constructors of the two classes it chooses from.

    Conventions.
    - Epochs are Python [int]s, SQLite INTEGERs: [Z].
    - Rainfall intensities and water levels are SQLite REALs, numpy float64:
      a type [V] with the arithmetic of the class [Float]; no law of
      arithmetic is assumed of it.
    - A table is the list of its rows in the order they were inserted.
      [schema.sql] is not part of the sources: no key or uniqueness
      constraint is modelled, and a staging series is read in the order
      of its epochs, as the specification describes the staging store.
    - The sqlite3 cursor is threaded as explicit state: a statement is a
      computation in the monad [M] of a database state and a Python
      exception.
    - The parameters of the calibration are what [yaml.safe_load] returns:
      a tree of dicts, lists and scalars.  How Python prints a value or a
      float with a precision, [os.linesep] and [yaml.safe_load] itself are
      parameters of the model; the file written is the text it holds. *)

From Stdlib Require Import ZArith QArith String Ascii List Sorted Permutation Lia.
From stdpp Require Import base decidable numbers option list sorting gmap
  pretty.

Local Open Scope Z_scope.

(** ** Python values *)

Module Py.

(** [l[i]] on a list: a negative index counts from the end, an index out
    of range raises IndexError ([None]). *)
Definition index {A} (l : list A) (i : Z) : option A :=
  let n := Z.of_nat (length l) in
  if decide (0 ≤ i) then l !! Z.to_nat i
  else if decide (0 ≤ n + i) then l !! Z.to_nat (n + i)
  else None.

(** [l[:stop]]: a negative stop counts from the end and is clipped at 0. *)
Definition slice_to {A} (l : list A) (stop : Z) : list A :=
  let n := Z.of_nat (length l) in
  if decide (0 ≤ stop) then take (Z.to_nat stop) l
  else take (Z.to_nat (n + stop)) l.

(** [s.lower()] on a string of code points below 256. *)
Definition lower_char (c : ascii) : ascii :=
  let n := Z.of_N (N_of_ascii c) in
  if decide (65 ≤ n ≤ 90 ∨ (192 ≤ n ≤ 222 ∧ n ≠ 215))
  then ascii_of_N (Z.to_N (n + 32)) else c.

Definition lower (s : string) : string :=
  string_of_list_ascii (lower_char <$> list_ascii_of_string s).

(** [s.startswith(p)] *)
Definition startswith (s p : string) : bool := String.prefix p s.

(** [sorted(set(l))] on integers. *)
Definition sorted_set (l : list Z) : list Z :=
  merge_sort Z.le (elements (list_to_set l : gset Z)).

End Py.

(** ** float64 *)

(** The float64 operations numpy's interpolation uses, in the order
    [compiled_base.c] writes them. *)
Class Float (V : Type) := {
  f_of_int : Z → V;
  f_add : V → V → V;
  f_sub : V → V → V;
  f_mul : V → V → V;
  f_div : V → V → V
}.

#[export] Instance Q_Float : Float Q := {|
  f_of_int := inject_Z;
  f_add := Qplus;
  f_sub := Qminus;
  f_mul := Qmult;
  f_div := Qdiv
|}.

(** ** numpy *)

Module Np.

(** The value an int64 holds for an integer. *)
Definition int64 (z : Z) : Z := (z + 2 ^ 63) mod 2 ^ 64 - 2 ^ 63.

(** [np.diff(a)]: [a[i+1] - a[i]] for every [i]; empty for fewer than two
    items.  The differences are written here on the integers.  numpy
    subtracts in int64, which is [int64_diff] below: the two are one when
    neighbouring epochs differ by less than 2^63 (lemma
    [int64_diff_small]), as the epochs the normaliser yields, which lie
    within 2^38 of zero, do (lemmas [epoch_range] and [diff_int64]). *)
Fixpoint diff (a : list Z) : list Z :=
  match a with
  | [] => []
  | x :: t =>
      match t with
      | [] => []
      | y :: _ => (y - x) :: diff t
      end
  end.


Section interp.
Context {V : Type} `{Float V}.

(** The loop [for (i = 1; i < len && key >= arr[i]; ++i);] of
    [binary_search_with_guess], started at [i] on the items from [i]
    on. *)
Fixpoint linear_search (key : Z) (arr : list Z) (i : nat) : nat :=
  match arr with
  | [] => i
  | a :: t => if decide (a ≤ key) then linear_search key t (S i) else i
  end.

(** [binary_search_with_guess(key, arr, len, guess)]: [len] above the
    last item, [-1] below the first, otherwise the index [j] with
    [arr[j] <= key < arr[j+1]].  For [len <= 4] numpy finds [j] by the
    linear search written here; for longer arrays it bisects, which on
    an ascending [arr] gives the same [j], the only one there is (lemma
    [binary_search_sorted]).  The array is ascending in every call
    [populate_water_level] makes, which reads the series in the order of
    its epochs.  numpy compares the epochs as float64, which is the
    comparison of the integers for epochs within 2^53 of zero. *)
Definition binary_search_with_guess (key : Z) (arr : list Z) : Z :=
  match arr, last arr with
  | a0 :: t, Some an =>
      if decide (an < key) then Z.of_nat (length arr)
      else if decide (key < a0) then -1
      else Z.of_nat (linear_search key t 1) - 1
  | _, _ => -1
  end.

(** [slope*(x_val - dx[j]) + dy[j]] with
    [slope = (dy[j+1] - dy[j]) / (dx[j+1] - dx[j])]. *)
Definition lerp (x0 : Z) (y0 : V) (x1 : Z) (y1 : V) (x : Z) : V :=
  let slope :=
    f_div (f_sub y1 y0) (f_sub (f_of_int x1) (f_of_int x0)) in
  f_add (f_mul slope (f_sub (f_of_int x) (f_of_int x0))) y0.

(** One item of [np.interp(x, xp, fp)] with [left = fp[0]] and
    [right = fp[-1]].  [None] stands for an index the C code would read
    out of bounds; it does not occur when [xp] and [fp] have one
    length. *)
Definition interp_at (xp : list Z) (fp : list V) (x : Z) : option V :=
  let lenxp := Z.of_nat (length xp) in
  if decide (lenxp = 1) then
    xp_val ← xp !! 0%nat;
    if decide (x < xp_val) then fp !! 0%nat
    else if decide (xp_val < x) then last fp
    else fp !! 0%nat
  else
    let j := binary_search_with_guess x xp in
    if decide (j = -1) then fp !! 0%nat
    else if decide (j = lenxp) then last fp
    else if decide (j = lenxp - 1) then fp !! Z.to_nat j
    else
      dxj ← xp !! Z.to_nat j;
      dyj ← fp !! Z.to_nat j;
      if decide (dxj = x) then Some dyj
      else
        dxj1 ← xp !! Z.to_nat (j + 1);
        dyj1 ← fp !! Z.to_nat (j + 1);
        Some (lerp dxj dyj dxj1 dyj1 x).

(** [np.interp(x, xp, fp)]; ValueError ([None]) when [xp] is empty or
    [fp] has another length. *)
Definition interp (x : list Z) (xp : list Z) (fp : list V)
  : option (list V) :=
  if decide (xp = [] ∨ length xp ≠ length fp) then None
  else mapM (interp_at xp fp) x.

End interp.

End Np.

(** ** datetime *)

Module Datetime.

(** A naive [datetime.datetime]. *)
Record datetime := {
  year : Z; month : Z; day : Z;
  hour : Z; minute : Z; second : Z; microsecond : Z
}.

Definition _is_leap (y : Z) : bool :=
  bool_decide (y mod 4 = 0 ∧ (y mod 100 ≠ 0 ∨ y mod 400 = 0)).

Definition _DAYS_IN_MONTH : list Z :=
  [-1; 31; 28; 31; 30; 31; 30; 31; 31; 30; 31; 30; 31].

Definition _DAYS_BEFORE_MONTH : list Z :=
  [-1; 0; 31; 59; 90; 120; 151; 181; 212; 243; 273; 304; 334].

Definition _days_before_year (y : Z) : Z :=
  let y := y - 1 in y * 365 + y / 4 - y / 100 + y / 400.

Definition _days_in_month (y m : Z) : Z :=
  if bool_decide (m = 2) && _is_leap y then 29
  else default 0 (_DAYS_IN_MONTH !! Z.to_nat m).

Definition _days_before_month (y m : Z) : Z :=
  default 0 (_DAYS_BEFORE_MONTH !! Z.to_nat m)
  + (if bool_decide (2 < m) && _is_leap y then 1 else 0).

Definition _ymd2ord (y m d : Z) : Z :=
  _days_before_year y + _days_before_month y m + d.

(** The checks of the [datetime] constructor: ValueError outside them. *)
Definition check_fields (dt : datetime) : bool :=
  bool_decide (1 ≤ year dt ≤ 9999)
  && bool_decide (1 ≤ month dt ≤ 12)
  && bool_decide (1 ≤ day dt ≤ _days_in_month (year dt) (month dt))
  && bool_decide (0 ≤ hour dt ≤ 23)
  && bool_decide (0 ≤ minute dt ≤ 59)
  && bool_decide (0 ≤ second dt ≤ 59)
  && bool_decide (0 ≤ microsecond dt ≤ 999999).

(** *** strptime

    [datetime.strptime(text, format)] as [_strptime.py] does it: the
    format becomes a regular expression, directive by directive, white
    space in the format becomes [\s+]; the expression is matched at the
    start of the text with the alternatives of a directive tried in the
    order written; text left after the match is an error, and so is a
    field the [datetime] constructor refuses.  Texts are strings of code
    points below 256. *)

Definition digit (c : ascii) : option Z :=
  let n := Z.of_N (N_of_ascii c) in
  if decide (48 ≤ n ≤ 57) then Some (n - 48) else None.

(** [\s] on a code point below 256. *)
Definition is_space (c : ascii) : bool :=
  let n := Z.of_N (N_of_ascii c) in
  bool_decide (9 ≤ n ≤ 13 ∨ 28 ≤ n ≤ 32 ∨ n = 133 ∨ n = 160).

(** A backtracking matcher: every way to match a prefix, best first. *)
Definition matcher (A : Type) : Type := list ascii → list (A * list ascii).

(** [[lo-hi]] *)
Definition d1 (lo hi : Z) : matcher Z := λ s,
  match s with
  | c :: s' =>
      match digit c with
      | Some v => if decide (lo ≤ v ≤ hi) then [(v, s')] else []
      | None => []
      end
  | [] => []
  end.

(** [[lo1-hi1][lo2-hi2]] *)
Definition d2 (lo1 hi1 lo2 hi2 : Z) : matcher Z := λ s,
  '(a, s') ← d1 lo1 hi1 s;
  '(b, s'') ← d1 lo2 hi2 s';
  [(10 * a + b, s'')].

(** [\s+], the longest run first. *)
Fixpoint spaces (s : list ascii) : list (unit * list ascii) :=
  match s with
  | c :: s' => if is_space c then spaces s' ++ [((), s')] else []
  | [] => []
  end.

Definition lit (c : ascii) : matcher unit := λ s,
  match s with
  | c' :: s' => if decide (c' = c) then [((), s')] else []
  | [] => []
  end.

Definition alt {A} (p q : matcher A) : matcher A := λ s, p s ++ q s.

(** [p] followed by [q]. *)
Definition seq {A B C} (p : matcher A) (q : matcher B) (f : A → B → C)
  : matcher C := λ s,
  '(a, s') ← p s;
  '(b, s'') ← q s';
  [(f a b, s'')].

(** The expression of a directive and the field it sets. *)
Definition directive (c : ascii) : option (matcher (datetime → datetime)) :=
  let set (p : matcher Z) (f : Z → datetime → datetime) :
    matcher (datetime → datetime) :=
    seq p (λ s, [((), s)]) (λ v _, f v) in
  if decide (c = "Y"%char) then
    Some (set (seq (d2 0 9 0 9) (d2 0 9 0 9) (λ a b, 100 * a + b))
              (λ v dt, {| year := v; month := month dt; day := day dt;
                          hour := hour dt; minute := minute dt;
                          second := second dt;
                          microsecond := microsecond dt |}))
  else if decide (c = "m"%char) then
    Some (set (alt (d2 1 1 0 2) (alt (d2 0 0 1 9) (d1 1 9)))
              (λ v dt, {| year := year dt; month := v; day := day dt;
                          hour := hour dt; minute := minute dt;
                          second := second dt;
                          microsecond := microsecond dt |}))
  else if decide (c = "d"%char) then
    Some (set (alt (d2 3 3 0 1) (alt (d2 1 2 0 9) (alt (d2 0 0 1 9)
                (alt (d1 1 9) (seq (lit " "%char) (d1 1 9) (λ _ v, v))))))
              (λ v dt, {| year := year dt; month := month dt; day := v;
                          hour := hour dt; minute := minute dt;
                          second := second dt;
                          microsecond := microsecond dt |}))
  else if decide (c = "H"%char) then
    Some (set (alt (d2 2 2 0 3) (alt (d2 0 1 0 9) (d1 0 9)))
              (λ v dt, {| year := year dt; month := month dt; day := day dt;
                          hour := v; minute := minute dt;
                          second := second dt;
                          microsecond := microsecond dt |}))
  else if decide (c = "M"%char) then
    Some (set (alt (d2 0 5 0 9) (d1 0 9))
              (λ v dt, {| year := year dt; month := month dt; day := day dt;
                          hour := hour dt; minute := v;
                          second := second dt;
                          microsecond := microsecond dt |}))
  else if decide (c = "S"%char) then
    Some (set (alt (d2 6 6 0 1) (alt (d2 0 5 0 9) (d1 0 9)))
              (λ v dt, {| year := year dt; month := month dt; day := day dt;
                          hour := hour dt; minute := minute dt;
                          second := v;
                          microsecond := microsecond dt |}))
  else None.

(** The expression of a format, applied to the fields found so far.
    [None]: a directive other than [%Y %m %d %H %M %S], which this
    development does not cover.  [in_space] is set while a run of white
    space of the format is being read, which becomes one [\s+]. *)
Fixpoint pattern (fmt : list ascii) (in_space : bool)
  : option (matcher (datetime → datetime)) :=
  match fmt with
  | [] => Some (λ s, [(λ dt, dt, s)])
  | c :: fmt' =>
      if is_space c then
        rest ← pattern fmt' true;
        if in_space then Some rest
        else Some (seq spaces rest (λ _ g, g))
      else if decide (c = "%"%char) then
        match fmt' with
        | k :: fmt'' =>
            p ← directive k;
            rest ← pattern fmt'' false;
            Some (seq p rest (λ f g dt, g (f dt)))
        | [] => None
        end
      else
        rest ← pattern fmt' false;
        Some (seq (lit c) rest (λ _ g, g))
  end.

(** Fields a format does not set: 1900-01-01 00:00:00. *)
Definition defaults : datetime :=
  {| year := 1900; month := 1; day := 1;
     hour := 0; minute := 0; second := 0; microsecond := 0 |}.

(** [datetime.datetime.strptime(text, format)]; [None] is ValueError. *)
Definition strptime (text format : string) : option datetime :=
  re ← pattern (list_ascii_of_string format) false;
  '(f, rest) ← head (re (list_ascii_of_string text));
  if decide (rest = []) then
    let dt := f defaults in
    if check_fields dt then Some dt else None
  else None.

(** *** Time zones and timestamps *)

(** A pytz time zone, by the one thing the loader asks of it: the UTC
    offset, in microseconds, of the [tzinfo] that [tz.localize] attaches to
    a naive datetime ([None] where that [tzinfo] has no offset). *)
Record tzinfo := { localize : datetime → option Z }.

(** Microseconds from 1970-01-01 00:00:00 to a naive datetime. *)
Definition naive_microseconds (dt : datetime) : Z :=
  (((_ymd2ord (year dt) (month dt) (day dt) - 719163) * 86400
    + hour dt * 3600 + minute dt * 60 + second dt) * 1000000)
  + microsecond dt.

(** [aware.timestamp()], as the count of microseconds that
    [total_seconds] divides by 10^6.  The float64 quotient is a whole
    number exactly when the count is a multiple of 10^6, for every instant
    within 2^33 seconds of 1970. *)
Definition timestamp (dt : datetime) (utcoffset : Z) : Z :=
  naive_microseconds dt - utcoffset.

(** [epoch.is_integer()] and [int(epoch)] on that count. *)
Definition is_integer (epoch : Z) : bool := bool_decide (epoch mod 1000000 = 0).
Definition int (epoch : Z) : Z := epoch ÷ 1000000.

End Datetime.

(** ** The database *)

(** Python exceptions the module raises or lets through. *)
Inductive Exception :=
| NonuniformTimeSteps (delta_t : list Z)
    (** ValueError('Nonuniform time steps in rainfall data: {} s') *)
| TimeDataMismatch (text : string)
    (** ValueError of [strptime] *)
| NonIntegerSeconds (text : string)
    (** ValueError('Non-integer seconds in datetime {}') *)
| NotEnoughValues
    (** ValueError of unpacking an empty [zip] into two names *)
| InterpError
    (** ValueError of [np.interp] *)
| IndexError
| AssertionError
| StopIteration
    (** [next] on a file without a line *)
| ProgrammingError
    (** sqlite3: a row that does not bind the two parameters *)
| OverflowError.
    (** sqlite3: a Python int beyond 64 bits bound to a parameter *)

Module Db.
Section tables.
Context {V : Type}.

(** Modelled from the spec: the tables of [schema.sql], which is not among
    the sources.  Each table has the columns the statements of [load.py]
    name.  A staging series is "an ordered-by-arrival collection" on which
    "no uniqueness constraint on epoch is enforced": a table is the list of
    its rows in the order they were inserted, and an epoch may occur in it
    more than once. *)
Record Store := {
  rainfall_intensity_staging : list (Z * V);
  evapotranspiration_staging : list (Z * V);
  water_level_staging : list (Z * V);
  time_grid : list Z;                  (* time_step_s *)
  grid_time : list Z;                  (* epoch *)
  rainfall_intensity : list (Z * Z * V);
  water_level : list (Z * V)
}.

(** The columns [from_epoch] and [thru_epoch] of a rainfall_intensity
    row. *)
Definition from_epoch (r : Z * Z * V) : Z := r.1.1.
Definition thru_epoch (r : Z * Z * V) : Z := r.1.2.

Definition empty : Store := {|
  rainfall_intensity_staging := [];
  evapotranspiration_staging := [];
  water_level_staging := [];
  time_grid := [];
  grid_time := [];
  rainfall_intensity := [];
  water_level := []
|}.

(** The outcome of running statements on a cursor: a value or an
    exception, and the database as the statements left it. *)
Inductive Result (A : Type) :=
| Ok (a : A) (db : Store)
| Raise (e : Exception) (db : Store).
Global Arguments Ok {A} a db.
Global Arguments Raise {A} e db.

Definition M (A : Type) : Type := Store → Result A.

Definition ret {A} (a : A) : M A := λ db, Ok a db.
Definition raise {A} (e : Exception) : M A := λ db, Raise e db.
Definition bind {A B} (m : M A) (k : A → M B) : M B :=
  λ db, match m db with
        | Ok a db' => k a db'
        | Raise e db' => Raise e db'
        end.
(** An index or an unpacking that may fail. *)
Definition lift {A} (e : Exception) (o : option A) : M A :=
  match o with Some a => ret a | None => raise e end.

(** SQL [min(epoch)], [max(epoch)] over a table; NULL on no rows. *)
Definition sql_min (l : list Z) : option Z :=
  match l with [] => None | e :: t => Some (foldr Z.min e t) end.
Definition sql_max (l : list Z) : option Z :=
  match l with [] => None | e :: t => Some (foldr Z.max e t) end.

(** The rows of
    [WITH a AS (SELECT min(epoch) AS min_t_zeta, max(epoch) AS max_t_zeta
     FROM water_level_staging)
    SELECT epoch FROM rainfall_intensity_staging AS ris
    JOIN a ON ris.epoch >= min_t_zeta AND ris.epoch <= max_t_zeta
    ORDER BY epoch].
    [a] has one row; on an empty water-level table its columns are NULL
    and the join condition holds for no row. *)
Definition overlap_epochs (db : Store) : list Z :=
  let zeta_t := (water_level_staging db).*1 in
  let rows :=
    match sql_min zeta_t, sql_max zeta_t with
    | Some min_t_zeta, Some max_t_zeta =>
        filter (λ epoch, min_t_zeta ≤ epoch ∧ epoch ≤ max_t_zeta)
               (rainfall_intensity_staging db).*1
    | _, _ => []
    end in
  merge_sort Z.le rows.

Definition select_overlap_epochs : M (list Z) := λ db,
  Ok (overlap_epochs db) db.

(** [INSERT INTO rainfall_intensity_staging (epoch,
     rainfall_intensity_mm_h) VALUES (?, ?)], once per row, and the same
    for the other two staging tables. *)
Definition insert_rainfall_intensity_staging (rows : list (Z * V))
  : M unit := λ db,
  Ok () {|
    rainfall_intensity_staging := rainfall_intensity_staging db ++ rows;
    evapotranspiration_staging := evapotranspiration_staging db;
    water_level_staging := water_level_staging db;
    time_grid := time_grid db;
    grid_time := grid_time db;
    rainfall_intensity := rainfall_intensity db;
    water_level := water_level db |}.

Definition insert_evapotranspiration_staging (rows : list (Z * V))
  : M unit := λ db,
  Ok () {|
    rainfall_intensity_staging := rainfall_intensity_staging db;
    evapotranspiration_staging := evapotranspiration_staging db ++ rows;
    water_level_staging := water_level_staging db;
    time_grid := time_grid db;
    grid_time := grid_time db;
    rainfall_intensity := rainfall_intensity db;
    water_level := water_level db |}.

Definition insert_water_level_staging (rows : list (Z * V))
  : M unit := λ db,
  Ok () {|
    rainfall_intensity_staging := rainfall_intensity_staging db;
    evapotranspiration_staging := evapotranspiration_staging db;
    water_level_staging := water_level_staging db ++ rows;
    time_grid := time_grid db;
    grid_time := grid_time db;
    rainfall_intensity := rainfall_intensity db;
    water_level := water_level db |}.

(** The database after the three staging tables are filled, in the order
    [load_data] fills them, on the empty tables the schema creates. *)
Definition staged (rainfall et zeta : list (Z * V)) : Store := {|
  rainfall_intensity_staging := rainfall;
  evapotranspiration_staging := et;
  water_level_staging := zeta;
  time_grid := [];
  grid_time := [];
  rainfall_intensity := [];
  water_level := [] |}.

(** [INSERT INTO time_grid (time_step_s) VALUES (?)]. *)
Definition insert_time_grid (time_step : Z) : M unit := λ db,
  Ok () {|
    rainfall_intensity_staging := rainfall_intensity_staging db;
    evapotranspiration_staging := evapotranspiration_staging db;
    water_level_staging := water_level_staging db;
    time_grid := time_grid db ++ [time_step];
    grid_time := grid_time db;
    rainfall_intensity := rainfall_intensity db;
    water_level := water_level db |}.

(** [INSERT INTO grid_time (epoch) VALUES (?)], once per epoch. *)
Definition insert_grid_time (epochs : list Z) : M unit := λ db,
  Ok () {|
    rainfall_intensity_staging := rainfall_intensity_staging db;
    evapotranspiration_staging := evapotranspiration_staging db;
    water_level_staging := water_level_staging db;
    time_grid := time_grid db;
    grid_time := grid_time db ++ epochs;
    rainfall_intensity := rainfall_intensity db;
    water_level := water_level db |}.

(** [SELECT ris.epoch, ris.epoch + ?, rainfall_intensity_mm_h
     FROM rainfall_intensity_staging AS ris
     JOIN grid_time AS gt USING (epoch)
     WHERE ris.epoch <= ?]: one row for every pair of a staged row and a
    grid_time row with the same epoch. *)
Definition join_rainfall_on_grid (time_step bound : Z) (db : Store)
  : list (Z * Z * V) :=
  '(epoch, intensity) ← rainfall_intensity_staging db;
  gt ← grid_time db;
  if decide (gt = epoch ∧ epoch ≤ bound)
  then [(epoch, epoch + time_step, intensity)]
  else [].

(** [INSERT INTO rainfall_intensity (from_epoch, thru_epoch,
     rainfall_intensity_mm_h) SELECT ...]. *)
Definition insert_rainfall_intensity (time_step bound : Z) : M unit :=
  λ db,
  Ok () {|
    rainfall_intensity_staging := rainfall_intensity_staging db;
    evapotranspiration_staging := evapotranspiration_staging db;
    water_level_staging := water_level_staging db;
    time_grid := time_grid db;
    grid_time := grid_time db;
    rainfall_intensity :=
      rainfall_intensity db ++ join_rainfall_on_grid time_step bound db;
    water_level := water_level db |}.

(** The order of two rows by their epochs. *)
Definition epoch_le (r r' : Z * V) : Prop := r.1 ≤ r'.1.
Global Instance epoch_le_dec : RelDecision epoch_le :=
  λ r r', decide (r.1 ≤ r'.1).

(** Modelled from the spec: the order in which a staging table is read
    by a statement without ORDER BY, which the declaration of the table in
    [schema.sql] decides and which is not among the sources.  The staging
    store's "select_all(series_name) -> ordered-by-epoch sequence of
    samples": the rows in ascending order of epoch. *)
Definition by_epoch (rows : list (Z * V)) : list (Z * V) :=
  merge_sort epoch_le rows.

(** [SELECT epoch, zeta_mm FROM water_level_staging]. *)
Definition select_water_level_staging : M (list (Z * V)) := λ db,
  Ok (by_epoch (water_level_staging db)) db.

(** [INSERT INTO water_level (epoch, zeta_mm) VALUES (?, ?)], once per
    row. *)
Definition insert_water_level (rows : list (Z * V)) : M unit := λ db,
  Ok () {|
    rainfall_intensity_staging := rainfall_intensity_staging db;
    evapotranspiration_staging := evapotranspiration_staging db;
    water_level_staging := water_level_staging db;
    time_grid := time_grid db;
    grid_time := grid_time db;
    rainfall_intensity := rainfall_intensity db;
    water_level := water_level db ++ rows |}.

(** The database after [INSERT INTO time_grid] of a step and
    [INSERT INTO grid_time] of a grid: what [populate_grid_time] leaves on
    success. *)
Definition with_grid (db : Store) (time_step : Z) (epochs : list Z)
  : Store := {|
  rainfall_intensity_staging := rainfall_intensity_staging db;
  evapotranspiration_staging := evapotranspiration_staging db;
  water_level_staging := water_level_staging db;
  time_grid := time_grid db ++ [time_step];
  grid_time := grid_time db ++ epochs;
  rainfall_intensity := rainfall_intensity db;
  water_level := water_level db |}.

End tables.
Global Arguments Store : clear implicits.
Global Arguments Result : clear implicits.
Global Arguments M : clear implicits.
End Db.

Notation "x ←@ m ; k" := (Db.bind m (λ x, k))
  (at level 20, m at level 100, k at level 200, only parsing,
   right associativity).
Notation "' x ←@ m ; k" := (Db.bind m (λ x, k))
  (at level 20, x pattern, m at level 100, k at level 200, only parsing,
   right associativity).
Notation "m ;@ k" := (Db.bind m (λ _, k))
  (at level 100, k at level 200, only parsing, right associativity).

(** ** load.py *)

Module Load.

(** *** The timestamp normaliser *)

Definition ISO_8601_FORMAT : string := "%Y-%m-%d %H:%M:%S".

(** What a generator did before it stopped: the rows it yielded, and the
    exception that ended it, if one did. *)
Record Generated (A : Type) := {
  yielded : list A;
  raised : option Exception
}.
Arguments yielded {A} _.
Arguments raised {A} _.

(** The body of the loop of [generate_timestamped_rows]: the row yielded
    for one input row, or the exception raised. *)
Definition timestamped_row (tz : Datetime.tzinfo) (row : list string)
  : Exception + (Z * list string) :=
  match row with
  | [] => inl IndexError
  | text :: fields =>
      match Datetime.strptime text ISO_8601_FORMAT with
      | None => inl (TimeDataMismatch text)
      | Some naive =>
          match Datetime.localize tz naive with
          | None => inl AssertionError
          | Some utcoffset =>
              let epoch := Datetime.timestamp naive utcoffset in
              if negb (Datetime.is_integer epoch) then
                inl (NonIntegerSeconds text)
              else inr (Datetime.int epoch, fields)
          end
      end
  end.

(** [generate_timestamped_rows(rows, tz)], run to its end. *)
Fixpoint generate_timestamped_rows (rows : list (list string))
    (tz : Datetime.tzinfo) : Generated (Z * list string) :=
  match rows with
  | [] => {| yielded := []; raised := None |}
  | row :: rows' =>
      match timestamped_row tz row with
      | inl e => {| yielded := []; raised := Some e |}
      | inr out =>
          let g := generate_timestamped_rows rows' tz in
          {| yielded := out :: yielded g; raised := raised g |}
      end
  end.

Section load.
Context {V : Type} `{Float V}.
Abbreviation Store := (Db.Store V).
Abbreviation M := (Db.M V).

(** [populate_grid_time(cursor)]: the rainfall epochs within the
    water-level range, the check that they are evenly spaced, and the
    grid closed by one more point.  The differences are those of
    [Np.diff], on the integers: this is the function on epochs within
    2^61 of zero (lemma [populate_grid_time_int64_small]), as all epochs
    of a load are. *)
Definition populate_grid_time : M (list Z * Z) :=
  time_grid ←@ Db.select_overlap_epochs;
  let delta_t := Py.sorted_set (Np.diff time_grid) in
  if decide (length delta_t ≠ 1%nat) then
    Db.raise (NonuniformTimeSteps delta_t)
  else
    time_step ←@ Db.lift IndexError (Py.index delta_t 0);
    Db.insert_time_grid time_step;@
    last_epoch ←@ Db.lift IndexError (Py.index time_grid (-1));
    let time_grid := time_grid ++ [last_epoch + time_step] in
    Db.insert_grid_time time_grid;@
    Db.ret (time_grid, time_step).


(** [populate_rainfall_intensity(cursor, time_grid, time_step)]. *)
Definition populate_rainfall_intensity (time_grid : list Z)
    (time_step : Z) : M unit :=
  bound ←@ Db.lift IndexError (Py.index time_grid (-2));
  Db.insert_rainfall_intensity time_step bound.

(** [populate_water_level(cursor, time_grid, time_step)]. *)
Definition populate_water_level (time_grid : list Z) (time_step : Z)
  : M unit :=
  rows ←@ Db.select_water_level_staging;
  '(zeta_t, zeta_mm) ←@
    Db.lift NotEnoughValues
      (match rows with [] => None | _ => Some (rows.*1, rows.*2) end);
  zeta_on_grid ←@
    Db.lift InterpError
      (Np.interp (Py.slice_to time_grid (-1)) zeta_t zeta_mm);
  Db.insert_water_level (zip (Py.slice_to time_grid (-1)) zeta_on_grid).

(** The last statements of [load_data], after the three staging tables
    are filled: the grid, then the two series on it. *)
Definition align : M (list Z * Z) :=
  '(time_grid, time_step) ←@ populate_grid_time;
  populate_rainfall_intensity time_grid time_step;@
  populate_water_level time_grid time_step;@
  Db.ret (time_grid, time_step).

(** [header = next(csv); assert header[0].lower().startswith('datetime')]
    on the rows of a [csv.reader]: the rows after the header. *)
Definition read_header (csv : list (list string)) : M (list (list string)) :=
  match csv with
  | [] => Db.raise StopIteration
  | header :: rows =>
      match header with
      | [] => Db.raise IndexError
      | h0 :: _ =>
          if Py.startswith (Py.lower h0) "datetime" then Db.ret rows
          else Db.raise AssertionError
      end
  end.

(** The number SQLite stores for the text of a number bound to a column
    of a staging table; the column types are those of [schema.sql], which
    is not among the sources.  A text that is no number SQLite keeps as
    text, and [np.interp] raises TypeError on it: the files of the model
    hold numbers in their value cells. *)
Context (sql_value : string → V).

(** The rows of a generator that bind the two parameters of
    [VALUES (?, ?)], up to the first that does not, and whether all do. *)
Fixpoint bind_rows (rows : list (Z * list string)) : list (Z * V) * bool :=
  match rows with
  | [] => ([], true)
  | (epoch, [value]) :: rows' =>
      let '(bound, all) := bind_rows rows' in
      ((epoch, sql_value value) :: bound, all)
  | _ :: _ => ([], false)
  end.

(** [cursor.executemany(INSERT ..., generate_timestamped_rows(csv, tz))]:
    rows are inserted as the generator yields them, up to a row sqlite3
    refuses or the exception that ends the generator. *)
Definition executemany (insert : list (Z * V) → M unit)
    (rows : Generated (Z * list string)) : M unit :=
  let '(bound, all) := bind_rows (yielded rows) in
  insert bound;@
  if all then
    match raised rows with
    | Some e => Db.raise e
    | None => Db.ret ()
    end
  else Db.raise ProgrammingError.

(** [load_data(connection, precipitation_data_file,
    evapotranspiration_data_file, water_level_data_file, time_zone_name)],
    on the tables the schema script has created, with the files as the rows
    [csv.reader] makes of them and the time zone as pytz returns it.  The
    commit is its last statement: a result [Db.Ok] is committed, a result
    [Db.Raise] is the state of a transaction that is not. *)
Definition load_data (precipitation_data_file evapotranspiration_data_file
    water_level_data_file : list (list string))
    (time_zone : Datetime.tzinfo) : M unit :=
  precip_csv ←@ read_header precipitation_data_file;
  executemany Db.insert_rainfall_intensity_staging
    (generate_timestamped_rows precip_csv time_zone);@
  et_csv ←@ read_header evapotranspiration_data_file;
  executemany Db.insert_evapotranspiration_staging
    (generate_timestamped_rows et_csv time_zone);@
  water_level_csv ←@ read_header water_level_data_file;
  executemany Db.insert_water_level_staging
    (generate_timestamped_rows water_level_csv time_zone);@
  '(time_grid, time_step) ←@ populate_grid_time;
  populate_rainfall_intensity time_grid time_step;@
  populate_water_level time_grid time_step.

End load.
End Load.

(** ** YAML documents and Python exceptions *)

Module Yaml.
Section value.
Context {V : Type}.

(** What [yaml.safe_load] makes of a document: [None], a bool, an int, a
    float, a str, a list, or a dict, whose items are written here in the
    order of the document with the keys as they are. *)
#[warnings="-register-all"] Inductive value :=
| Null
| Bool (b : bool)
| Int (z : Z)
| Real (v : V)
| Str (s : string)
| Seq (items : list value)
| Map (items : list (value * value)).

(** The exceptions of [pestfiles.py] and [specific_yield.py]. *)
Inductive Error :=
| ValueError (message : string)
| KeyError (key : value)
| TypeError
| AssertionError (message : option string)
| NotImplementedError
| YAMLError.

(** [v == s] for a str [s]: no value of another type equals a str. *)
Definition eq_str (v : value) (s : string) : bool :=
  match v with
  | Str s' => bool_decide (s' = s)
  | _ => false
  end.

(** The item of a dict under a str key. *)
Definition lookup (key : string) (items : list (value * value))
  : option value :=
  snd <$> List.find (λ item, eq_str item.1 key) items.

(** [v[key]] for a str [key]: KeyError on a dict without the key,
    TypeError on a list or a str (whose indices must be integers) and on a
    value that cannot be subscripted. *)
Definition getitem (v : value) (key : string) : Error + value :=
  match v with
  | Map items =>
      match lookup key items with
      | Some x => inr x
      | None => inl (KeyError (Str key))
      end
  | _ => inl TypeError
  end.

(** [len(v)]. *)
Definition len (v : value) : Error + nat :=
  match v with
  | Seq items => inr (length items)
  | Map items => inr (length items)
  | Str s => inr (String.length s)
  | _ => inl TypeError
  end.

(** The items of [for x in v]: those of a list, the keys of a dict, the
    characters of a str. *)
Definition iter (v : value) : Error + list value :=
  match v with
  | Seq items => inr items
  | Map items => inr items.*1
  | Str s => inr ((λ c, Str (String c EmptyString)) <$> list_ascii_of_string s)
  | _ => inl TypeError
  end.

End value.
Global Arguments value : clear implicits.
Global Arguments Error : clear implicits.
End Yaml.

(** Sequencing of steps that may raise. *)
Definition try_bind {E A B} (m : E + A) (k : A → E + B) : E + B :=
  match m with
  | inl e => inl e
  | inr a => k a
  end.

Notation "x ←? m ; k" := (try_bind m (λ x, k))
  (at level 20, m at level 100, k at level 200, only parsing,
   right associativity).
Notation "m ;? k" := (try_bind m (λ _, k))
  (at level 100, k at level 200, only parsing, right associativity).

(** ** str methods *)

Module Text.

Definition spaces (n : nat) : string :=
  string_of_list_ascii (replicate n " "%char).

(** [s.ljust(width)], [s.rjust(width)]. *)
Definition ljust (width : nat) (s : string) : string :=
  s +:+ spaces (width - String.length s).
Definition rjust (width : nat) (s : string) : string :=
  spaces (width - String.length s) +:+ s.

(** [sep.join(lines)]. *)
Fixpoint join (sep : string) (lines : list string) : string :=
  match lines with
  | [] => EmptyString
  | line :: rest =>
      match rest with
      | [] => line
      | _ :: _ => line +:+ sep +:+ join sep rest
      end
  end.

(** The character of code 34. *)
Definition quote : string := String "034"%char EmptyString.

End Text.

(** ** pestfiles.py *)

Module Pest.
Import Yaml.

Section pestfiles.
Context {V : Type}.
Abbreviation value := (Yaml.value V).
Abbreviation Error := (Yaml.Error V).

(** ['{}'.format(v)] of a value and ['{:0.{precision}g}'.format(W)] of a
    float, as Python prints them; the line separator of the platform;
    the files read, and what [yaml.safe_load] makes of one ([None] when it
    raises). *)
Variable str_ : value → string.
Variable format_g : nat → V → string.
Variable linesep : string.
Variable File : Type.
Variable safe_load : File → option value.

(** A connection, by what the two SELECT statements of the module return
    on it: [count(distinct zeta_number)] of rising_interval_zeta, and the
    column mean_crossing_depth_mm of average_rising_depth in the order of
    zeta_mm. *)
Record Connection := {
  count_distinct_zeta_number : nat;
  mean_crossing_depth_mm : list V
}.

(** The outcome of a call that may write to [outfile]: the text [outfile]
    holds afterwards, and what was returned or raised. *)
Inductive Outcome (A : Type) :=
| Returns (a : A) (outfile : string)
| Raises (e : Error) (outfile : string).
Arguments Returns {A} a outfile.
Arguments Raises {A} e outfile.

Definition M (A : Type) : Type := string → Outcome A.

Definition ret {A} (a : A) : M A := λ outfile, Returns a outfile.
Definition raise {A} (e : Error) : M A := λ outfile, Raises e outfile.
Definition bind {A B} (m : M A) (k : A → M B) : M B :=
  λ outfile, match m outfile with
             | Returns a outfile' => k a outfile'
             | Raises e outfile' => Raises e outfile'
             end.
Definition lift {A} (r : Error + A) : M A :=
  match r with inr a => ret a | inl e => raise e end.

(** [outfile.write(text)]. *)
Definition write (text : string) : M unit :=
  λ outfile, Returns () (outfile +:+ text).

(** [parameters[section][field]]. *)
Definition item (parameters : value) (section field : string)
  : Error + value :=
  entry ←? getitem parameters section;
  getitem entry field.

(** [v in ('peatclsm', 'spline')]. *)
Definition in_peatclsm_spline (v : value) : bool :=
  eq_str v "peatclsm" || eq_str v "spline".

(** [check_parameters(parameters)]. *)
Definition check_parameters (parameters : value) : Error + unit :=
  sy_type ←? item parameters "specific_yield" "type";
  if negb (in_peatclsm_spline sy_type) then
    inl (ValueError ("Unexpected specific yield type: " +:+ str_ sy_type))
  else
    tr_type ←? item parameters "transmissivity" "type";
    if negb (in_peatclsm_spline tr_type) then
      inl (ValueError ("Unexpected specific yield type: " +:+ str_ tr_type))
    else inr ().

(** [['    - {}'.format(value) for value in v]]. *)
Definition item_lines (v : value) : Error + list string :=
  values ←? iter v;
  inr ((λ value, "    - " +:+ str_ value) <$> values).

(** The list [lines] of [generate_rise_tpl_file] when it is written. *)
Definition rise_tpl_lines (parameters : value) : Error + list string :=
  let lines := ["ptf @";
                "specific_yield:"] in
  sy_type ←? item parameters "specific_yield" "type";
  lines ←?
    (if eq_str sy_type "peatclsm" then
       inr (lines ++
            ["  type: peatclsm";
             "  sd: @sd                      @";
             "  theta_s: @theta_s                 @";
             "  b: @b                       @";
             "  psi_s: @psi_s                   @"])
     else
       sy_type ←? item parameters "specific_yield" "type";
       if negb (eq_str sy_type "spline") then inl (AssertionError None)
       else
         let lines := lines ++ ["  type: spline";
                                "  zeta_knots_mm:"] in
         zeta_knots_mm ←? item parameters "specific_yield" "zeta_knots_mm";
         knot_lines ←? item_lines zeta_knots_mm;
         let lines := lines ++ knot_lines in
         let lines :=
           lines ++ ["  sy_knots:  # Specific yield, dimensionless"] in
         sy_knots ←? item parameters "specific_yield" "sy_knots";
         n ←? len sy_knots;
         inr (lines ++
              ((λ i : nat, "    - @s" +:+ Text.ljust 23 (pretty i) +:+ "@")
                 <$> seq 1 n)));
  let lines := lines ++ ["transmissivity:"] in
  tr_type ←? item parameters "transmissivity" "type";
  lines ←?
    (if eq_str tr_type "peatclsm" then
       Ksmacz0 ←? item parameters "transmissivity" "Ksmacz0";
       alpha ←? item parameters "transmissivity" "alpha";
       zeta_max_cm ←? item parameters "transmissivity" "zeta_max_cm";
       inr (lines ++
            ["  type: peatclsm";
             "  Ksmacz0: " +:+ str_ Ksmacz0 +:+ "  # m/s";
             "  alpha: " +:+ str_ alpha +:+ "  # dimensionless";
             "  zeta_max_cm: " +:+ str_ zeta_max_cm])
     else
       tr_type ←? item parameters "transmissivity" "type";
       if negb (eq_str tr_type "spline") then inl (AssertionError None)
       else
         let lines := lines ++ ["  type: spline"] in
         let lines := lines ++ ["  zeta_knots_mm:"] in
         zeta_knots_mm ←? item parameters "transmissivity" "zeta_knots_mm";
         knot_lines ←? item_lines zeta_knots_mm;
         let lines := lines ++ knot_lines in
         let lines :=
           lines ++ ["  K_knots_km_d:  # Conductivity, km /d"] in
         K_knots_km_d ←? item parameters "transmissivity" "K_knots_km_d";
         K_lines ←? item_lines K_knots_km_d;
         let lines := lines ++ K_lines in
         minimum ←?
           item parameters "transmissivity" "minimum_transmissivity_m2_d";
         inr (lines ++
              ["  minimum_transmissivity_m2_d: " +:+ str_ minimum +:+
               "  # Minimum transmissivity, m2 /d"]));
  inr lines.

(** [generate_rise_tpl_file(connection, parameters, configuration,
    outfile, precision)]. *)
Definition generate_rise_tpl_file (connection : Connection)
    (parameters configuration : value) (precision : nat) : M unit :=
  bind (lift (rise_tpl_lines parameters)) (λ lines,
  write (Text.join linesep lines)).

(** The list [lines] of [generate_rise_ins_file]. *)
Definition rise_ins_lines (connection : Connection) : list string :=
  let n_zeta := count_distinct_zeta_number connection in
  let lines := ["pif @";
                "@# Rise curve simulation vector@"] in
  lines ++ ((λ i : nat, "l1 [e" +:+ pretty (i + 1)%nat +:+ "]3:24")
              <$> seq 0 n_zeta).

(** [generate_rise_ins_file(...)]. *)
Definition generate_rise_ins_file (connection : Connection)
    (parameters configuration : value) (precision : nat) : M unit :=
  write (Text.join linesep (rise_ins_lines connection)).

(** The list [lines] of [generate_rise_pst_file] when it is written. *)
Definition rise_pst_lines (connection : Connection) (parameters : value)
    (precision : nat) : Error + list string :=
  parameterization ←? item parameters "specific_yield" "type";
  if negb (in_peatclsm_spline parameterization) then
    inl (ValueError ("Unrecognized parameterization " +:+ Text.quote +:+
                     str_ parameterization +:+ Text.quote))
  else
    npar ←?
      (if eq_str parameterization "spline" then
         sy_knots ←? item parameters "specific_yield" "sy_knots";
         len sy_knots
       else inr 4%nat);
    let n_zeta := count_distinct_zeta_number connection in
    let avg_storage_mm := mean_crossing_depth_mm connection in
    let lines :=
      ["pcf";
       "* control data";
       "restart  estimation";
       Text.rjust 5 (pretty npar) +:+ Text.rjust 6 (pretty n_zeta) +:+
         "     4     0     1";
       "    1     1 double point   1   0   0";
       "   5.0  2.0   0.3  0.03    10";
       "  3.0   3.0 0.001  0";
       "  0.1";
       "   30  0.01     4     3  0.01     3";
       "    1     1     1"] in
    let lines :=
      if eq_str parameterization "spline" then
        lines ++
        ["* parameter groups";
         "sy_knot      relative 0.01  0.0  switch  2.0 parabolic";
         "* parameter data"] ++
        ((λ i : nat,
            "sy_knot_" +:+ pretty (i + 1)%nat +:+
            "   none relative   NaN  0.01  1    sy_knot    1.0  0.0 1")
           <$> seq 0 npar)
      else
        lines ++
        ["* parameter groups";
         "sd           relative 0.01  0.0  switch  2.0 parabolic";
         "theta_s      relative 0.01  0.0  switch  2.0 parabolic";
         "b            relative 0.01  0.0  switch  2.0 parabolic";
         "psi_s        relative 0.01  0.0  switch  2.0 parabolic"] ++
        ["* parameter data";
         "sd          none relative   NaN  0.0   2.0  sd         1.0  0.0 1";
         "theta_s     none relative   NaN  0.01  1    theta_s    1.0  0.0 1";
         "b           none relative   NaN  0.01  20.0 b          1.0  0.0 1";
         "psi_s       none relative   NaN  -1.0  -0.01  psi_s      1.0  0.0 1"]
    in
    let lines := lines ++ ["* observation groups";
                           "storageobs"] in
    let lines := lines ++ ["* observation data"] in
    let lines :=
      lines ++
      imap (λ (i : nat) (W : V),
              "e" +:+ pretty (i + 1)%nat +:+ "    " +:+
              format_g precision W +:+ "    1.0   storageobs")
           avg_storage_mm in
    let lines := lines ++ ["* model command line";
                           "bash simulate-rise.sh"] in
    let lines := lines ++ ["* model input/output";
                           "rise_pars.yml.tpl  rise_pars.yml";
                           "rise_observations.ins  rise_observations.yml"] in
    let lines := lines ++ ["* prior information"] in
    inr lines.

(** [generate_rise_pst_file(...)]. *)
Definition generate_rise_pst_file (connection : Connection)
    (parameters configuration : value) (precision : nat) : M unit :=
  bind (lift (rise_pst_lines connection parameters precision)) (λ lines,
  write (Text.join linesep lines)).

(** [generate_curves_tpl_file], [generate_curves_ins_file] and
    [generate_curves_pst_file]. *)
Definition generate_curves_tpl_file (connection : Connection)
    (parameters configuration : value) : M unit :=
  raise NotImplementedError.
Definition generate_curves_ins_file (connection : Connection)
    (parameters configuration : value) : M unit :=
  raise NotImplementedError.
Definition generate_curves_pst_file (connection : Connection)
    (parameters configuration : value) : M unit :=
  raise NotImplementedError.

(** [{'tpl': f, 'ins': g, 'pst': h}[outfile_type]]. *)
Definition by_outfile_type {A} (tpl ins pst : A) (outfile_type : string)
  : Error + A :=
  match list_find (λ entry, entry.1 = outfile_type)
                  [("tpl", tpl); ("ins", ins); ("pst", pst)] with
  | Some (_, (_, generate)) => inr generate
  | None => inl (KeyError (Str outfile_type))
  end.

(** [{} if configuration_file is None
     else yaml.safe_load(configuration_file)]. *)
Definition load_configuration (configuration_file : option File)
  : Error + value :=
  match configuration_file with
  | None => inr (Map [])
  | Some file =>
      match safe_load file with
      | Some configuration => inr configuration
      | None => inl YAMLError
      end
  end.

Definition load_parameters (parameter_file : File) : Error + value :=
  match safe_load parameter_file with
  | Some parameters => inr parameters
  | None => inl YAMLError
  end.

(** [generate_rise_pestfiles(connection, parameter_file, outfile_type,
    configuration_file, outfile, precision=17)]. *)
Definition generate_rise_pestfiles (connection : Connection)
    (parameter_file : File) (outfile_type : string)
    (configuration_file : option File) (precision : nat) : M unit :=
  if negb (bool_decide (outfile_type ∈ ["tpl"; "ins"; "pst"])) then
    raise (AssertionError (Some outfile_type))
  else
    bind (lift (load_parameters parameter_file)) (λ parameters,
    bind (lift (check_parameters parameters)) (λ _,
    bind (lift (by_outfile_type generate_rise_tpl_file
                  generate_rise_ins_file generate_rise_pst_file
                  outfile_type)) (λ generate,
    bind (lift (load_configuration configuration_file)) (λ configuration,
    generate connection parameters configuration precision)))).

(** [generate_curves_pestfiles(connection, parameter_file, outfile_type,
    configuration_file, outfile)]. *)
Definition generate_curves_pestfiles (connection : Connection)
    (parameter_file : File) (outfile_type : string)
    (configuration_file : option File) : M unit :=
  if negb (bool_decide (outfile_type ∈ ["tpl"; "ins"; "pst"])) then
    raise (AssertionError (Some outfile_type))
  else
    bind (lift (by_outfile_type generate_curves_tpl_file
                  generate_curves_ins_file generate_curves_pst_file
                  outfile_type)) (λ generate,
    bind (lift (load_parameters parameter_file)) (λ parameters,
    bind (lift (load_configuration configuration_file)) (λ configuration,
    generate connection parameters configuration))).

End pestfiles.
Arguments Returns {V A} a outfile.
Arguments Raises {V A} e outfile.
End Pest.

(** ** specific_yield.py *)

Module SpecificYield.
Import Yaml.

Section specific_yield.
Context {V Spline : Type}.
Abbreviation value := (Yaml.value V).
Abbreviation Error := (Yaml.Error V).

(** A dict, by its items. *)
Abbreviation dict := (list (value * value)).

(** ['{}'.format(parameters)], and [Spline.from_points(points, order=3)]
    of the class [Spline] of [spowtd.spline], which is not among the
    sources. *)
Variable str_ : value → string.
Variable from_points : list (value * value) → Error + Spline.

(** The attributes of the two classes. *)
Record PeatclsmSpecificYield := {
  sd : value;
  theta_s : value;
  b : value;
  psi_s : value
}.

Record SplineSpecificYield := {
  zeta_knots_mm : value;
  sy_knots : value;
  _spline : Spline
}.

(** What [create_specific_yield_function] returns: an object of one of
    the two classes. *)
Inductive specific_yield_function :=
| Peatclsm (self : PeatclsmSpecificYield)
| Spline_ (self : SplineSpecificYield).

(** [key in d] and [d.pop(key, None)] for a str [key]: the value popped
    and the dict that is left. *)
Definition contains (key : string) (d : dict) : bool :=
  bool_decide (is_Some (lookup key d)).
Definition pop (key : string) (d : dict) : value * dict :=
  (default Null (lookup key d),
   filter (λ item, eq_str item.1 key = false) d).

(** The arguments that a call of [f] with the items of [d] as keywords
    binds to the parameters [names] of [f], none of which has a default: TypeError when a key of [d] is no str or
    no parameter, or a parameter has no key. *)
Definition keywords (names : list string) (d : dict)
  : Error + list value :=
  if forallb (λ item, existsb (eq_str item.1) names) d then
    match mapM (λ name, lookup name d) names with
    | Some arguments => inr arguments
    | None => inl TypeError
    end
  else inl TypeError.

(** [PeatclsmSpecificYield] called with the items of [parameters] as
    keywords: [__init__(self, sd, theta_s, b, psi_s)]. *)
Definition new_PeatclsmSpecificYield (parameters : dict)
  : Error + specific_yield_function :=
  arguments ←? keywords ["sd"; "theta_s"; "b"; "psi_s"] parameters;
  match arguments with
  | [sd; theta_s; b; psi_s] =>
      inr (Peatclsm {| sd := sd; theta_s := theta_s; b := b;
                       psi_s := psi_s |})
  | _ => inl TypeError
  end.

(** [SplineSpecificYield] called with the items of [parameters] as
    keywords: [__init__(self, zeta_knots_mm, sy_knots)]. *)
Definition new_SplineSpecificYield (parameters : dict)
  : Error + specific_yield_function :=
  arguments ←? keywords ["zeta_knots_mm"; "sy_knots"] parameters;
  match arguments with
  | [zeta_knots_mm; sy_knots] =>
      zetas ←? iter zeta_knots_mm;
      sys ←? iter sy_knots;
      spline ←? from_points (zip zetas sys);
      inr (Spline_ {| zeta_knots_mm := zeta_knots_mm;
                      sy_knots := sy_knots;
                      _spline := spline |})
  | _ => inl TypeError
  end.

(** [{'peatclsm': PeatclsmSpecificYield,
      'spline': SplineSpecificYield}[sy_type]]: TypeError on a key that
    cannot be hashed (a list or a dict), KeyError on another key that is
    none of the two. *)
Definition class_of (sy_type : value)
  : Error + (dict → Error + specific_yield_function) :=
  match sy_type with
  | Seq _ | Map _ => inl TypeError
  | _ =>
      if eq_str sy_type "peatclsm" then inr new_PeatclsmSpecificYield
      else if eq_str sy_type "spline" then inr new_SplineSpecificYield
      else inl (KeyError sy_type)
  end.

(** [create_specific_yield_function(parameters)]: what it returns or
    raises, and the caller's dict [parameters] after the call. *)
Definition create_specific_yield_function (parameters : dict)
  : (Error + specific_yield_function) * dict :=
  if negb (contains "type" parameters) then
    (inl (ValueError
            (Text.quote +:+ "type" +:+ Text.quote +:+
             " field is required in parameters; got " +:+
             str_ (Map parameters))),
     parameters)
  else
    let '(sy_type, parameters) := pop "type" parameters in
    (new ←? class_of sy_type; new parameters, parameters).

End specific_yield.
End SpecificYield.



(** ** Vocabulary of the properties *)

(** Every item of [a] but the last is followed by the item [s] above. *)
Definition evenly_spaced (a : list Z) (s : Z) : Prop :=
  ∀ i x y, a !! i = Some x → a !! S i = Some y → y - x = s.

(** The text [YYYY-MM-DD HH:MM:SS] of a datetime: every field in decimal,
    the year on four digits and the others on two. *)
Definition digit_char (v : Z) : ascii := ascii_of_N (Z.to_N (48 + v)).

Definition pad2 (n : Z) : list ascii :=
  [digit_char (n / 10); digit_char (n mod 10)].

Definition iso_text (dt : Datetime.datetime) : string :=
  string_of_list_ascii
    (pad2 (Datetime.year dt / 100) ++ pad2 (Datetime.year dt mod 100)
     ++ "-"%char :: pad2 (Datetime.month dt)
     ++ "-"%char :: pad2 (Datetime.day dt)
     ++ " "%char :: pad2 (Datetime.hour dt)
     ++ ":"%char :: pad2 (Datetime.minute dt)
     ++ ":"%char :: pad2 (Datetime.second dt)).

(** The first way a matcher matches: the value [a], with [s'] left. *)
Definition first_match {A} (p : Datetime.matcher A) (s : list ascii)
    (a : A) (s' : list ascii) : Prop :=
  ∃ others, p s = (a, s') :: others.

(** Inputs of the scenarios, with levels and intensities in [Q]. *)
Module Scenario.

(** Rainfall 0, 5, 10 mm/h at 0, 3600, 7200; water level at -1800 and
    9000. *)
Definition A : Db.Store Q :=
  Db.staged [(0, 0%Q); (3600, 5%Q); (7200, 10%Q)] []
            [(-1800, 1%Q); (9000, 2%Q)].

(** Rainfall at 0, 3600, 10800, inside the water-level range. *)
Definition B : Db.Store Q :=
  Db.staged [(0, 0%Q); (3600, 5%Q); (10800, 10%Q)] []
            [(-1800, 1%Q); (12600, 2%Q)].


(** The water level staged with the later sample first. *)
Definition descending_water_level : Db.Store Q :=
  Db.staged [(0, 0%Q); (3600, 5%Q); (7200, 10%Q)] []
            [(7200, 2%Q); (0, 1%Q)].

(** No water level staged. *)
Definition no_water_level : Db.Store Q :=
  Db.staged [(0, 0%Q); (3600, 5%Q); (7200, 10%Q)] [] [].

(** A zone one hour east of UTC, as Africa/Lagos is, and a zone half a
    second east. *)
Definition Africa_Lagos : Datetime.tzinfo :=
  {| Datetime.localize := λ _, Some 3600000000 |}.

(** The files of scenario A as [csv.reader] splits them, for the zone
    one hour east, and a reading of whole-number texts as values. *)
Definition precipitation_file : list (list string) :=
  [["Datetime"; "Rainfall (mm/h)"];
   ["1970-01-01 01:00:00"; "0"];
   ["1970-01-01 02:00:00"; "5"];
   ["1970-01-01 03:00:00"; "10"]]%string.

Definition evapotranspiration_file : list (list string) :=
  [["datetime"; "ET (mm/h)"]]%string.

Definition water_level_file : list (list string) :=
  [["DateTime (local)"; "Water level (mm)"];
   ["1970-01-01 00:30:00"; "1"];
   ["1970-01-01 03:30:00"; "2"]]%string.

Definition read_Q (text : string) : Q :=
  inject_Z
    (foldl (λ acc c, match Datetime.digit c with
                     | Some d => 10 * acc + d
                     | None => acc
                     end) 0 (list_ascii_of_string text)).

End Scenario.

(** Seconds from 1970-01-01 00:00:00 to a naive datetime, its microseconds
    left out. *)
Definition naive_seconds (dt : Datetime.datetime) : Z :=
  (Datetime._ymd2ord (Datetime.year dt) (Datetime.month dt) (Datetime.day dt)
   - 719163) * 86400
  + Datetime.hour dt * 3600 + Datetime.minute dt * 60 + Datetime.second dt.

(** What a run returned or raised, the database left aside. *)
Definition outcome {V A} (r : Db.Result V A) : Exception + A :=
  match r with
  | Db.Ok a _ => inr a
  | Db.Raise e _ => inl e
  end.

(** The database a run left. *)
Definition database {V A} (r : Db.Result V A) : Db.Store V :=
  match r with
  | Db.Ok _ db => db
  | Db.Raise _ db => db
  end.

(** Two databases that hold the same rows in every table but
    evapotranspiration_staging, and a run that treats such databases
    alike and leaves that table as it finds it. *)
Definition same_but_evapotranspiration {V} (db db' : Db.Store V) : Prop :=
  Db.rainfall_intensity_staging db = Db.rainfall_intensity_staging db' ∧
  Db.water_level_staging db = Db.water_level_staging db' ∧
  Db.time_grid db = Db.time_grid db' ∧
  Db.grid_time db = Db.grid_time db' ∧
  Db.rainfall_intensity db = Db.rainfall_intensity db' ∧
  Db.water_level db = Db.water_level db'.

Definition ignores_evapotranspiration {V A} (m : Db.M V A) : Prop :=
  ∀ db db', same_but_evapotranspiration db db' →
    outcome (m db) = outcome (m db') ∧
    same_but_evapotranspiration (database (m db)) (database (m db')) ∧
    Db.evapotranspiration_staging (database (m db))
      = Db.evapotranspiration_staging db ∧
    Db.evapotranspiration_staging (database (m db'))
      = Db.evapotranspiration_staging db'.

(** What a step on the parameters may raise: TypeError, or KeyError
    of a str. *)
Definition lookup_error {V} (e : Yaml.Error V) : Prop :=
  e = Yaml.TypeError ∨ ∃ key, e = Yaml.KeyError (Yaml.Str key).

(** Parameter files and a connection to try the generators on: the
    documents stand for the files they are loaded from, values print as
    Python prints ints and strs, and floats as it prints whole numbers. *)
Module PestScenario.
Import Yaml.

Definition str_ (v : value Q) : string :=
  match v with
  | Int z => pretty z
  | Str s => s
  | _ => "?"
  end.

Definition format_g (precision : nat) (W : Q) : string :=
  pretty (Qnum W / Z.pos (Qden W)).

Definition linesep : string := String "010"%char EmptyString.

Definition safe_load (file : value Q) : option (value Q) := Some file.

Definition dict (items : list (string * value Q)) : value Q :=
  Map ((λ item, (Str item.1, item.2)) <$> items).

(** Cubic splines on three knots. *)
Definition spline : value Q :=
  dict [("specific_yield",
         dict [("type", Str "spline");
               ("zeta_knots_mm", Seq [Int (-10); Int 0; Int 20]);
               ("sy_knots", Seq [Int 1; Int 2; Int 3])]);
        ("transmissivity",
         dict [("type", Str "spline");
               ("zeta_knots_mm", Seq [Int 1; Int 2]);
               ("K_knots_km_d", Seq [Int 3; Int 4]);
               ("minimum_transmissivity_m2_d", Int 9)])].

(** A transmissivity of a type that is not known. *)
Definition unknown_transmissivity : value Q :=
  dict [("specific_yield", dict [("type", Str "peatclsm")]);
        ("transmissivity", dict [("type", Str "darcy")])].

(** Two rising levels. *)
Definition connection : Pest.Connection (V:=Q) := {|
  Pest.count_distinct_zeta_number := 2;
  Pest.mean_crossing_depth_mm := [12%Q; 15%Q]
|}.

End PestScenario.

(** * Properties *)

(** ** Python lists and sets *)

Lemma index_last {A} (l : list A) : Py.index l (-1) = last l.
Proof.
  unfold Py.index. rewrite decide_False by lia.
  destruct l as [|x l] using rev_ind.
  - reflexivity.
  - rewrite last_snoc, length_app. simpl.
    rewrite decide_True by lia.
    replace (Z.to_nat _) with (length l) by lia.
    by rewrite lookup_app_r, Nat.sub_diag.
Qed.

Lemma index_0 {A} (l : list A) : Py.index l 0 = head l.
Proof. unfold Py.index. simpl. by destruct l. Qed.

Lemma slice_to_snoc {A} (l : list A) x : Py.slice_to (l ++ [x]) (-1) = l.
Proof.
  unfold Py.slice_to. rewrite decide_False by lia.
  rewrite length_app. simpl.
  replace (Z.to_nat _) with (length l) by lia.
  by rewrite take_app_length.
Qed.

Lemma index_penultimate {A} (l : list A) x y :
  Py.index (l ++ [x; y]) (-2) = Some x.
Proof.
  unfold Py.index. rewrite decide_False by lia.
  rewrite length_app. simpl. rewrite decide_True by lia.
  replace (Z.to_nat _) with (length l + 0)%nat by lia.
  by rewrite lookup_app_r, Nat.add_sub' by lia.
Qed.

Lemma elem_of_sorted_set l d : d ∈ Py.sorted_set l ↔ d ∈ l.
Proof.
  unfold Py.sorted_set. rewrite merge_sort_Permutation.
  rewrite elem_of_elements. apply elem_of_list_to_set.
Qed.

Lemma NoDup_sorted_set l : NoDup (Py.sorted_set l).
Proof.
  unfold Py.sorted_set. rewrite merge_sort_Permutation. apply NoDup_elements.
Qed.

Lemma Sorted_sorted_set l : Sorted Z.le (Py.sorted_set l).
Proof. apply (Sorted_merge_sort Z.le). Qed.

Lemma sorted_set_nil l : Py.sorted_set l = [] ↔ l = [].
Proof.
  split.
  - intros E. destruct l as [|x l]; [done|].
    assert (x ∈ Py.sorted_set (x :: l)) as Hx
      by (apply elem_of_sorted_set; left).
    rewrite E in Hx. by apply elem_of_nil in Hx.
  - intros ->. reflexivity.
Qed.

(** [sorted(set(l))] is one item [d] exactly when [l] is not empty and all
    its items are [d]. *)
Lemma sorted_set_singleton l d :
  Py.sorted_set l = [d] ↔ l ≠ [] ∧ ∀ x, x ∈ l → x = d.
Proof.
  split.
  - intros E. split.
    + intros ->. discriminate E.
    + intros x Hx. apply elem_of_sorted_set in Hx. rewrite E in Hx.
      by apply list_elem_of_singleton in Hx.
  - intros [Hne Hall].
    pose proof (NoDup_sorted_set l) as Hnd.
    assert (∀ x, x ∈ Py.sorted_set l → x = d) as Hall'
      by (intros x Hx; apply Hall; by apply elem_of_sorted_set).
    destruct (Py.sorted_set l) as [|a [|b t]] eqn:E.
    + exfalso. by apply Hne, sorted_set_nil.
    + f_equal. apply Hall'. left.
    + exfalso. apply NoDup_cons in Hnd as [Hnotin _]. apply Hnotin.
      rewrite (Hall' a), (Hall' b); [left | right; left | left].
Qed.

Lemma sorted_set_length_1 l :
  length (Py.sorted_set l) = 1%nat ↔ ∃ d, Py.sorted_set l = [d].
Proof.
  split.
  - destruct (Py.sorted_set l) as [|a [|b t]]; try discriminate. eauto.
  - intros [d ->]. reflexivity.
Qed.

(** ** [np.diff] *)

Lemma diff_cons x y t : Np.diff (x :: y :: t) = (y - x) :: Np.diff (y :: t).
Proof. reflexivity. Qed.

Lemma length_diff a : length (Np.diff a) = (length a - 1)%nat.
Proof.
  induction a as [|x [|y t] IH]; [done..|].
  rewrite diff_cons. simpl in *. lia.
Qed.

Lemma diff_lookup a i d :
  Np.diff a !! i = Some d ↔
  ∃ x y, a !! i = Some x ∧ a !! S i = Some y ∧ d = y - x.
Proof.
  revert i. induction a as [|x [|y t] IH]; intros i.
  - split; [done | by intros (? & ? & ? & _)].
  - split; [done|]. intros (? & ? & _ & Hy & _). by destruct i.
  - rewrite diff_cons. destruct i as [|i].
    + simpl. split.
      * intros [= <-]. eauto.
      * intros (? & ? & [= <-] & [= <-] & ->). done.
    + change ((y - x :: Np.diff (y :: t)) !! S i) with (Np.diff (y :: t) !! i).
      rewrite IH. reflexivity.
Qed.

Lemma elem_of_diff a d :
  d ∈ Np.diff a ↔
  ∃ i x y, a !! i = Some x ∧ a !! S i = Some y ∧ d = y - x.
Proof.
  rewrite list_elem_of_lookup. split.
  - intros [i Hi]. exists i. by apply diff_lookup.
  - intros (i & x & y & Hx). exists i. apply diff_lookup. eauto.
Qed.

Lemma diff_nil a : Np.diff a = [] ↔ (length a ≤ 1)%nat.
Proof.
  rewrite <-length_zero_iff_nil, length_diff. lia.
Qed.

(** A list whose consecutive differences are all [s]. *)
Lemma diff_uniform_lookup a s i x :
  (∀ d, d ∈ Np.diff a → d = s) → a !! 0%nat = Some x →
  (i < length a)%nat → a !! i = Some (x + Z.of_nat i * s).
Proof.
  intros Hall H0. induction i as [|i IH]; intros Hi.
  - rewrite H0. f_equal. lia.
  - destruct (lookup_lt_is_Some_2 a (S i) Hi) as [y Hy].
    rewrite Hy. f_equal.
    assert (y - (x + Z.of_nat i * s) = s) as E; [|lia].
    apply Hall, elem_of_diff. exists i, (x + Z.of_nat i * s), y.
    split_and!; [apply IH; lia | done | done].
Qed.

Lemma diff_snoc a x y :
  last a = Some x → Np.diff (a ++ [y]) = Np.diff a ++ [y - x].
Proof.
  induction a as [|u [|v t] IH]; intros Hl.
  - done.
  - simpl in Hl. by injection Hl as ->.
  - rewrite last_cons_cons in Hl.
    change ((u :: v :: t) ++ [y]) with (u :: v :: (t ++ [y])).
    rewrite !diff_cons. simpl. f_equal. by apply IH.
Qed.

Lemma Sorted_lt_NoDup (a : list Z) : Sorted Z.lt a → NoDup a.
Proof.
  intros Hlt%Sorted_StronglySorted; [|intros ???; lia].
  induction Hlt as [|u l _ IH Hall]; constructor; [|done].
  intros Hin. rewrite Forall_forall in Hall. specialize (Hall _ Hin). lia.
Qed.

Lemma Sorted_le_last (a : list Z) l x :
  Sorted Z.le a → last a = Some l → x ∈ a → x ≤ l.
Proof.
  intros Hs%Sorted_StronglySorted; [|intros ???; lia].
  intros (a' & ->)%last_Some [Hx|Hx%list_elem_of_singleton]%elem_of_app; [|lia].
  apply (StronglySorted_app_1_elem_of _ _ _ _ _ Hs Hx). left.
Qed.

Lemma eq_reflexive_perm {A} (l k : list A) : l = k → l ≡ₚ k.
Proof. by intros ->. Qed.

Lemma filter_fst {A} (P : Z → Prop) `{!∀ e, Decision (P e)}
    (l : list (Z * A)) :
  (filter (λ r, P r.1) l).*1 = filter P l.*1.
Proof.
  induction l as [|[e v] l IH]; [done|].
  rewrite fmap_cons, !filter_cons. cbn [fst].
  destruct (decide (P e)); by rewrite ?fmap_cons, IH.
Qed.

Lemma filter_iff_elem_of {A} (P Q : A → Prop)
    `{!∀ x, Decision (P x), !∀ x, Decision (Q x)} (l : list A) :
  (∀ x, x ∈ l → P x ↔ Q x) → filter P l = filter Q l.
Proof.
  induction l as [|x l IH]; intros HPQ; [done|].
  rewrite !filter_cons.
  rewrite IH by (intros y Hy; apply HPQ; by right).
  pose proof (HPQ x ltac:(left)) as Hx.
  destruct (decide (P x)), (decide (Q x)); tauto || done.
Qed.

(** ** The grid builder *)

Section grid_builder.
Context {V : Type} `{Float V}.
Implicit Types db : Db.Store V.

Lemma sql_min_Some l m :
  Db.sql_min l = Some m ↔ m ∈ l ∧ ∀ e, e ∈ l → m ≤ e.
Proof.
  destruct l as [|x l]; simpl.
  - split; [done | intros [Hin _]; by apply elem_of_nil in Hin].
  - assert (foldr Z.min x l ∈ x :: l ∧ ∀ e, e ∈ x :: l → foldr Z.min x l ≤ e)
      as [Hin Hle].
    { induction l as [|y l [IHin IHle]]; cbn [foldr].
      - split; [left|]. intros e ->%list_elem_of_singleton. lia.
      - split.
        + destruct (Z.min_spec y (foldr Z.min x l)) as [[_ ->]|[_ ->]].
          * right; left.
          * apply elem_of_cons in IHin as [E|?];
              [rewrite E; left | right; by right].
        + intros e He.
          apply elem_of_cons in He as [->|He].
          { specialize (IHle x ltac:(left)). lia. }
          apply elem_of_cons in He as [->|He]; [lia|].
          specialize (IHle e ltac:(by right)). lia. }
    split.
    + intros [= <-]. done.
    + intros [Hm Hall]. f_equal.
      specialize (Hall _ Hin). specialize (Hle _ Hm). lia.
Qed.

Lemma sql_max_Some l m :
  Db.sql_max l = Some m ↔ m ∈ l ∧ ∀ e, e ∈ l → e ≤ m.
Proof.
  destruct l as [|x l]; simpl.
  - split; [done | intros [Hin _]; by apply elem_of_nil in Hin].
  - assert (foldr Z.max x l ∈ x :: l ∧ ∀ e, e ∈ x :: l → e ≤ foldr Z.max x l)
      as [Hin Hle].
    { induction l as [|y l [IHin IHle]]; cbn [foldr].
      - split; [left|]. intros e ->%list_elem_of_singleton. lia.
      - split.
        + destruct (Z.max_spec y (foldr Z.max x l)) as [[_ ->]|[_ ->]].
          * apply elem_of_cons in IHin as [E|?];
              [rewrite E; left | right; by right].
          * right; left.
        + intros e He.
          apply elem_of_cons in He as [->|He].
          { specialize (IHle x ltac:(left)). lia. }
          apply elem_of_cons in He as [->|He]; [lia|].
          specialize (IHle e ltac:(by right)). lia. }
    split.
    + intros [= <-]. done.
    + intros [Hm Hall]. f_equal.
      specialize (Hall _ Hin). specialize (Hle _ Hm). lia.
Qed.

Lemma Sorted_overlap_epochs db : Sorted Z.le (Db.overlap_epochs db).
Proof. apply (Sorted_merge_sort Z.le). Qed.

(** The query returns the staged rainfall epochs between the least and
    the greatest staged water-level epoch, each as often as it is
    staged. *)
Lemma overlap_epochs_Permutation db min_w max_w :
  Db.sql_min (Db.water_level_staging db).*1 = Some min_w →
  Db.sql_max (Db.water_level_staging db).*1 = Some max_w →
  Db.overlap_epochs db ≡ₚ
    filter (λ e, min_w ≤ e ∧ e ≤ max_w) (Db.rainfall_intensity_staging db).*1.
Proof.
  intros Hmin Hmax. unfold Db.overlap_epochs. rewrite Hmin, Hmax.
  apply merge_sort_Permutation.
Qed.

Lemma overlap_epochs_no_water db :
  Db.water_level_staging db = [] → Db.overlap_epochs db = [].
Proof. intros E. unfold Db.overlap_epochs. by rewrite E. Qed.

Lemma overlap_epochs_nonempty db :
  Db.overlap_epochs db ≠ [] →
  ∃ min_w max_w,
    Db.sql_min (Db.water_level_staging db).*1 = Some min_w ∧
    Db.sql_max (Db.water_level_staging db).*1 = Some max_w.
Proof.
  unfold Db.overlap_epochs.
  destruct (Db.water_level_staging db).*1 as [|x l]; simpl; [done|eauto].
Qed.

(** [populate_grid_time] returns exactly when the distinct differences of
    the candidate epochs are one value, and then with that step and the
    candidates closed by one more point. *)
Lemma populate_grid_time_Ok db time_grid time_step db' :
  Load.populate_grid_time db = Db.Ok (time_grid, time_step) db' ↔
  ∃ last_epoch,
    Py.sorted_set (Np.diff (Db.overlap_epochs db)) = [time_step] ∧
    last (Db.overlap_epochs db) = Some last_epoch ∧
    time_grid = Db.overlap_epochs db ++ [last_epoch + time_step] ∧
    db' = Db.with_grid db time_step time_grid.
Proof.
  unfold Load.populate_grid_time, Db.bind, Db.select_overlap_epochs.
  set (cand := Db.overlap_epochs db).
  destruct (decide (length (Py.sorted_set (Np.diff cand)) ≠ 1%nat)) as [Hn|Hn].
  - split; [done|]. intros (? & E & _). by rewrite E in Hn.
  - apply dec_stable, sorted_set_length_1 in Hn as [d Hd].
    rewrite Hd, index_0. simpl. rewrite index_last.
    destruct (last cand) as [l|] eqn:Hl.
    + simpl. split.
      * intros [= <- <- <-]. by exists l.
      * intros (? & [= <-] & [= <-] & -> & ->). done.
    + exfalso. apply last_None in Hl. by rewrite Hl in Hd.
Qed.

(** Otherwise it raises the ValueError with the sorted distinct
    differences and leaves the database as it was. *)
Lemma populate_grid_time_Raise db :
  length (Py.sorted_set (Np.diff (Db.overlap_epochs db))) ≠ 1%nat →
  Load.populate_grid_time db =
    Db.Raise (NonuniformTimeSteps
                (Py.sorted_set (Np.diff (Db.overlap_epochs db)))) db.
Proof.
  intros Hn.
  unfold Load.populate_grid_time, Db.bind, Db.select_overlap_epochs.
  by rewrite decide_True.
Qed.

(** It succeeds on two candidate epochs or more that are evenly spaced. *)
Lemma populate_grid_time_succeeds db time_step :
  (2 ≤ length (Db.overlap_epochs db))%nat →
  (∀ d, d ∈ Np.diff (Db.overlap_epochs db) → d = time_step) →
  ∃ last_epoch,
    last (Db.overlap_epochs db) = Some last_epoch ∧
    Load.populate_grid_time db =
      Db.Ok (Db.overlap_epochs db ++ [last_epoch + time_step], time_step)
            (Db.with_grid db time_step
               (Db.overlap_epochs db ++ [last_epoch + time_step])).
Proof.
  intros Hlen Hall.
  destruct (last (Db.overlap_epochs db)) as [l|] eqn:Hl.
  - exists l. split; [done|]. apply populate_grid_time_Ok. exists l.
    split_and!; try done. apply sorted_set_singleton. split; [|done].
    intros E%diff_nil. lia.
  - apply last_None in Hl. rewrite Hl in Hlen. simpl in Hlen. lia.
Qed.

End grid_builder.

(** ** Evenly spaced lists *)

Lemma evenly_spaced_diff a s :
  evenly_spaced a s ↔ ∀ d, d ∈ Np.diff a → d = s.
Proof.
  split.
  - intros Hs d (i & x & y & Hx & Hy & ->)%elem_of_diff. eauto.
  - intros Hall i x y Hx Hy. apply Hall, elem_of_diff. eauto 6.
Qed.

Lemma evenly_spaced_tail x a s : evenly_spaced (x :: a) s → evenly_spaced a s.
Proof. intros Hs i u v Hu Hv. by apply (Hs (S i)). Qed.

Lemma evenly_spaced_Sorted (R : relation Z) a s :
  (∀ x, R x (x + s)) → evenly_spaced a s → Sorted R a.
Proof.
  intros HR. induction a as [|x a IH]; intros Hs; [constructor|].
  constructor.
  - eapply IH, evenly_spaced_tail, Hs.
  - destruct a as [|y a]; constructor.
    replace y with (x + s); [apply HR|].
    specialize (Hs 0%nat x y eq_refl eq_refl). lia.
Qed.

Lemma evenly_spaced_snoc a s x :
  evenly_spaced a s → last a = Some x → evenly_spaced (a ++ [x + s]) s.
Proof.
  intros Hs Hl. apply evenly_spaced_diff. intros d.
  rewrite (diff_snoc _ x) by done. rewrite elem_of_app.
  intros [Hd|Hd%list_elem_of_singleton]; [|lia].
  revert d Hd. by apply evenly_spaced_diff.
Qed.

Lemma Sorted_le_diff a d : Sorted Z.le a → d ∈ Np.diff a → 0 ≤ d.
Proof.
  intros Hs%Sorted_StronglySorted; [|intros ???; lia].
  intros (i & x & y & Hx & Hy & ->)%elem_of_diff.
  apply (take_drop_middle _ _ _) in Hx as Ha.
  rewrite <-Ha in Hs. apply StronglySorted_app_1_r in Hs.
  apply StronglySorted_inv in Hs as [_ Hall].
  rewrite Forall_forall in Hall.
  assert (x ≤ y); [|lia]. apply Hall.
  apply list_elem_of_lookup. exists 0%nat.
  rewrite lookup_drop. by replace (S i + 0)%nat with (S i) by lia.
Qed.

(** An ascending, evenly spaced list of two items or more has a step that
    is positive exactly when no item repeats. *)
Lemma evenly_spaced_step_pos a s :
  Sorted Z.le a → evenly_spaced a s → (2 ≤ length a)%nat →
  0 ≤ s ∧ (0 < s ↔ NoDup a).
Proof.
  intros Hsorted Hs Hlen.
  destruct a as [|x [|y a]]; simpl in Hlen; [lia..|].
  pose proof (Hs 0%nat x y eq_refl eq_refl) as Hxy.
  assert (0 ≤ s) as Hge.
  { apply (Sorted_le_diff (x :: y :: a)); [done|].
    rewrite diff_cons. rewrite Hxy. left. }
  split; [done|]. split.
  - intros Hpos.
    apply Sorted_lt_NoDup.
    apply (evenly_spaced_Sorted _ _ s); [intros; lia | done].
  - intros Hnd. apply NoDup_cons in Hnd as [Hnotin _].
    assert (y ≠ x) by (intros ->; apply Hnotin; left). lia.
Qed.

(** ** The grid *)

Section grid.
Context {V : Type} `{Float V}.
Implicit Types db : Db.Store V.

(** On success the candidates are two or more, evenly spaced by the step
    returned. *)
Lemma populate_grid_time_candidates db time_grid time_step db' :
  Load.populate_grid_time db = Db.Ok (time_grid, time_step) db' →
  evenly_spaced (Db.overlap_epochs db) time_step ∧
  (2 ≤ length (Db.overlap_epochs db))%nat.
Proof.
  intros (l & Hd & _)%populate_grid_time_Ok.
  apply sorted_set_singleton in Hd as [Hne Hall]. split.
  - by apply evenly_spaced_diff.
  - apply dec_stable. intros Hlen. apply Hne, diff_nil. lia.
Qed.

(** C3.  When the grid builder succeeds with a step, the candidate grid
    is the staged rainfall epochs [e] with [min_w <= e <= max_w], where
    [min_w] and [max_w] are the least and the greatest staged water-level
    epoch, in ascending order; the grid returned is the candidate grid with
    the one point [candidate_grid[-1] + step] appended; and its length is one
    more than the count of rainfall epochs within the window. *)
Theorem grid_is_closed_candidates db time_grid time_step db' :
  Load.populate_grid_time db = Db.Ok (time_grid, time_step) db' →
  ∃ candidate_grid min_w max_w last_epoch,
    (min_w ∈ (Db.water_level_staging db).*1 ∧
     ∀ e, e ∈ (Db.water_level_staging db).*1 → min_w ≤ e) ∧
    (max_w ∈ (Db.water_level_staging db).*1 ∧
     ∀ e, e ∈ (Db.water_level_staging db).*1 → e ≤ max_w) ∧
    Sorted Z.le candidate_grid ∧
    candidate_grid ≡ₚ
      filter (λ e, min_w ≤ e ∧ e ≤ max_w)
             (Db.rainfall_intensity_staging db).*1 ∧
    Py.index candidate_grid (-1) = Some last_epoch ∧
    time_grid = candidate_grid ++ [last_epoch + time_step] ∧
    length time_grid =
      S (length (filter (λ e, min_w ≤ e ∧ e ≤ max_w)
                        (Db.rainfall_intensity_staging db).*1)) ∧
    Db.grid_time db' = Db.grid_time db ++ time_grid ∧
    Db.time_grid db' = Db.time_grid db ++ [time_step].
Proof.
  intros Hok.
  pose proof (populate_grid_time_candidates _ _ _ _ Hok) as [_ Hlen].
  apply populate_grid_time_Ok in Hok as (l & Hd & Hl & -> & ->).
  destruct (overlap_epochs_nonempty db) as (min_w & max_w & Hmin & Hmax).
  { intros E. rewrite E in Hlen. simpl in Hlen. lia. }
  pose proof (overlap_epochs_Permutation db _ _ Hmin Hmax) as Hperm.
  exists (Db.overlap_epochs db), min_w, max_w, l.
  apply sql_min_Some in Hmin as [??]. apply sql_max_Some in Hmax as [??].
  split_and!; try done.
  - apply Sorted_overlap_epochs.
  - by rewrite index_last.
  - rewrite length_app, Hperm. simpl. lia.
Qed.

(** C2.  When two consecutive differences of the candidate grid differ,
    the grid builder raises the ValueError for nonuniform time steps, which
    names the sorted distinct differences, both of them among these; it
    writes no step and no grid, and the run stops there. *)
Theorem nonuniform_time_step_raises db i j a b c d :
  Db.overlap_epochs db !! i = Some a →
  Db.overlap_epochs db !! S i = Some b →
  Db.overlap_epochs db !! j = Some c →
  Db.overlap_epochs db !! S j = Some d →
  b - a ≠ d - c →
  let delta_t := Py.sorted_set (Np.diff (Db.overlap_epochs db)) in
  Load.populate_grid_time db = Db.Raise (NonuniformTimeSteps delta_t) db ∧
  Load.align db = Db.Raise (NonuniformTimeSteps delta_t) db ∧
  b - a ∈ delta_t ∧ d - c ∈ delta_t ∧ (2 ≤ length delta_t)%nat ∧
  ∀ x, x ∈ delta_t ↔ x ∈ Np.diff (Db.overlap_epochs db).
Proof.
  intros Ha Hb Hc Hd Hne delta_t.
  assert (b - a ∈ delta_t) as Hba
    by (apply elem_of_sorted_set, elem_of_diff; eauto 6).
  assert (d - c ∈ delta_t) as Hdc
    by (apply elem_of_sorted_set, elem_of_diff; eauto 6).
  assert (2 ≤ length delta_t)%nat as Hlen.
  { destruct delta_t as [|u [|v t]]; simpl; [| |lia].
    - by apply elem_of_nil in Hba.
    - apply list_elem_of_singleton in Hba, Hdc. congruence. }
  assert (Load.populate_grid_time db =
          Db.Raise (NonuniformTimeSteps delta_t) db) as Hraise
    by (apply populate_grid_time_Raise; fold delta_t; lia).
  split_and!; try done.
  - unfold Load.align, Db.bind. by rewrite Hraise.
  - intros x. apply elem_of_sorted_set.
Qed.

(** C10.  When the candidate grid is empty or one epoch, the set of
    differences is empty and the grid builder raises the same ValueError
    as for nonuniform time steps, naming the empty set; the run stops
    before any grid, rainfall interval or water level is written. *)
Theorem short_candidate_grid_raises db :
  (length (Db.overlap_epochs db) ≤ 1)%nat →
  Load.populate_grid_time db = Db.Raise (NonuniformTimeSteps []) db ∧
  Load.align db = Db.Raise (NonuniformTimeSteps []) db.
Proof.
  intros Hlen%diff_nil.
  assert (Load.populate_grid_time db = Db.Raise (NonuniformTimeSteps []) db)
    as Hraise.
  { rewrite populate_grid_time_Raise; rewrite Hlen; [done|].
    rewrite (proj2 (sorted_set_nil [])); done. }
  split; [done|]. unfold Load.align, Db.bind. by rewrite Hraise.
Qed.

(** The spacing of a grid returned: consecutive epochs differ by the
    step, which is not negative, and is positive exactly when no candidate
    epoch repeats. *)
Lemma populate_grid_time_spacing db time_grid time_step db' :
  Load.populate_grid_time db = Db.Ok (time_grid, time_step) db' →
  evenly_spaced time_grid time_step ∧
  0 ≤ time_step ∧
  Sorted Z.le time_grid ∧
  (0 < time_step ↔ NoDup (Db.overlap_epochs db)) ∧
  (0 < time_step → Sorted Z.lt time_grid).
Proof.
  intros Hok.
  pose proof (populate_grid_time_candidates _ _ _ _ Hok) as [Hs Hlen].
  apply populate_grid_time_Ok in Hok as (l & Hd & Hl & -> & ->).
  pose proof (evenly_spaced_step_pos _ _ (Sorted_overlap_epochs db) Hs Hlen)
    as [Hge Hpos].
  pose proof (evenly_spaced_snoc _ _ _ Hs Hl) as Hs'.
  split_and!; try done.
  - apply (evenly_spaced_Sorted _ _ time_step); [intros; lia | done].
  - intros Hlt. apply (evenly_spaced_Sorted _ _ time_step); [intros; lia | done].
Qed.

End grid.

(** ** Rainfall on the grid *)

Section rainfall.
Context {V : Type} `{Float V}.
Implicit Types db : Db.Store V.

(** The rows the join selects: a staged sample at an epoch that is in
    grid_time and not above the bound, with the step added for the end. *)
Lemma elem_of_join_rainfall_on_grid time_step bound db from thru v :
  (from, thru, v) ∈ Db.join_rainfall_on_grid time_step bound db ↔
  (from, v) ∈ Db.rainfall_intensity_staging db ∧
  from ∈ Db.grid_time db ∧ from ≤ bound ∧ thru = from + time_step.
Proof.
  unfold Db.join_rainfall_on_grid. rewrite list_elem_of_bind. split.
  - intros ([e w] & Hin & He). apply list_elem_of_bind in Hin as (gt & Hin & Hgt).
    destruct (decide (gt = e ∧ e ≤ bound)) as [[-> Hle]|]; [|by apply elem_of_nil in Hin].
    apply list_elem_of_singleton in Hin as [= -> -> ->]. done.
  - intros (Hin & Hgt & Hle & ->). exists (from, v). split; [|done].
    apply list_elem_of_bind. exists from. split; [|done].
    rewrite decide_True by done. left.
Qed.

(** With no epoch twice in grid_time, a staged sample gives one row or
    none. *)
Lemma join_one_row (g : list Z) e (P : Prop) `{Decision P} (r : Z * Z * V) :
  NoDup g →
  (g ≫= λ gt, if decide (gt = e ∧ P) then [r] else []) =
  if decide (e ∈ g ∧ P) then [r] else [].
Proof.
  induction g as [|x g IH]; intros Hnd.
  - rewrite decide_False; [done|]. intros [[]%elem_of_nil _].
  - apply NoDup_cons in Hnd as [Hx Hnd]. rewrite bind_cons, IH by done.
    destruct (decide (x = e ∧ P)) as [[-> HP]|Hn].
    + rewrite (decide_False (P:=e ∈ g ∧ P)) by (intros [? _]; done).
      rewrite decide_True; [done|]. split; [left|done].
    + simpl. destruct (decide (e ∈ g ∧ P)) as [[Hin HP]|Hn'].
      * rewrite decide_True; [done|]. split; [by right|done].
      * rewrite decide_False; [done|]. intros [[->|Hin]%elem_of_cons HP]; tauto.
Qed.

Lemma join_rainfall_on_grid_NoDup time_step bound db :
  NoDup (Db.grid_time db) →
  Db.join_rainfall_on_grid time_step bound db =
  (λ r, (r.1, r.1 + time_step, r.2)) <$>
    filter (λ r, r.1 ∈ Db.grid_time db ∧ r.1 ≤ bound)
           (Db.rainfall_intensity_staging db).
Proof.
  intros Hnd. unfold Db.join_rainfall_on_grid.
  induction (Db.rainfall_intensity_staging db) as [|[e v] rain IH]; [done|].
  rewrite bind_cons, IH, filter_cons. simpl.
  rewrite (join_one_row _ e (e ≤ bound)) by done.
  by destruct (decide (e ∈ Db.grid_time db ∧ e ≤ bound)).
Qed.

(** [populate_rainfall_intensity] after [populate_grid_time]: the bound is
    the last candidate. *)
Lemma populate_rainfall_intensity_after_grid db time_grid time_step db1 :
  Load.populate_grid_time db = Db.Ok (time_grid, time_step) db1 →
  ∃ bound,
    last (Db.overlap_epochs db) = Some bound ∧
    Py.index time_grid (-2) = Some bound ∧
    time_grid = Db.overlap_epochs db ++ [bound + time_step] ∧
    db1 = Db.with_grid db time_step time_grid ∧
    Load.populate_rainfall_intensity time_grid time_step db1 =
      Db.insert_rainfall_intensity time_step bound db1.
Proof.
  intros (l & Hd & Hl & -> & ->)%populate_grid_time_Ok.
  exists l.
  assert (Py.index (Db.overlap_epochs db ++ [l + time_step]) (-2) = Some l)
    as Hidx.
  { destruct (Db.overlap_epochs db) as [|x c] using rev_ind; [done|].
    rewrite last_snoc in Hl. injection Hl as ->.
    rewrite <-(assoc_L (++)). apply index_penultimate. }
  split_and!; try done.
  unfold Load.populate_rainfall_intensity, Db.bind. by rewrite Hidx.
Qed.

(** C4.  After the grid is built on fresh tables, the rainfall table
    holds the row [(epoch, epoch + step, intensity)] exactly for the staged
    samples whose epoch is a grid point and at most the grid's
    second-to-last point; a sample at any other epoch gives no row. *)
Theorem rainfall_binned_by_exact_match db time_grid time_step db1 :
  Db.grid_time db = [] → Db.rainfall_intensity db = [] →
  Load.populate_grid_time db = Db.Ok (time_grid, time_step) db1 →
  ∃ db2 bound,
    Load.populate_rainfall_intensity time_grid time_step db1 = Db.Ok () db2 ∧
    Py.index time_grid (-2) = Some bound ∧
    ∀ from thru intensity,
      (from, thru, intensity) ∈ Db.rainfall_intensity db2 ↔
      (from, intensity) ∈ Db.rainfall_intensity_staging db ∧
      thru = from + time_step ∧
      from ∈ time_grid ∧ from ≤ bound.
Proof.
  intros Hg Hr Hok.
  destruct (populate_rainfall_intensity_after_grid _ _ _ _ Hok)
    as (bound & Hl & Hidx & Hgrid & -> & ->).
  eexists _, bound. split_and!; [reflexivity | done |].
  intros from thru v. simpl. rewrite Hr. simpl.
  rewrite elem_of_join_rainfall_on_grid. simpl. rewrite Hg. simpl. tauto.
Qed.

End rainfall.

Section tiling.
Context {V : Type} `{Float V}.
Implicit Types db : Db.Store V.

Lemma evenly_spaced_0 a l x :
  evenly_spaced a 0 → last a = Some l → x ∈ a → x = l.
Proof.
  intros Hs Hl Hx.
  destruct a as [|a0 a]; [done|].
  assert (∀ y, y ∈ a0 :: a → y = a0) as Hall.
  { intros y (i & Hi)%list_elem_of_lookup.
    rewrite (diff_uniform_lookup _ 0 i a0) in Hi.
    - injection Hi as <-. lia.
    - by apply evenly_spaced_diff.
    - done.
    - by apply lookup_lt_Some in Hi. }
  rewrite (Hall x Hx). symmetry. apply Hall.
  by apply last_Some_elem_of.
Qed.

(** The rows of the join, for a grid built on fresh tables with a positive
    step: the staged samples inside the window, in staging order. *)
Lemma join_from_epochs db time_grid time_step db1 bound :
  Db.grid_time db = [] →
  Load.populate_grid_time db = Db.Ok (time_grid, time_step) db1 →
  last (Db.overlap_epochs db) = Some bound →
  0 < time_step →
  Db.from_epoch <$> Db.join_rainfall_on_grid time_step bound db1
    ≡ₚ Db.overlap_epochs db.
Proof.
  intros Hg Hok Hl Hpos.
  pose proof (populate_grid_time_spacing _ _ _ _ Hok) as (_ & _ & _ & _ & Hlt).
  pose proof (populate_grid_time_candidates _ _ _ _ Hok) as [_ Hlen].
  apply populate_grid_time_Ok in Hok as (l & Hd & Hl' & -> & ->).
  assert (l = bound) as -> by congruence. clear Hl'.
  specialize (Hlt Hpos).
  set (grid := Db.overlap_epochs db ++ [bound + time_step]) in *.
  rewrite join_rainfall_on_grid_NoDup
    by (simpl; rewrite Hg; by apply Sorted_lt_NoDup).
  simpl. rewrite Hg. simpl.
  rewrite <-list_fmap_compose.
  change (Db.from_epoch ∘ _) with (fst : Z * V → Z).
  pose proof (filter_fst (λ e, e ∈ grid ∧ e ≤ bound)
                (Db.rainfall_intensity_staging db)) as ->.
  destruct (overlap_epochs_nonempty db) as (min_w & max_w & Hmin & Hmax).
  { intros E. rewrite E in Hlen. simpl in Hlen. lia. }
  pose proof (overlap_epochs_Permutation db _ _ Hmin Hmax) as Hperm.
  rewrite Hperm. apply eq_reflexive_perm, filter_iff_elem_of.
  intros e He. split.
  - intros [[Hin|Hin%list_elem_of_singleton]%elem_of_app Hle]; [|lia].
    rewrite Hperm in Hin. by apply list_elem_of_filter in Hin as [? _].
  - intros Hw.
    assert (e ∈ Db.overlap_epochs db) as Hin
      by (rewrite Hperm; by apply list_elem_of_filter).
    split; [apply elem_of_app; by left|].
    by apply (Sorted_le_last _ _ _ (Sorted_overlap_epochs db)).
Qed.

(** C7.  After a successful run on fresh tables, the rainfall rows taken
    in the order of their from_epoch tile the grid: the first row starts at
    [grid[0]], every row ends where the next one starts, the last row ends
    at [grid[-2] + step], and every row spans one step from a grid
    point. *)
Theorem rainfall_intervals_tile db time_grid time_step db1 db2 rows :
  Db.grid_time db = [] → Db.rainfall_intensity db = [] →
  Load.populate_grid_time db = Db.Ok (time_grid, time_step) db1 →
  Load.populate_rainfall_intensity time_grid time_step db1 = Db.Ok () db2 →
  rows ≡ₚ Db.rainfall_intensity db2 →
  Sorted (λ r r', Db.from_epoch r ≤ Db.from_epoch r') rows →
  ∃ first_row last_row g0 bound,
    head rows = Some first_row ∧ last rows = Some last_row ∧
    Py.index time_grid 0 = Some g0 ∧ Py.index time_grid (-2) = Some bound ∧
    Db.from_epoch first_row = g0 ∧
    Db.thru_epoch last_row = bound + time_step ∧
    (∀ i r r', rows !! i = Some r → rows !! S i = Some r' →
               Db.thru_epoch r = Db.from_epoch r') ∧
    (∀ r, r ∈ rows →
          Db.thru_epoch r = Db.from_epoch r + time_step ∧
          Db.from_epoch r ∈ time_grid).
Proof.
  intros Hg Hr Hok Hpop Hperm Hsorted.
  pose proof (populate_grid_time_spacing _ _ _ _ Hok) as (_ & Hge & _ & _ & _).
  pose proof (populate_grid_time_candidates _ _ _ _ Hok) as [Hs Hlen].
  destruct (populate_rainfall_intensity_after_grid _ _ _ _ Hok)
    as (bound & Hl & Hidx & Hgrid & -> & Hpop').
  rewrite Hpop' in Hpop. injection Hpop as <-. simpl in Hperm.
  rewrite Hr in Hperm. simpl in Hperm.
  set (cand := Db.overlap_epochs db) in *.
  (* every row spans one step from a candidate epoch *)
  assert (∀ r, r ∈ rows →
            Db.thru_epoch r = Db.from_epoch r + time_step ∧
            Db.from_epoch r ∈ cand) as Hrows.
  { intros [[f t] v] Hin. rewrite Hperm in Hin.
    apply elem_of_join_rainfall_on_grid in Hin as (_ & Hgt & Hle & ->).
    split; [done|]. simpl in Hgt.
    rewrite Hg, Hgrid in Hgt. simpl in Hgt.
    apply elem_of_app in Hgt as [?|Heq%list_elem_of_singleton]; [done|].
    unfold Db.from_epoch in *. simpl in *.
    assert (f = bound) as -> by lia. by apply last_Some_elem_of. }
  assert (∃ g0, head cand = Some g0) as [g0 Hg0].
  { destruct cand; [simpl in Hlen; lia | eauto]. }
  assert (Py.index time_grid 0 = Some g0) as Hidx0.
  { rewrite index_0, Hgrid. by destruct cand. }
  assert (Db.from_epoch <$> rows = cand ∨ time_step = 0) as [Hfrom | ->].
  { destruct (decide (time_step = 0)) as [|Hne]; [by right|left].
    apply (Sorted_unique Z.le).
    - eapply Sorted_fmap, Hsorted. done.
    - apply Sorted_overlap_epochs.
    - rewrite Hperm.
      eapply join_from_epochs; [done|exact Hok|done|lia]. }
  - (* a positive step: the rows start at the candidates, in order *)
    assert (∃ first_row, head rows = Some first_row) as [first_row Hfirst].
    { destruct rows; [by rewrite <-Hfrom in Hg0 | eauto]. }
    assert (∃ last_row, last rows = Some last_row) as [last_row Hlast].
    { destruct (last rows) eqn:E; [eauto|].
      apply last_None in E. by rewrite E in Hfirst. }
    exists first_row, last_row, g0, bound. split_and!; try done.
    + rewrite <-Hfrom in Hg0. destruct rows; simpl in *; congruence.
    + rewrite <-Hfrom, fmap_last, Hlast in Hl. injection Hl as <-.
      apply Hrows. by apply last_Some_elem_of.
    + intros i r r' Hi Hi'.
      destruct (Hrows r) as [-> _]; [by eapply list_elem_of_lookup_2|].
      assert (Db.from_epoch r' - Db.from_epoch r = time_step); [|lia].
      apply (Hs i); rewrite <-Hfrom, list_lookup_fmap.
      * by rewrite Hi.
      * by rewrite Hi'.
    + intros r Hin. destruct (Hrows r Hin) as [? Hc]. split; [done|].
      rewrite Hgrid. apply elem_of_app. by left.
  - (* step 0: every row starts and ends at the one candidate epoch *)
    assert (∀ x, x ∈ cand → x = bound) as Hall
      by (intros x; by apply evenly_spaced_0).
    assert (g0 = bound) as ->.
    { apply Hall. destruct cand; [done|]. injection Hg0 as ->. left. }
    assert (∀ r, r ∈ rows → Db.from_epoch r = bound ∧ Db.thru_epoch r = bound)
      as Hrows0.
    { intros r Hin. destruct (Hrows r Hin) as [-> Hc%Hall]. lia. }
    assert (rows ≠ []) as Hne.
    { destruct (overlap_epochs_nonempty db) as (min_w & max_w & Hmin & Hmax).
      { intros E. fold cand in E. by rewrite E in Hg0. }
      pose proof (overlap_epochs_Permutation db _ _ Hmin Hmax) as Hp.
      assert (bound ∈ cand) as Hb by (by apply last_Some_elem_of).
      unfold cand in Hb. rewrite Hp in Hb.
      apply list_elem_of_filter in Hb as [_ ([e v] & Hb & Hin)%list_elem_of_fmap].
      simpl in Hb. subst e.
      intros E. rewrite E in Hperm. symmetry in Hperm.
      apply Permutation_nil_r in Hperm. simpl in Hperm.
      assert ((bound, bound + 0, v)
                ∈ Db.join_rainfall_on_grid 0 bound (Db.with_grid db 0 time_grid))
        as Hrow.
      { apply elem_of_join_rainfall_on_grid. simpl.
        split_and!; [done| |lia|done].
        rewrite Hg, Hgrid. simpl. apply elem_of_app. left.
        by apply last_Some_elem_of. }
      rewrite Hperm in Hrow. by apply elem_of_nil in Hrow. }
    assert (∃ first_row, head rows = Some first_row) as [first_row Hfirst]
      by (destruct rows; [done | eauto]).
    assert (∃ last_row, last rows = Some last_row) as [last_row Hlast].
    { destruct (last rows) eqn:E; [eauto|]. by apply last_None in E. }
    exists first_row, last_row, bound, bound. split_and!; try done.
    + apply Hrows0. destruct rows; [done|]. injection Hfirst as ->. left.
    + destruct (Hrows0 last_row) as [_ ->]; [by apply last_Some_elem_of | lia].
    + intros i r r' Hi Hi'.
      destruct (Hrows0 r) as [_ ->]; [by eapply list_elem_of_lookup_2|].
      destruct (Hrows0 r') as [-> _]; [by eapply list_elem_of_lookup_2|done].
    + intros r Hin. destruct (Hrows r Hin) as [? Hc]. split; [done|].
      rewrite Hgrid. apply elem_of_app. by left.
Qed.

End tiling.

(** ** [np.interp] *)

Section interp.
Context {V : Type} `{Float V}.

(** The linear search stops at the first item above the key. *)
Lemma linear_search_stop key arr i n :
  (n ≤ length arr)%nat →
  (∀ m u, (m < n)%nat → arr !! m = Some u → u ≤ key) →
  (∀ u, arr !! n = Some u → key < u) →
  Np.linear_search key arr i = (i + n)%nat.
Proof.
  revert i n. induction arr as [|a t IH]; intros i n Hn Hle Hgt; simpl in *.
  - lia.
  - destruct n as [|n].
    + specialize (Hgt a eq_refl). rewrite decide_False by lia. lia.
    + specialize (Hle 0%nat a ltac:(lia) eq_refl) as Ha.
      rewrite decide_True by done.
      rewrite (IH (S i) n); [lia | lia | |].
      * intros m u Hm Hu. apply (Hle (S m)); [lia | done].
      * intros u Hu. by apply Hgt.
Qed.

Lemma linear_search_bound key arr i :
  (i ≤ Np.linear_search key arr i ≤ i + length arr)%nat.
Proof.
  revert i. induction arr as [|a t IH]; intros i; simpl; [lia|].
  destruct (decide (a ≤ key)); [|lia]. specialize (IH (S i)). lia.
Qed.

(** In an ascending array, items in index order are in value order. *)
Lemma Sorted_lt_lookup (xp : list Z) i j x y :
  Sorted Z.lt xp → xp !! i = Some x → xp !! j = Some y →
  (i < j)%nat → x < y.
Proof.
  intros Hs%Sorted_StronglySorted; [|intros ???; lia].
  intros Hi Hj Hij.
  apply (take_drop_middle _ _ _) in Hi as E. rewrite <-E in Hs.
  apply StronglySorted_app_1_r, StronglySorted_inv in Hs as [_ Hall].
  rewrite Forall_forall in Hall. apply Hall.
  apply list_elem_of_lookup. exists (j - S i)%nat.
  rewrite lookup_drop. by replace (S i + (j - S i))%nat with j by lia.
Qed.

(** The index the search returns for a key within an ascending array:
    the one of the last item not above the key. *)
Lemma binary_search_sorted (xp : list Z) j x0 key :
  Sorted Z.lt xp → xp !! j = Some x0 → x0 ≤ key →
  (∀ x1, xp !! S j = Some x1 → key < x1) →
  (∀ an, last xp = Some an → key ≤ an) →
  Np.binary_search_with_guess key xp = Z.of_nat j.
Proof.
  intros Hs Hj Hle Hnext Hlast. unfold Np.binary_search_with_guess.
  destruct xp as [|a0 t]; [done|].
  destruct (last (a0 :: t)) as [an|] eqn:Hl; [|by apply last_None in Hl].
  specialize (Hlast an eq_refl). rewrite decide_False by lia.
  assert (a0 ≤ x0) as Ha0.
  { destruct j as [|j]; [injection Hj as ->; lia|].
    assert (a0 < x0); [|lia].
    by apply (Sorted_lt_lookup (a0 :: t) 0 (S j)); [| | |lia]. }
  rewrite decide_False by lia.
  rewrite (linear_search_stop key t 1 j).
  - lia.
  - apply lookup_lt_Some in Hj. simpl in Hj. lia.
  - intros m u Hm Hu.
    destruct (decide (S m = j)) as [<-|Hne].
    + simpl in Hj. congruence.
    + assert (u < x0); [|lia].
      by apply (Sorted_lt_lookup (a0 :: t) (S m) j); [| | |lia].
  - intros u Hu. by apply Hnext.
Qed.

(** At a knot of an ascending series the interpolation is the staged
    value itself. *)
Lemma interp_at_knot xp (fp : list V) k x y :
  Sorted Z.lt xp → length xp = length fp →
  xp !! k = Some x → fp !! k = Some y →
  Np.interp_at xp fp x = Some y.
Proof.
  intros Hs Hlen Hx Hy. unfold Np.interp_at.
  destruct (decide (Z.of_nat (length xp) = 1)) as [H1|H1].
  - destruct xp as [|a [|??]]; simpl in H1; try lia.
    destruct k; [|done]. simpl in *. injection Hx as ->.
    by rewrite !decide_False by lia.
  - assert (Np.binary_search_with_guess x xp = Z.of_nat k) as ->.
    { apply (binary_search_sorted _ _ x); [done..|lia| |].
      - intros x1 Hx1. by apply (Sorted_lt_lookup xp k (S k)); [| | |lia].
      - intros an Hl. rewrite last_lookup in Hl.
        apply lookup_lt_Some in Hx as Hk.
        destruct (decide (k = pred (length xp))) as [->|Hne].
        { assert (x = an) by congruence. lia. }
        assert (x < an); [|lia].
        by apply (Sorted_lt_lookup xp k (pred (length xp))); [| | |lia]. }
    apply lookup_lt_Some in Hx as Hk.
    rewrite decide_False by lia. rewrite decide_False by lia.
    rewrite Nat2Z.id.
    destruct (decide (Z.of_nat k = Z.of_nat (length xp) - 1)); [done|].
    rewrite Hx, Hy. simpl. by rewrite decide_True.
Qed.

(** Strictly between two neighbouring knots it is the line through
    them. *)
Lemma interp_at_between xp (fp : list V) j x0 y0 x1 y1 x :
  Sorted Z.lt xp → length xp = length fp →
  xp !! j = Some x0 → fp !! j = Some y0 →
  xp !! S j = Some x1 → fp !! S j = Some y1 →
  x0 < x < x1 →
  Np.interp_at xp fp x = Some (Np.lerp x0 y0 x1 y1 x).
Proof.
  intros Hs Hlen Hx0 Hy0 Hx1 Hy1 Hx. unfold Np.interp_at.
  apply lookup_lt_Some in Hx1 as Hk.
  rewrite decide_False by lia.
  assert (Np.binary_search_with_guess x xp = Z.of_nat j) as ->.
  { apply (binary_search_sorted _ _ x0); [done..|lia| |].
    - intros ? ?. assert (x2 = x1) by congruence. lia.
    - intros an Hl. rewrite last_lookup in Hl.
      destruct (decide (S j = pred (length xp))) as [E|Hne].
      + rewrite <-E in Hl. assert (an = x1) by congruence. lia.
      + assert (x1 < an); [|lia].
        by apply (Sorted_lt_lookup xp (S j) (pred (length xp))); [| | |lia]. }
  rewrite !decide_False by lia.
  rewrite Nat2Z.id, Hx0, Hy0. simpl. rewrite decide_False by lia.
  replace (Z.to_nat (Z.of_nat j + 1)) with (S j) by lia.
  by rewrite Hx1, Hy1.
Qed.

(** Outside the range of an ascending series it is the value at the
    nearer end. *)
Lemma interp_at_below xp (fp : list V) a0 x :
  Sorted Z.lt xp → length xp = length fp → head xp = Some a0 → x < a0 →
  Np.interp_at xp fp x = head fp.
Proof.
  intros Hs Hlen Ha0 Hx. unfold Np.interp_at.
  destruct xp as [|a t]; [done|]. injection Ha0 as ->.
  destruct (decide (Z.of_nat (length (a0 :: t)) = 1)) as [H1|H1].
  - simpl. rewrite decide_True by done. by destruct fp.
  - assert (Np.binary_search_with_guess x (a0 :: t) = -1) as ->.
    { unfold Np.binary_search_with_guess.
      destruct (last (a0 :: t)) as [an|] eqn:Hl; [|done].
      assert (a0 < an).
      { rewrite last_lookup in Hl. simpl in Hl, H1.
        destruct t as [|b t]; [simpl in H1; lia|].
        by apply (Sorted_lt_lookup (a0 :: b :: t) 0 (length (b :: t)));
          [| | |simpl; lia]. }
      rewrite decide_False by lia. by rewrite decide_True. }
    rewrite decide_True by done. by destruct fp.
Qed.

Lemma interp_at_above xp (fp : list V) an x :
  length xp = length fp → last xp = Some an → an < x →
  Np.interp_at xp fp x = last fp.
Proof.
  intros Hlen Hl Hx. unfold Np.interp_at.
  destruct (decide (Z.of_nat (length xp) = 1)) as [H1|H1].
  - destruct xp as [|a [|??]]; simpl in H1; try lia.
    simpl in *. injection Hl as ->.
    rewrite decide_False by lia. by rewrite decide_True.
  - assert (Np.binary_search_with_guess x xp = Z.of_nat (length xp)) as ->.
    { unfold Np.binary_search_with_guess.
      destruct xp as [|a0 t]; [done|]. rewrite Hl. by rewrite decide_True. }
    rewrite decide_False by lia. by rewrite decide_True.
Qed.

(** [np.interp] returns a value for every point asked. *)
Lemma interp_at_is_Some xp (fp : list V) x :
  xp ≠ [] → length xp = length fp → is_Some (Np.interp_at xp fp x).
Proof.
  intros Hne Hlen. unfold Np.interp_at.
  assert (is_Some (fp !! 0%nat)) as H0.
  { apply lookup_lt_is_Some. destruct xp; [done|]. simpl in Hlen. lia. }
  assert (is_Some (last fp)) as Hl.
  { rewrite last_lookup. apply lookup_lt_is_Some.
    destruct xp; [done|]. simpl in Hlen. lia. }
  destruct (decide (Z.of_nat (length xp) = 1)) as [H1|H1].
  - destruct xp as [|a t]; [done|]. simpl.
    by repeat case_decide.
  - set (j := Np.binary_search_with_guess x xp).
    assert (-1 ≤ j ≤ Z.of_nat (length xp)) as Hj.
    { unfold j, Np.binary_search_with_guess.
      destruct xp as [|a0 t]; [done|].
      destruct (last (a0 :: t)); [|lia].
      repeat case_decide; try lia.
      pose proof (linear_search_bound x t 1). simpl. lia. }
    repeat case_decide; try done.
    + apply lookup_lt_is_Some. lia.
    + destruct (lookup_lt_is_Some_2 xp (Z.to_nat j)) as [dxj ->]; [lia|].
      destruct (lookup_lt_is_Some_2 fp (Z.to_nat j)) as [dyj ->]; [lia|].
      simpl. case_decide; [done|].
      destruct (lookup_lt_is_Some_2 xp (Z.to_nat (j + 1))) as [? ->]; [lia|].
      destruct (lookup_lt_is_Some_2 fp (Z.to_nat (j + 1))) as [? ->]; [lia|].
      done.
Qed.

Lemma interp_Some x xp (fp : list V) :
  xp ≠ [] → length xp = length fp →
  ∃ ys, Np.interp x xp fp = Some ys ∧ length ys = length x ∧
        ∀ i xi, x !! i = Some xi → ys !! i = Np.interp_at xp fp xi ∧
                                   is_Some (ys !! i).
Proof.
  intros Hne Hlen. unfold Np.interp.
  rewrite decide_False by tauto.
  assert (is_Some (mapM (Np.interp_at xp fp) x)) as [ys Hys].
  { apply mapM_is_Some, Forall_forall. intros ? _.
    by apply interp_at_is_Some. }
  exists ys. split; [done|].
  apply mapM_Some in Hys. split; [symmetry; by eapply Forall2_length|].
  intros i xi Hi.
  destruct (Forall2_lookup_l _ _ _ _ _ Hys Hi) as (y & Hy & E).
  rewrite Hy, E. eauto.
Qed.

End interp.

(** ** The staging store *)

Section by_epoch.
Context {V : Type}.
Implicit Types rows : list (Z * V).

Local Instance epoch_le_total : Total (Db.epoch_le (V:=V)).
Proof. intros r r'. unfold Db.epoch_le. lia. Qed.

Local Instance epoch_le_trans : Transitive (Db.epoch_le (V:=V)).
Proof. intros r r' r''. unfold Db.epoch_le. lia. Qed.

(** The series the store returns holds the rows of the table, in
    ascending order of epoch. *)
Lemma by_epoch_Permutation rows : Db.by_epoch rows ≡ₚ rows.
Proof. apply merge_sort_Permutation. Qed.

Lemma Sorted_by_epoch rows : Sorted Z.le (Db.by_epoch rows).*1.
Proof.
  apply (Sorted_fmap _ Db.epoch_le); [done|].
  apply (Sorted_merge_sort _).
Qed.

Lemma elem_of_by_epoch rows r : r ∈ Db.by_epoch rows ↔ r ∈ rows.
Proof. by rewrite by_epoch_Permutation. Qed.

Lemma by_epoch_nil rows : Db.by_epoch rows = [] ↔ rows = [].
Proof.
  split; [|by intros ->].
  intros E. pose proof (by_epoch_Permutation rows) as Hp.
  rewrite E in Hp. by apply Permutation_nil_l in Hp.
Qed.

Lemma Sorted_epoch_le rows : Sorted Z.le rows.*1 → Sorted Db.epoch_le rows.
Proof.
  induction rows as [|r rows IH]; [constructor|].
  intros [Hs Hhd]%Sorted_inv. constructor; [by apply IH|].
  destruct rows; constructor. by apply HdRel_inv in Hhd.
Qed.

Lemma Sorted_le_NoDup_lt (l : list Z) : Sorted Z.le l → NoDup l → Sorted Z.lt l.
Proof.
  induction l as [|x l IH]; [constructor|].
  intros [Hs Hhd]%Sorted_inv [Hx Hnd]%NoDup_cons.
  constructor; [by apply IH|].
  destruct l as [|y l]; constructor. apply HdRel_inv in Hhd.
  assert (x ≠ y) by (intros ->; apply Hx; left). lia.
Qed.

(** Rows of distinct epochs have one arrangement in ascending order. *)
Lemma sorted_rows_unique rows rows' :
  rows ≡ₚ rows' → NoDup rows.*1 →
  Sorted Z.le rows.*1 → Sorted Z.le rows'.*1 → rows = rows'.
Proof.
  intros Hperm Hnd Hs Hs'.
  apply (Sorted_unique_strong Db.epoch_le);
    [|by apply Sorted_epoch_le..|done].
  intros [e v] [e' v'] Hin Hin' Hle Hle'. unfold Db.epoch_le in *.
  simpl in *. assert (e' = e) as -> by lia. f_equal.
  rewrite <-Hperm in Hin'.
  apply list_elem_of_lookup in Hin as [i Hi].
  apply list_elem_of_lookup in Hin' as [j Hj].
  assert (i = j) as ->; [|congruence].
  apply (NoDup_lookup rows.*1 i j e); [done|..];
    rewrite list_lookup_fmap; [by rewrite Hi|by rewrite Hj].
Qed.

(** A table whose rows were inserted in ascending order of distinct
    epochs is read as it is. *)
Lemma by_epoch_sorted_id rows : Sorted Z.lt rows.*1 → Db.by_epoch rows = rows.
Proof.
  intros Hs. symmetry. apply sorted_rows_unique.
  - symmetry. apply by_epoch_Permutation.
  - by apply Sorted_lt_NoDup.
  - rewrite <-(list_fmap_id rows.*1).
    apply (Sorted_fmap _ Z.lt); [intros; unfold id; lia|done].
  - apply Sorted_by_epoch.
Qed.

(** A table of distinct epochs is read in strictly ascending order,
    whatever the order its rows were inserted in. *)
Lemma Sorted_lt_by_epoch rows :
  NoDup rows.*1 → Sorted Z.lt (Db.by_epoch rows).*1.
Proof.
  intros Hnd. apply Sorted_le_NoDup_lt; [apply Sorted_by_epoch|].
  by rewrite by_epoch_Permutation.
Qed.

Lemma by_epoch_insertion_order rows rows' :
  rows ≡ₚ rows' → NoDup rows.*1 → Db.by_epoch rows = Db.by_epoch rows'.
Proof.
  intros Hperm Hnd. apply sorted_rows_unique.
  - by rewrite !by_epoch_Permutation.
  - by rewrite by_epoch_Permutation.
  - apply Sorted_by_epoch.
  - apply Sorted_by_epoch.
Qed.

End by_epoch.

(** ** Water level on the grid *)

Section water_level.
Context {V : Type} `{Float V}.
Implicit Types db : Db.Store V.

(** On a water-level table that is not empty, [populate_water_level]
    returns: it writes the grid points but the last, each with the
    interpolation of the staged rows in the order of their epochs. *)
Lemma populate_water_level_returns time_grid time_step db :
  Db.water_level_staging db ≠ [] →
  ∃ zeta_on_grid,
    Np.interp (Py.slice_to time_grid (-1))
      (Db.by_epoch (Db.water_level_staging db)).*1
      (Db.by_epoch (Db.water_level_staging db)).*2
      = Some zeta_on_grid ∧
    Load.populate_water_level time_grid time_step db =
      Db.insert_water_level
        (zip (Py.slice_to time_grid (-1)) zeta_on_grid) db.
Proof.
  intros Hne%(not_iff_compat (by_epoch_nil _)).
  set (rows := Db.by_epoch (Db.water_level_staging db)) in *.
  destruct (interp_Some (Py.slice_to time_grid (-1)) rows.*1 rows.*2)
    as (ys & Hys & _).
  { by destruct rows. }
  { by rewrite !length_fmap. }
  exists ys. split; [done|].
  unfold Load.populate_water_level, Db.bind, Db.select_water_level_staging.
  fold rows. destruct rows as [|r rows'] eqn:E; [done|]. rewrite <-E in *.
  simpl. by rewrite Hys.
Qed.

(** When the grid builder succeeds the whole alignment returns; on fresh
    tables it leaves the grid, the rows of the join, and one water-level
    row for every grid point but the last. *)
Lemma align_returns db time_grid time_step db1 :
  Db.grid_time db = [] → Db.rainfall_intensity db = [] →
  Db.water_level db = [] →
  Load.populate_grid_time db = Db.Ok (time_grid, time_step) db1 →
  ∃ bound zeta_on_grid db3,
    Load.align db = Db.Ok (time_grid, time_step) db3 ∧
    Py.index time_grid (-2) = Some bound ∧
    Py.slice_to time_grid (-1) = Db.overlap_epochs db ∧
    Np.interp (Db.overlap_epochs db)
      (Db.by_epoch (Db.water_level_staging db)).*1
      (Db.by_epoch (Db.water_level_staging db)).*2
      = Some zeta_on_grid ∧
    Db.water_level_staging db3 = Db.water_level_staging db ∧
    Db.grid_time db3 = time_grid ∧
    Db.rainfall_intensity db3 = Db.join_rainfall_on_grid time_step bound db1 ∧
    Db.water_level db3 = zip (Db.overlap_epochs db) zeta_on_grid.
Proof.
  intros Hg Hr Hw Hok.
  pose proof (populate_grid_time_candidates _ _ _ _ Hok) as [_ Hlen].
  destruct (overlap_epochs_nonempty db) as (min_w & max_w & Hmin & _).
  { intros E. rewrite E in Hlen. simpl in Hlen. lia. }
  destruct (populate_rainfall_intensity_after_grid _ _ _ _ Hok)
    as (bound & Hl & Hidx & Hgrid & Hdb1 & Hpop).
  set (db2 := {|
    Db.rainfall_intensity_staging := Db.rainfall_intensity_staging db1;
    Db.evapotranspiration_staging := Db.evapotranspiration_staging db1;
    Db.water_level_staging := Db.water_level_staging db1;
    Db.time_grid := Db.time_grid db1;
    Db.grid_time := Db.grid_time db1;
    Db.rainfall_intensity :=
      Db.rainfall_intensity db1 ++ Db.join_rainfall_on_grid time_step bound db1;
    Db.water_level := Db.water_level db1 |}).
  destruct (populate_water_level_returns time_grid time_step db2)
    as (ys & Hys & Hwl).
  { simpl. rewrite Hdb1. simpl. intros E. by rewrite E in Hmin. }
  assert (Py.slice_to time_grid (-1) = Db.overlap_epochs db) as Hslice
    by (rewrite Hgrid; apply slice_to_snoc).
  exists bound, ys. eexists. split.
  { unfold Load.align, Db.bind. rewrite Hok, Hpop.
    unfold Db.insert_rainfall_intensity. fold db2. rewrite Hwl.
    reflexivity. }
  simpl in *. rewrite Hdb1 in *. simpl in *.
  rewrite Hslice in *. rewrite Hg, Hr, Hw. by split_and!.
Qed.

(** The level written at a grid point that is an epoch of the series
    read, in strictly ascending order, is the level of that row, and the
    level at a grid point strictly between two neighbouring rows of the
    series is on the line through them. *)
Lemma water_level_interpolated_by_epoch db time_grid time_step db3 :
  Db.grid_time db = [] → Db.rainfall_intensity db = [] →
  Db.water_level db = [] →
  Sorted Z.lt (Db.by_epoch (Db.water_level_staging db)).*1 →
  Load.align db = Db.Ok (time_grid, time_step) db3 →
  (Db.water_level db3).*1 = Py.slice_to time_grid (-1) ∧
  ∀ epoch zeta, (epoch, zeta) ∈ Db.water_level db3 →
    (∀ w, (epoch, w) ∈ Db.water_level_staging db → zeta = w) ∧
    (∀ j e0 w0 e1 w1,
       Db.by_epoch (Db.water_level_staging db) !! j = Some (e0, w0) →
       Db.by_epoch (Db.water_level_staging db) !! S j = Some (e1, w1) →
       e0 < epoch < e1 → zeta = Np.lerp e0 w0 e1 w1 epoch).
Proof.
  intros Hg Hr Hw Hs Halign.
  assert (∃ db1, Load.populate_grid_time db
                 = Db.Ok (time_grid, time_step) db1) as [db1 Hok].
  { unfold Load.align, Db.bind in Halign.
    destruct (Load.populate_grid_time db) as [[g s] db1|]; [|done].
    destruct (Load.populate_rainfall_intensity g s db1) as [[] db2|];
      [|done].
    destruct (Load.populate_water_level g s db2) as [[] ?|]; [|done].
    injection Halign as -> -> _. eauto. }
  destruct (align_returns _ _ _ _ Hg Hr Hw Hok)
    as (bound & ys & db3' & Halign' & _ & Hslice & Hys & _ & _ & _ & Hrows).
  rewrite Halign' in Halign. injection Halign as ->.
  pose proof (elem_of_by_epoch (Db.water_level_staging db)) as Hin.
  set (rows := Db.by_epoch (Db.water_level_staging db)) in *.
  assert (length rows.*1 = length rows.*2) as Hl by (by rewrite !length_fmap).
  unfold Np.interp in Hys. case_decide; [done|].
  apply mapM_Some in Hys. apply Forall2_length in Hys as Hlen.
  rewrite Hrows, Hslice. split.
  { by rewrite fst_zip by lia. }
  intros epoch zeta (i & Hi)%list_elem_of_lookup.
  apply lookup_zip_with_Some in Hi as (e & z & Heq & He & Hz).
  injection Heq as -> ->.
  destruct (Forall2_lookup_l _ _ _ _ _ Hys He) as (z' & Hz' & Hinterp).
  assert (z' = z) as -> by congruence.
  split.
  - intros w (k & Hk)%Hin%list_elem_of_lookup.
    rewrite (interp_at_knot rows.*1 rows.*2 k e w) in Hinterp;
      [congruence | done | done | |]; rewrite list_lookup_fmap, Hk; done.
  - intros j e0 w0 e1 w1 Hj Hj' Hbetween.
    rewrite (interp_at_between rows.*1 rows.*2 j e0 w0 e1 w1) in Hinterp;
      [congruence | done | done | | | | | done];
      rewrite list_lookup_fmap, ?Hj, ?Hj'; done.
Qed.

(** When the staged water-level rows are in ascending order of epoch, the
    level written at a grid point that is a staged epoch is the staged
    level, and the level at a grid point strictly between two neighbouring
    staged epochs is on the line through them. *)
Lemma water_level_interpolated_when_ascending db time_grid time_step db3 :
  Db.grid_time db = [] → Db.rainfall_intensity db = [] →
  Db.water_level db = [] →
  Sorted Z.lt (Db.water_level_staging db).*1 →
  Load.align db = Db.Ok (time_grid, time_step) db3 →
  (Db.water_level db3).*1 = Py.slice_to time_grid (-1) ∧
  ∀ epoch zeta, (epoch, zeta) ∈ Db.water_level db3 →
    (∀ w, (epoch, w) ∈ Db.water_level_staging db → zeta = w) ∧
    (∀ j e0 w0 e1 w1,
       Db.water_level_staging db !! j = Some (e0, w0) →
       Db.water_level_staging db !! S j = Some (e1, w1) →
       e0 < epoch < e1 → zeta = Np.lerp e0 w0 e1 w1 epoch).
Proof.
  intros Hg Hr Hw Hs Halign.
  pose proof (by_epoch_sorted_id _ Hs) as Hid.
  pose proof (water_level_interpolated_by_epoch db time_grid time_step db3
                Hg Hr Hw) as Hby.
  rewrite Hid in Hby. by apply Hby.
Qed.

End water_level.

(** ** The timestamp normaliser *)

(** The generator on rows that follow rows it accepts. *)
Lemma generate_timestamped_rows_app tz pre outs rows :
  Load.generate_timestamped_rows pre tz =
    {| Load.yielded := outs; Load.raised := None |} →
  Load.generate_timestamped_rows (pre ++ rows) tz =
    {| Load.yielded :=
         outs ++ Load.yielded (Load.generate_timestamped_rows rows tz);
       Load.raised := Load.raised (Load.generate_timestamped_rows rows tz) |}.
Proof.
  revert outs. induction pre as [|row pre IH]; intros outs; simpl.
  - intros [= <-]. by destruct (Load.generate_timestamped_rows rows tz).
  - destruct (Load.timestamped_row tz row) as [e|out]; [done|].
    destruct (Load.generate_timestamped_rows pre tz) as [outs' r] eqn:E.
    simpl. intros [= <- ->]. by rewrite (IH outs').
Qed.


(** ** The scenarios *)

(** C1.  Scenario A: with rainfall 0, 5 and 10 staged at 0, 3600 and 7200
    and the water level staged at -1800 and 9000, whatever the levels, the
    run returns the grid 0, 3600, 7200, 10800 with step 3600, writes them,
    and writes the rainfall rows (0, 3600, 0), (3600, 7200, 5),
    (7200, 10800, 10). *)
Theorem scenario_A_aligned {V : Type} `{Float V} (w0 w1 : V)
    (et : list (Z * V)) :
  ∃ db',
    Load.align
      (Db.staged [(0, f_of_int 0); (3600, f_of_int 5); (7200, f_of_int 10)]
                 et [(-1800, w0); (9000, w1)])
    = Db.Ok ([0; 3600; 7200; 10800], 3600) db' ∧
    Db.grid_time db' = [0; 3600; 7200; 10800] ∧
    Db.time_grid db' = [3600] ∧
    Db.rainfall_intensity db' =
      [(0, 3600, f_of_int 0); (3600, 7200, f_of_int 5);
       (7200, 10800, f_of_int 10)].
Proof. eexists. split; [vm_compute; reflexivity | done]. Qed.

(** C9.  Whatever the order in which the water-level samples were
    appended, the series the staging store returns to
    [populate_water_level] holds the staged samples in ascending order of
    epoch, and it is this series that the interpolation receives; tables
    that hold the same samples of distinct epochs, appended in any two
    orders, return one series. *)
Theorem water_level_series_ordered_by_epoch {V : Type} `{Float V}
    (time_grid : list Z) (time_step : Z) (db : Db.Store V) :
  ∃ rows,
    Db.select_water_level_staging db = Db.Ok rows db ∧
    rows ≡ₚ Db.water_level_staging db ∧
    Sorted Z.le rows.*1 ∧
    Load.populate_water_level time_grid time_step db =
      match rows with
      | [] => Db.Raise NotEnoughValues db
      | _ :: _ =>
          match Np.interp (Py.slice_to time_grid (-1)) rows.*1 rows.*2 with
          | Some zeta_on_grid =>
              Db.insert_water_level
                (zip (Py.slice_to time_grid (-1)) zeta_on_grid) db
          | None => Db.Raise InterpError db
          end
      end ∧
    ∀ db' : Db.Store V,
      Db.water_level_staging db' ≡ₚ Db.water_level_staging db →
      NoDup (Db.water_level_staging db).*1 →
      Db.select_water_level_staging db' = Db.Ok rows db'.
Proof.
  exists (Db.by_epoch (Db.water_level_staging db)).
  split; [done|]. split; [apply by_epoch_Permutation|].
  split; [apply Sorted_by_epoch|]. split.
  - unfold Load.populate_water_level, Db.bind, Db.select_water_level_staging.
    destruct (Db.by_epoch (Db.water_level_staging db)) as [|r rows]; [done|].
    cbn [Db.lift Db.ret]. by destruct (Np.interp _ _ _).
  - intros db' Hperm Hnd. unfold Db.select_water_level_staging. f_equal.
    symmetry. by apply by_epoch_insertion_order.
Qed.

(** Rows of distinct epochs hold one level for an epoch. *)
Lemma rows_functional {V : Type} (rows : list (Z * V)) e w w' :
  NoDup rows.*1 → (e, w) ∈ rows → (e, w') ∈ rows → w = w'.
Proof.
  intros Hnd [i Hi]%list_elem_of_lookup [j Hj]%list_elem_of_lookup.
  assert (i = j) as ->; [|congruence].
  apply (NoDup_lookup rows.*1 i j e); [done|..];
    rewrite list_lookup_fmap; [by rewrite Hi|by rewrite Hj].
Qed.

(** Two rows of an ascending series with no epoch of the series between
    theirs are neighbours. *)
Lemma neighbours_adjacent {V : Type} (rows : list (Z * V)) e0 w0 e1 w1 :
  Sorted Z.lt rows.*1 →
  (e0, w0) ∈ rows → (e1, w1) ∈ rows → e0 < e1 →
  (∀ e, e ∈ rows.*1 → ¬ e0 < e < e1) →
  ∃ j, rows !! j = Some (e0, w0) ∧ rows !! S j = Some (e1, w1).
Proof.
  intros Hs [j Hj]%list_elem_of_lookup [k Hk]%list_elem_of_lookup Hlt Hnone.
  exists j. split; [done|].
  assert (rows.*1 !! j = Some e0) as Hj1
    by (by rewrite list_lookup_fmap, Hj).
  assert (rows.*1 !! k = Some e1) as Hk1
    by (by rewrite list_lookup_fmap, Hk).
  assert (j < k)%nat as Hjk.
  { destruct (decide (j < k)%nat) as [|Hge]; [done|].
    destruct (decide (j = k)) as [->|]; [simplify_eq; lia|].
    pose proof (Sorted_lt_lookup _ k j _ _ Hs Hk1 Hj1). lia. }
  destruct (decide (S j = k)) as [<-|Hne]; [done|].
  destruct (lookup_lt_is_Some_2 rows.*1 (S j)) as [e He].
  { apply lookup_lt_Some in Hk1. lia. }
  exfalso. apply (Hnone e); [by eapply list_elem_of_lookup_2|].
  split.
  - apply (Sorted_lt_lookup _ j (S j) _ _ Hs Hj1 He). lia.
  - apply (Sorted_lt_lookup _ (S j) k _ _ Hs He Hk1). lia.
Qed.

(** C5.  On staged water levels of distinct epochs [populate_water_level]
    writes one level for every grid point but the last, in their order: at
    a grid point that is a staged epoch the level staged there, at a grid
    point strictly between two staged epochs that have none between them
    the value there of the line through the two samples, and at a grid
    point before the first or after the last staged epoch the level of
    that first or last sample.  The order in which the samples were staged
    plays no part. *)
Theorem water_level_interpolated_on_grid {V : Type} `{Float V}
    (time_grid : list Z) (time_step : Z) (db : Db.Store V) :
  Db.water_level_staging db ≠ [] →
  NoDup (Db.water_level_staging db).*1 →
  ∃ rows,
    Load.populate_water_level time_grid time_step db
      = Db.insert_water_level rows db ∧
    rows.*1 = Py.slice_to time_grid (-1) ∧
    ∀ epoch zeta, (epoch, zeta) ∈ rows →
      (∀ w, (epoch, w) ∈ Db.water_level_staging db → zeta = w) ∧
      (∀ e0 w0 e1 w1,
         (e0, w0) ∈ Db.water_level_staging db →
         (e1, w1) ∈ Db.water_level_staging db →
         e0 < epoch < e1 →
         (∀ e, e ∈ (Db.water_level_staging db).*1 → ¬ e0 < e < e1) →
         zeta = Np.lerp e0 w0 e1 w1 epoch) ∧
      (∀ e0 w0,
         (e0, w0) ∈ Db.water_level_staging db →
         (∀ e, e ∈ (Db.water_level_staging db).*1 → e0 ≤ e) →
         epoch < e0 → zeta = w0) ∧
      (∀ en wn,
         (en, wn) ∈ Db.water_level_staging db →
         (∀ e, e ∈ (Db.water_level_staging db).*1 → e ≤ en) →
         en < epoch → zeta = wn).
Proof.
  intros Hne Hnd.
  destruct (populate_water_level_returns time_grid time_step db Hne)
    as (ys & Hys & Hpop).
  pose proof (Sorted_lt_by_epoch _ Hnd) as Hs.
  pose proof (elem_of_by_epoch (Db.water_level_staging db)) as Hin.
  pose proof (by_epoch_Permutation (Db.water_level_staging db)) as Hperm.
  set (staged := Db.by_epoch (Db.water_level_staging db)) in *.
  assert (NoDup staged.*1) as Hnd' by (by apply Sorted_lt_NoDup).
  assert (∀ e, e ∈ (Db.water_level_staging db).*1 ↔ e ∈ staged.*1) as Hin1.
  { intros e. by rewrite Hperm. }
  assert (length staged.*1 = length staged.*2) as Hl
    by (by rewrite !length_fmap).
  unfold Np.interp in Hys. case_decide; [done|].
  apply mapM_Some in Hys. apply Forall2_length in Hys as Hlen.
  exists (zip (Py.slice_to time_grid (-1)) ys).
  split; [done|]. split; [by rewrite fst_zip by lia|].
  intros epoch zeta (i & Hi)%list_elem_of_lookup.
  apply lookup_zip_with_Some in Hi as (e & z & Heq & He & Hz).
  injection Heq as -> ->.
  destruct (Forall2_lookup_l _ _ _ _ _ Hys He) as (z' & Hz' & Hinterp).
  assert (z' = z) as -> by congruence.
  split_and!.
  - intros w (k & Hk)%Hin%list_elem_of_lookup.
    rewrite (interp_at_knot staged.*1 staged.*2 k e w) in Hinterp;
      [congruence | done | done | |]; rewrite list_lookup_fmap, Hk; done.
  - intros e0 w0 e1 w1 Hrow0%Hin Hrow1%Hin Hbetween Hnone.
    destruct (neighbours_adjacent staged e0 w0 e1 w1 Hs Hrow0 Hrow1)
      as (j & Hj & Hj'); [lia| |].
    { intros e' He'. apply Hnone. by apply Hin1. }
    rewrite (interp_at_between staged.*1 staged.*2 j e0 w0 e1 w1) in Hinterp;
      [congruence | done | done | | | | | done];
      rewrite list_lookup_fmap, ?Hj, ?Hj'; done.
  - intros e0 w0 Hrow0%Hin Hmin Hbelow.
    destruct staged as [|[a0 wa] rest] eqn:E; [by apply elem_of_nil in Hrow0|].
    assert (a0 = e0) as ->.
    { assert (e0 ≤ a0) by (apply Hmin, Hin1; left).
      apply list_elem_of_lookup in Hrow0 as [[|k] Hk];
        [by simplify_eq/=|].
      assert (a0 < e0); [|lia].
      apply (Sorted_lt_lookup _ 0 (S k) _ _ Hs); [done| |lia].
      by rewrite list_lookup_fmap, Hk. }
    assert (wa = w0) as ->.
    { apply (rows_functional _ e0 _ _ Hnd'); [left|done]. }
    rewrite (interp_at_below _ _ e0 e) in Hinterp; [|done..].
    simpl in Hinterp. congruence.
  - intros en wn Hn%Hin Hmax Habove.
    destruct (last staged) as [[an wa]|] eqn:Hlast.
    2:{ apply last_None in Hlast. rewrite Hlast in Hn.
        by apply elem_of_nil in Hn. }
    assert (an = en) as ->.
    { assert (an ≤ en).
      { apply Hmax, Hin1, list_elem_of_fmap. exists (an, wa).
        split; [done|]. rewrite last_lookup in Hlast.
        by eapply list_elem_of_lookup_2. }
      apply list_elem_of_lookup in Hn as [k Hk].
      rewrite last_lookup in Hlast.
      destruct (decide (k = pred (length staged))) as [->|Hne'];
        [simplify_eq; lia|].
      assert (en < an); [|lia].
      apply (Sorted_lt_lookup staged.*1 k (pred (length staged)) _ _ Hs).
      - by rewrite list_lookup_fmap, Hk.
      - by rewrite list_lookup_fmap, Hlast.
      - apply lookup_lt_Some in Hk. lia. }
    assert (wa = wn) as ->.
    { apply (rows_functional _ en _ _ Hnd'); [|done].
      rewrite last_lookup in Hlast. by eapply list_elem_of_lookup_2. }
    rewrite (interp_at_above staged.*1 staged.*2 en e) in Hinterp;
      [| done | by rewrite fmap_last, Hlast | done].
    rewrite fmap_last, Hlast in Hinterp. simpl in Hinterp. congruence.
Qed.

(** ** The properties at the scenarios *)

Lemma scenario_A_grid :
  Load.populate_grid_time Scenario.A
  = Db.Ok ([0; 3600; 7200; 10800], 3600)
          (Db.with_grid Scenario.A 3600 [0; 3600; 7200; 10800]).
Proof. by vm_compute. Defined.

(** Scenario B: the differences 3600 and 7200 are both named. *)
Lemma nonuniform_time_step_raises_witness :
  Db.overlap_epochs Scenario.B !! 0%nat = Some 0 ∧
  Db.overlap_epochs Scenario.B !! 1%nat = Some 3600 ∧
  Db.overlap_epochs Scenario.B !! 2%nat = Some 10800 ∧
  3600 - 0 ≠ 10800 - 3600 ∧
  Load.populate_grid_time Scenario.B
    = Db.Raise (NonuniformTimeSteps [3600; 7200]) Scenario.B ∧
  Load.align Scenario.B
    = Db.Raise (NonuniformTimeSteps [3600; 7200]) Scenario.B ∧
  3600 - 0 ∈ [3600; 7200] ∧ 10800 - 3600 ∈ [3600; 7200].
Proof.
  assert (Db.overlap_epochs Scenario.B !! 0%nat = Some 0) as H0
    by (vm_compute; reflexivity).
  assert (Db.overlap_epochs Scenario.B !! 1%nat = Some 3600) as H1
    by (vm_compute; reflexivity).
  assert (Db.overlap_epochs Scenario.B !! 2%nat = Some 10800) as H2
    by (vm_compute; reflexivity).
  assert (3600 - 0 ≠ 10800 - 3600) as Hne by lia.
  destruct (nonuniform_time_step_raises Scenario.B 0 1 0 3600 3600 10800
              H0 H1 H1 H2 Hne) as (Hr & Ha & Hd1 & Hd2 & _).
  split_and!; [done..| exact Hr | exact Ha | exact Hd1 | exact Hd2].
Defined.

Lemma grid_is_closed_candidates_witness :
  Load.populate_grid_time Scenario.A
    = Db.Ok ([0; 3600; 7200; 10800], 3600)
            (Db.with_grid Scenario.A 3600 [0; 3600; 7200; 10800]) ∧
  ∃ candidate_grid min_w max_w last_epoch,
    (min_w ∈ (Db.water_level_staging Scenario.A).*1 ∧
     ∀ e, e ∈ (Db.water_level_staging Scenario.A).*1 → min_w ≤ e) ∧
    (max_w ∈ (Db.water_level_staging Scenario.A).*1 ∧
     ∀ e, e ∈ (Db.water_level_staging Scenario.A).*1 → e ≤ max_w) ∧
    Sorted Z.le candidate_grid ∧
    candidate_grid ≡ₚ
      filter (λ e, min_w ≤ e ∧ e ≤ max_w)
             (Db.rainfall_intensity_staging Scenario.A).*1 ∧
    Py.index candidate_grid (-1) = Some last_epoch ∧
    [0; 3600; 7200; 10800] = candidate_grid ++ [last_epoch + 3600] ∧
    length [0; 3600; 7200; 10800] =
      S (length (filter (λ e, min_w ≤ e ∧ e ≤ max_w)
                        (Db.rainfall_intensity_staging Scenario.A).*1)) ∧
    Db.grid_time (Db.with_grid Scenario.A 3600 [0; 3600; 7200; 10800])
      = Db.grid_time Scenario.A ++ [0; 3600; 7200; 10800] ∧
    Db.time_grid (Db.with_grid Scenario.A 3600 [0; 3600; 7200; 10800])
      = Db.time_grid Scenario.A ++ [3600].
Proof.
  split; [exact scenario_A_grid|].
  exact (grid_is_closed_candidates Scenario.A _ _ _ scenario_A_grid).
Defined.

(** The water level staged at 7200 before 0: the levels written are those
    staged at 0 and at 7200, and halfway between them at 3600. *)
Lemma descending_water_level_aligned :
  Load.populate_water_level [0; 3600; 7200; 10800] 3600
    Scenario.descending_water_level
  = Db.insert_water_level [(0, 1%Q); (3600, 10800 # 7200); (7200, 2%Q)]
      Scenario.descending_water_level.
Proof. by vm_compute. Qed.

Lemma water_level_interpolated_on_grid_witness :
  Db.water_level_staging Scenario.descending_water_level ≠ [] ∧
  NoDup (Db.water_level_staging Scenario.descending_water_level).*1 ∧
  ∃ rows,
    Load.populate_water_level [0; 3600; 7200; 10800] 3600
      Scenario.descending_water_level
      = Db.insert_water_level rows Scenario.descending_water_level ∧
    rows.*1 = Py.slice_to [0; 3600; 7200; 10800] (-1) ∧
    ∀ epoch zeta, (epoch, zeta) ∈ rows →
      (∀ w, (epoch, w) ∈ Db.water_level_staging
                             Scenario.descending_water_level → zeta = w) ∧
      (∀ e0 w0 e1 w1,
         (e0, w0) ∈ Db.water_level_staging Scenario.descending_water_level →
         (e1, w1) ∈ Db.water_level_staging Scenario.descending_water_level →
         e0 < epoch < e1 →
         (∀ e, e ∈ (Db.water_level_staging
                      Scenario.descending_water_level).*1 →
               ¬ e0 < e < e1) →
         zeta = Np.lerp e0 w0 e1 w1 epoch) ∧
      (∀ e0 w0,
         (e0, w0) ∈ Db.water_level_staging Scenario.descending_water_level →
         (∀ e, e ∈ (Db.water_level_staging
                      Scenario.descending_water_level).*1 → e0 ≤ e) →
         epoch < e0 → zeta = w0) ∧
      (∀ en wn,
         (en, wn) ∈ Db.water_level_staging Scenario.descending_water_level →
         (∀ e, e ∈ (Db.water_level_staging
                      Scenario.descending_water_level).*1 → e ≤ en) →
         en < epoch → zeta = wn).
Proof.
  assert (Db.water_level_staging Scenario.descending_water_level ≠ [])
    as Hne by done.
  assert (NoDup (Db.water_level_staging
                   Scenario.descending_water_level).*1) as Hnd.
  { cbn. repeat constructor; rewrite ?elem_of_cons, ?elem_of_nil; lia. }
  split; [exact Hne|]. split; [exact Hnd|].
  exact (water_level_interpolated_on_grid [0; 3600; 7200; 10800] 3600
           Scenario.descending_water_level Hne Hnd).
Defined.

Lemma short_candidate_grid_raises_witness :
  (length (Db.overlap_epochs Scenario.no_water_level) ≤ 1)%nat ∧
  Load.populate_grid_time Scenario.no_water_level
    = Db.Raise (NonuniformTimeSteps []) Scenario.no_water_level ∧
  Load.align Scenario.no_water_level
    = Db.Raise (NonuniformTimeSteps []) Scenario.no_water_level.
Proof.
  assert (length (Db.overlap_epochs Scenario.no_water_level) ≤ 1)%nat as Hlen
    by (vm_compute; lia).
  split; [exact Hlen|].
  exact (short_candidate_grid_raises Scenario.no_water_level Hlen).
Defined.

Lemma rainfall_binned_by_exact_match_witness :
  Db.grid_time Scenario.A = [] ∧ Db.rainfall_intensity Scenario.A = [] ∧
  Load.populate_grid_time Scenario.A
    = Db.Ok ([0; 3600; 7200; 10800], 3600)
            (Db.with_grid Scenario.A 3600 [0; 3600; 7200; 10800]) ∧
  ∃ db2 bound,
    Load.populate_rainfall_intensity [0; 3600; 7200; 10800] 3600
      (Db.with_grid Scenario.A 3600 [0; 3600; 7200; 10800]) = Db.Ok () db2 ∧
    Py.index [0; 3600; 7200; 10800] (-2) = Some bound ∧
    ∀ from thru intensity,
      (from, thru, intensity) ∈ Db.rainfall_intensity db2 ↔
      (from, intensity) ∈ Db.rainfall_intensity_staging Scenario.A ∧
      thru = from + 3600 ∧
      from ∈ [0; 3600; 7200; 10800] ∧ from ≤ bound.
Proof.
  split_and!; [reflexivity | reflexivity | exact scenario_A_grid |].
  exact (rainfall_binned_by_exact_match Scenario.A _ _ _
           eq_refl eq_refl scenario_A_grid).
Defined.

Lemma rainfall_intervals_tile_witness :
  let rows := [(0, 3600, 0%Q); (3600, 7200, 5%Q); (7200, 10800, 10%Q)] in
  ∃ db2,
    Db.grid_time Scenario.A = [] ∧ Db.rainfall_intensity Scenario.A = [] ∧
    Load.populate_grid_time Scenario.A
      = Db.Ok ([0; 3600; 7200; 10800], 3600)
              (Db.with_grid Scenario.A 3600 [0; 3600; 7200; 10800]) ∧
    Load.populate_rainfall_intensity [0; 3600; 7200; 10800] 3600
      (Db.with_grid Scenario.A 3600 [0; 3600; 7200; 10800]) = Db.Ok () db2 ∧
    rows ≡ₚ Db.rainfall_intensity db2 ∧
    Sorted (λ r r', Db.from_epoch r ≤ Db.from_epoch r') rows ∧
    ∃ first_row last_row g0 bound,
      head rows = Some first_row ∧ last rows = Some last_row ∧
      Py.index [0; 3600; 7200; 10800] 0 = Some g0 ∧
      Py.index [0; 3600; 7200; 10800] (-2) = Some bound ∧
      Db.from_epoch first_row = g0 ∧
      Db.thru_epoch last_row = bound + 3600 ∧
      (∀ i r r', rows !! i = Some r → rows !! S i = Some r' →
                 Db.thru_epoch r = Db.from_epoch r') ∧
      (∀ r, r ∈ rows →
            Db.thru_epoch r = Db.from_epoch r + 3600 ∧
            Db.from_epoch r ∈ [0; 3600; 7200; 10800]).
Proof.
  intros rows.
  assert (∃ db2,
    Load.populate_rainfall_intensity [0; 3600; 7200; 10800] 3600
      (Db.with_grid Scenario.A 3600 [0; 3600; 7200; 10800]) = Db.Ok () db2 ∧
    rows ≡ₚ Db.rainfall_intensity db2) as (db2 & Hpop & Hperm).
  { eexists. split; [vm_compute; reflexivity | reflexivity]. }
  assert (Sorted (λ r r', Db.from_epoch r ≤ Db.from_epoch r') rows) as Hs.
  { unfold rows, Db.from_epoch.
    repeat (constructor; simpl; try lia). }
  exists db2.
  split_and!; [reflexivity | reflexivity | exact scenario_A_grid
               | exact Hpop | exact Hperm | exact Hs |].
  exact (rainfall_intervals_tile Scenario.A _ _ _ _ rows
           eq_refl eq_refl scenario_A_grid Hpop Hperm Hs).
Defined.


(** ** The whole load *)

Section load_data.
Context {V : Type} `{Float V} (sql_value : string → V).

(** X6.  On files with a header that is accepted and rows that are all
    normalised and bound, [load_data] on the new tables stages the three
    series in full and is then the alignment of the staged series: it
    returns or raises what the alignment does and leaves the same
    tables. *)
Lemma load_data_staged tz p e w p_rows e_rows w_rows p_out e_out w_out
    rainfall et zeta :
  (∀ db : Db.Store V, Load.read_header p db = Db.Ok p_rows db) →
  (∀ db : Db.Store V, Load.read_header e db = Db.Ok e_rows db) →
  (∀ db : Db.Store V, Load.read_header w db = Db.Ok w_rows db) →
  Load.generate_timestamped_rows p_rows tz =
    {| Load.yielded := p_out; Load.raised := None |} →
  Load.generate_timestamped_rows e_rows tz =
    {| Load.yielded := e_out; Load.raised := None |} →
  Load.generate_timestamped_rows w_rows tz =
    {| Load.yielded := w_out; Load.raised := None |} →
  Load.bind_rows sql_value p_out = (rainfall, true) →
  Load.bind_rows sql_value e_out = (et, true) →
  Load.bind_rows sql_value w_out = (zeta, true) →
  Load.load_data sql_value p e w tz Db.empty =
  match Load.align (Db.staged rainfall et zeta) with
  | Db.Ok _ db => Db.Ok () db
  | Db.Raise exn db => Db.Raise exn db
  end.
Proof.
  intros Hp He Hw Hgp Hge Hgw Hbp Hbe Hbw.
  unfold Load.load_data, Load.align, Load.executemany, Db.bind.
  rewrite Hp, Hgp. simpl. rewrite Hbp. simpl.
  rewrite He, Hge. simpl. rewrite Hbe. simpl.
  rewrite Hw, Hgw. simpl. rewrite Hbw. simpl.
  change {| Db.rainfall_intensity_staging := rainfall;
            Db.evapotranspiration_staging := et;
            Db.water_level_staging := zeta;
            Db.time_grid := []; Db.grid_time := [];
            Db.rainfall_intensity := []; Db.water_level := [] |}
    with (Db.staged rainfall et zeta).
  destruct (Load.populate_grid_time (Db.staged rainfall et zeta))
    as [[time_grid time_step] db1|exn db1]; [|done].
  destruct (Load.populate_rainfall_intensity time_grid time_step db1)
    as [[] db2|exn db2]; [|done].
  by destruct (Load.populate_water_level time_grid time_step db2)
    as [[] db3|exn db3].
Qed.

End load_data.

(** Scenario A from its files: the three tables the load leaves. *)
Lemma load_data_scenario_A :
  ∃ db,
    Load.load_data Scenario.read_Q Scenario.precipitation_file
      Scenario.evapotranspiration_file Scenario.water_level_file
      Scenario.Africa_Lagos Db.empty = Db.Ok () db ∧
    Db.rainfall_intensity_staging db = [(0, 0%Q); (3600, 5%Q); (7200, 10%Q)] ∧
    Db.water_level_staging db = [(-1800, 1%Q); (9000, 2%Q)] ∧
    Db.time_grid db = [3600] ∧
    Db.grid_time db = [0; 3600; 7200; 10800] ∧
    Db.rainfall_intensity db =
      [(0, 3600, 0%Q); (3600, 7200, 5%Q); (7200, 10800, 10%Q)] ∧
    (Db.water_level db).*1 = [0; 3600; 7200].
Proof. eexists. split; [vm_compute; reflexivity | done]. Qed.

(** ** [strptime] on well-formed texts *)

Section strptime.
Import Datetime.

Lemma digit_range v : 0 ≤ v ≤ 9 →
  v = 0 ∨ v = 1 ∨ v = 2 ∨ v = 3 ∨ v = 4 ∨ v = 5 ∨ v = 6 ∨ v = 7 ∨ v = 8 ∨ v = 9.
Proof. lia. Qed.

Lemma digit_digit_char v : 0 ≤ v ≤ 9 → digit (digit_char v) = Some v.
Proof. intros Hv%digit_range. by repeat destruct Hv as [->|Hv]; try subst v. Qed.

Lemma is_space_digit_char v : 0 ≤ v ≤ 9 → is_space (digit_char v) = false.
Proof. intros Hv%digit_range. by repeat destruct Hv as [->|Hv]; try subst v. Qed.

Lemma d1_digit_char lo hi v s : 0 ≤ v ≤ 9 →
  d1 lo hi (digit_char v :: s) = if decide (lo ≤ v ≤ hi) then [(v, s)] else [].
Proof. intros Hv. unfold d1. by rewrite digit_digit_char. Qed.

Lemma d2_digit_chars lo1 hi1 lo2 hi2 a b s : 0 ≤ a ≤ 9 → 0 ≤ b ≤ 9 →
  d2 lo1 hi1 lo2 hi2 (digit_char a :: digit_char b :: s) =
  if decide ((lo1 ≤ a ≤ hi1) ∧ (lo2 ≤ b ≤ hi2)) then [(10 * a + b, s)] else [].
Proof.
  intros Ha Hb. unfold d2. rewrite d1_digit_char by done.
  destruct (decide (lo1 ≤ a ≤ hi1)) as [H1|H1].
  - rewrite bind_singleton. cbn beta iota.
    rewrite d1_digit_char by done.
    destruct (decide (lo2 ≤ b ≤ hi2)) as [H2|H2].
    + by rewrite decide_True.
    + rewrite decide_False by tauto. done.
  - rewrite decide_False by tauto. done.
Qed.

Lemma pad2_digits n : 0 ≤ n ≤ 99 →
  0 ≤ n / 10 ≤ 9 ∧ 0 ≤ n mod 10 ≤ 9 ∧ 10 * (n / 10) + n mod 10 = n.
Proof.
  intros Hn. pose proof (Z.div_mod n 10 ltac:(lia)).
  pose proof (Z.mod_pos_bound n 10 ltac:(lia)).
  assert (0 ≤ n / 10) by (apply Z.div_pos; lia).
  assert (n / 10 < 10) by (apply Z.div_lt_upper_bound; lia).
  lia.
Qed.

Lemma first_match_seq {A B C} (p : matcher A) (q : matcher B)
    (f : A → B → C) s a s' b s'' :
  first_match p s a s' → first_match q s' b s'' →
  first_match (seq p q f) s (f a b) s''.
Proof.
  intros [tp Hp] [tq Hq]. unfold first_match, seq.
  rewrite Hp, bind_cons. cbn beta iota.
  rewrite Hq, bind_cons. by eexists.
Qed.

Lemma first_match_lit c s : first_match (lit c) (c :: s) () s.
Proof. unfold first_match, lit. rewrite decide_True by done. by eexists. Qed.

Lemma first_match_spaces v s : 0 ≤ v ≤ 9 →
  first_match spaces (" "%char :: digit_char v :: s) () (digit_char v :: s).
Proof.
  intros Hv. exists []. cbn [spaces].
  change (is_space " ") with true. cbn iota.
  by rewrite is_space_digit_char.
Qed.

(** The two digits of a field within the range of its directive are
    matched together, by the first alternative that matches at all. *)
Ltac two_digits n :=
  let Ha := fresh in let Hb := fresh in let E := fresh in
  destruct (pad2_digits n) as (Ha & Hb & E); [lia|];
  unfold first_match, pad2; cbn [app]; unfold alt;
  rewrite ?d2_digit_chars by done;
  repeat case_decide; try lia;
  rewrite ?E; simpl; by eexists.

Lemma first_match_Y y s : 0 ≤ y ≤ 9999 →
  first_match (seq (d2 0 9 0 9) (d2 0 9 0 9) (λ a b, 100 * a + b))
    (pad2 (y / 100) ++ pad2 (y mod 100) ++ s) y s.
Proof.
  intros Hy.
  pose proof (Z.div_mod y 100 ltac:(lia)).
  pose proof (Z.mod_pos_bound y 100 ltac:(lia)).
  assert (0 ≤ y / 100) by (apply Z.div_pos; lia).
  assert (y / 100 < 100) by (apply Z.div_lt_upper_bound; lia).
  replace y with (100 * (y / 100) + y mod 100) at 3 by lia.
  apply (first_match_seq (d2 0 9 0 9) (d2 0 9 0 9) (λ a b, 100 * a + b)
           _ (y / 100) (pad2 (y mod 100) ++ s) (y mod 100) s).
  - two_digits (y / 100).
  - two_digits (y mod 100).
Qed.

Lemma first_match_m n s : 1 ≤ n ≤ 12 →
  first_match (alt (d2 1 1 0 2) (alt (d2 0 0 1 9) (d1 1 9))) (pad2 n ++ s) n s.
Proof. intros Hn. two_digits n. Qed.

Lemma first_match_d n s : 1 ≤ n ≤ 31 →
  first_match
    (alt (d2 3 3 0 1) (alt (d2 1 2 0 9) (alt (d2 0 0 1 9)
       (alt (d1 1 9) (seq (lit " "%char) (d1 1 9) (λ _ v, v))))))
    (pad2 n ++ s) n s.
Proof. intros Hn. two_digits n. Qed.

Lemma first_match_H n s : 0 ≤ n ≤ 23 →
  first_match (alt (d2 2 2 0 3) (alt (d2 0 1 0 9) (d1 0 9))) (pad2 n ++ s) n s.
Proof. intros Hn. two_digits n. Qed.

Lemma first_match_M n s : 0 ≤ n ≤ 59 →
  first_match (alt (d2 0 5 0 9) (d1 0 9)) (pad2 n ++ s) n s.
Proof. intros Hn. two_digits n. Qed.

Lemma first_match_S n s : 0 ≤ n ≤ 59 →
  first_match (alt (d2 6 6 0 1) (alt (d2 0 5 0 9) (d1 0 9))) (pad2 n ++ s) n s.
Proof. intros Hn. two_digits n. Qed.

Lemma first_match_set (p : matcher Z) (f : Z → datetime → datetime) s v s' :
  first_match p s v s' →
  first_match (seq p (λ s, [((), s)]) (λ v _, f v)) s (f v) s'.
Proof.
  intros Hp.
  apply (first_match_seq p (λ s, [((), s)]) (λ v _, f v) s v s' () s' Hp).
  by exists [].
Qed.

Lemma days_in_month_le y m : _days_in_month y m ≤ 31.
Proof.
  unfold _days_in_month.
  destruct (bool_decide (m = 2) && _is_leap y); [lia|].
  destruct (decide (0 ≤ m ≤ 12)) as [Hm|Hm].
  - assert (∃ k : nat, (k ≤ 12)%nat ∧ Z.to_nat m = k) as (k & Hk & ->)
      by (exists (Z.to_nat m); lia).
    do 13 (destruct k as [|k]; [simpl; lia|]). lia.
  - destruct (decide (m < 0)).
    + replace (Z.to_nat m) with 0%nat by lia. simpl. lia.
    + rewrite lookup_ge_None_2; simpl; lia.
Qed.

(** The expression [strptime] makes of [ISO_8601_FORMAT]. *)
Lemma pattern_ISO_8601_FORMAT :
  let set (p : matcher Z) (f : Z → datetime → datetime) :=
    seq p (λ s, [((), s)]) (λ v _, f v) in
  let then_ (f g : datetime → datetime) := λ dt, g (f dt) in
  let skip (_ : unit) (g : datetime → datetime) := g in
  pattern (list_ascii_of_string Load.ISO_8601_FORMAT) false =
  Some
    (seq (set (seq (d2 0 9 0 9) (d2 0 9 0 9) (λ a b, 100 * a + b))
            (λ v dt, {| year := v; month := month dt; day := day dt;
                        hour := hour dt; minute := minute dt;
                        second := second dt;
                        microsecond := microsecond dt |}))
    (seq (lit "-"%char)
    (seq (set (alt (d2 1 1 0 2) (alt (d2 0 0 1 9) (d1 1 9)))
            (λ v dt, {| year := year dt; month := v; day := day dt;
                        hour := hour dt; minute := minute dt;
                        second := second dt;
                        microsecond := microsecond dt |}))
    (seq (lit "-"%char)
    (seq (set (alt (d2 3 3 0 1) (alt (d2 1 2 0 9) (alt (d2 0 0 1 9)
                (alt (d1 1 9) (seq (lit " "%char) (d1 1 9) (λ _ v, v))))))
            (λ v dt, {| year := year dt; month := month dt; day := v;
                        hour := hour dt; minute := minute dt;
                        second := second dt;
                        microsecond := microsecond dt |}))
    (seq spaces
    (seq (set (alt (d2 2 2 0 3) (alt (d2 0 1 0 9) (d1 0 9)))
            (λ v dt, {| year := year dt; month := month dt; day := day dt;
                        hour := v; minute := minute dt;
                        second := second dt;
                        microsecond := microsecond dt |}))
    (seq (lit ":"%char)
    (seq (set (alt (d2 0 5 0 9) (d1 0 9))
            (λ v dt, {| year := year dt; month := month dt; day := day dt;
                        hour := hour dt; minute := v;
                        second := second dt;
                        microsecond := microsecond dt |}))
    (seq (lit ":"%char)
    (seq (set (alt (d2 6 6 0 1) (alt (d2 0 5 0 9) (d1 0 9)))
            (λ v dt, {| year := year dt; month := month dt; day := day dt;
                        hour := hour dt; minute := minute dt;
                        second := v;
                        microsecond := microsecond dt |}))
         (λ s, [(λ dt, dt, s)])
     then_) skip) then_) skip) then_) skip) then_) skip) then_) skip) then_).
Proof. reflexivity. Qed.

(** A datetime the constructor accepts, written [YYYY-MM-DD HH:MM:SS], is
    read back by [strptime] with [ISO_8601_FORMAT]. *)
Theorem strptime_iso_text dt :
  check_fields dt = true → microsecond dt = 0 →
  strptime (iso_text dt) Load.ISO_8601_FORMAT = Some dt.
Proof.
  intros Hcheck Hus. unfold strptime.
  rewrite pattern_ISO_8601_FORMAT. cbn zeta. cbn [mbind option_bind].
  unfold iso_text. rewrite list_ascii_of_string_of_list_ascii.
  pose proof Hcheck as Hfields. unfold check_fields in Hfields.
  rewrite !andb_true_iff, !bool_decide_eq_true in Hfields.
  destruct Hfields as ((((((Hy & Hm) & Hd) & HH) & HM) & HS) & _).
  pose proof (days_in_month_le (year dt) (month dt)) as Hdim.
  pose proof (pad2_digits (hour dt) ltac:(lia)) as (Hh1 & _).
  match goal with
  | |- context [head (?re ?text)] =>
      assert (∃ f, first_match re text f [] ∧ f defaults = dt)
        as (f & [others ->] & <-)
  end.
  { eexists. split.
    - eapply first_match_seq;
        [apply first_match_set, first_match_Y; lia|].
      eapply first_match_seq; [apply first_match_lit|].
      eapply first_match_seq;
        [apply first_match_set, first_match_m; lia|].
      eapply first_match_seq; [apply first_match_lit|].
      eapply first_match_seq;
        [apply first_match_set, first_match_d; lia|].
      eapply first_match_seq; [by apply first_match_spaces|].
      eapply first_match_seq;
        [apply first_match_set, first_match_H; lia|].
      eapply first_match_seq; [apply first_match_lit|].
      eapply first_match_seq;
        [apply first_match_set, first_match_M; lia|].
      eapply first_match_seq; [apply first_match_lit|].
      eapply first_match_seq;
        [apply first_match_set, (first_match_S _ []); lia|].
      by exists [].
    - destruct dt. simpl in *. by subst. }
  simpl. by rewrite Hcheck.
Qed.

Lemma elem_of_seq {A B C} (p : matcher A) (q : matcher B) (h : A → B → C)
    s c s'' :
  (c, s'') ∈ seq p q h s ↔
  ∃ a s' b, (a, s') ∈ p s ∧ (b, s'') ∈ q s' ∧ c = h a b.
Proof.
  unfold seq. rewrite list_elem_of_bind. split.
  - intros ([a s'] & Hin & Hp).
    apply list_elem_of_bind in Hin as ([b t] & Hin & Hq).
    apply list_elem_of_singleton in Hin as [= -> ->]. eauto 7.
  - intros (a & s' & b & Hp & Hq & ->). exists (a, s'). split; [|done].
    apply list_elem_of_bind. exists (b, s''). split; [left | done].
Qed.

(** No directive of the format sets the microsecond. *)
Lemma directive_microsecond k p s f s' dt0 :
  directive k = Some p → (f, s') ∈ p s →
  microsecond (f dt0) = microsecond dt0.
Proof.
  unfold directive. intros Hk Hin.
  repeat case_decide; try done; injection Hk as <-;
    apply elem_of_seq in Hin as (v & ? & ? & _ & _ & ->); done.
Qed.

Lemma pattern_microsecond fmt in_space re s f s' dt0 :
  pattern fmt in_space = Some re → (f, s') ∈ re s →
  microsecond (f dt0) = microsecond dt0.
Proof.
  remember (length fmt) as n eqn:Hn.
  assert (length fmt ≤ n)%nat as Hlen by lia. clear Hn.
  revert fmt Hlen in_space re s f s' dt0.
  induction n as [|n IH]; intros fmt Hlen in_space re s f s' dt0.
  { destruct fmt; [|simpl in Hlen; lia].
    simpl. intros [= <-] [= -> _]%list_elem_of_singleton. done. }
  destruct fmt as [|c fmt]; simpl in *.
  - intros [= <-] [= -> _]%list_elem_of_singleton. done.
  - destruct (is_space c).
    + destruct (pattern fmt true) as [rest|] eqn:Hrest; [|done]. simpl.
      assert (length fmt ≤ n)%nat as Hfmt by lia.
      destruct in_space; intros [= <-] Hin.
      * by eapply (IH fmt Hfmt).
      * apply elem_of_seq in Hin as (? & ? & g & _ & Hg & ->).
        by eapply (IH fmt Hfmt).
    + destruct (decide (c = "%"%char)) as [_|_].
      * destruct fmt as [|k fmt]; [done|].
        destruct (directive k) as [p|] eqn:Hk; [|done]. simpl.
        destruct (pattern fmt false) as [rest|] eqn:Hrest; [|done]. simpl.
        intros [= <-] Hin.
        apply elem_of_seq in Hin as (f0 & ? & g & Hf0 & Hg & ->).
        rewrite (IH fmt ltac:(simpl in Hlen; lia) _ _ _ _ _ _ Hrest Hg).
        by eapply directive_microsecond.
      * destruct (pattern fmt false) as [rest|] eqn:Hrest; [|done]. simpl.
        intros [= <-] Hin.
        apply elem_of_seq in Hin as (? & ? & g & _ & Hg & ->).
        by eapply (IH fmt ltac:(lia)).
Qed.

(** A datetime read by [strptime] has no microseconds. *)
Lemma strptime_microsecond text format dt :
  strptime text format = Some dt → microsecond dt = 0.
Proof.
  unfold strptime.
  destruct (pattern (list_ascii_of_string format) false) as [re|] eqn:Hre;
    [|done]. simpl.
  destruct (head (re (list_ascii_of_string text))) as [[f rest]|] eqn:Hhd;
    [|done]. simpl.
  case_decide; [|done]. destruct (check_fields (f defaults)); [|done].
  intros [= <-]. apply head_Some_elem_of in Hhd.
  by rewrite (pattern_microsecond _ _ _ _ _ _ defaults Hre Hhd).
Qed.

End strptime.

(** X3.  In a time zone whose offsets are whole seconds, as those of pytz
    are, every instant is a whole second: the generator never stops with
    the ValueError for non-integer seconds, only at a text [strptime]
    refuses, a row without a field, or a datetime without an offset. *)
Lemma whole_second_offsets_never_fractional tz rows text :
  (∀ dt utcoffset,
     Datetime.localize tz dt = Some utcoffset → utcoffset mod 1000000 = 0) →
  Load.raised (Load.generate_timestamped_rows rows tz)
    ≠ Some (NonIntegerSeconds text).
Proof.
  intros Htz. induction rows as [|row rows IH]; simpl; [done|].
  destruct (Load.timestamped_row tz row) as [e|out] eqn:Hrow; simpl; [|done].
  intros [= ->]. unfold Load.timestamped_row in Hrow.
  destruct row as [|t fields]; [done|].
  destruct (Datetime.strptime t Load.ISO_8601_FORMAT) as [naive|] eqn:Hp;
    [|done].
  destruct (Datetime.localize tz naive) as [off|] eqn:Hoff; [|done].
  destruct (Datetime.is_integer _) eqn:Hint; [done|].
  apply bool_decide_eq_false in Hint. apply Hint.
  unfold Datetime.timestamp, Datetime.naive_microseconds.
  rewrite (strptime_microsecond _ _ _ Hp).
  specialize (Htz _ _ Hoff).
  rewrite Z.add_0_r, Zminus_mod, Z_mod_mult, Htz. done.
Qed.

(** ** Epochs as int64 *)

Lemma int64_small z : - 2 ^ 63 ≤ z < 2 ^ 63 → Np.int64 z = z.
Proof.
  unfold Np.int64.
  change (2 ^ 63) with 9223372036854775808.
  change (2 ^ 64) with 18446744073709551616.
  intros Hz. rewrite Z.mod_small; lia.
Qed.

(** On epochs within 2^62 of zero the differences numpy computes on int64
    are the differences of the integers. *)
Lemma diff_int64 a :
  Forall (λ x, - 2 ^ 62 ≤ x < 2 ^ 62) a →
  Np.int64 <$> a = a ∧
  ∀ i x y, a !! i = Some x → a !! S i = Some y →
           Np.int64 (Np.int64 y - Np.int64 x) = y - x.
Proof.
  change (2 ^ 62) with 4611686018427387904.
  pose proof int64_small as Hsmall.
  change (2 ^ 63) with 9223372036854775808 in Hsmall.
  intros Ha. rewrite Forall_forall in Ha. split.
  - induction a as [|x a IH]; [done|].
    rewrite fmap_cons, IH by (intros y Hy; apply Ha; by right).
    rewrite Hsmall; [done|]. specialize (Ha x ltac:(left)).
    cbv beta in Ha. lia.
  - intros i x y Hx%list_elem_of_lookup_2 Hy%list_elem_of_lookup_2.
    specialize (Ha x Hx) as Hx'. specialize (Ha y Hy) as Hy'.
    cbv beta in Hx', Hy'.
    rewrite (Hsmall x), (Hsmall y), (Hsmall (y - x)) by lia. done.
Qed.

Lemma days_before_month_range y m :
  1 ≤ m ≤ 12 → 0 ≤ Datetime._days_before_month y m ≤ 335.
Proof.
  intros Hm. unfold Datetime._days_before_month.
  assert (∃ k : nat, (1 ≤ k ≤ 12)%nat ∧ Z.to_nat m = k) as (k & Hk & ->)
    by (exists (Z.to_nat m); lia).
  destruct (bool_decide (2 < m) && Datetime._is_leap y);
    do 13 (destruct k as [|k]; [simpl; lia|]); lia.
Qed.

(** X4.  An epoch the normaliser yields, for a zone whose offsets are
    within a day as Python requires, is within 2^38 of zero: it fits the
    SQLite INTEGER and the int64 of numpy with room for any difference of
    two epochs. *)
Lemma epoch_range tz row epoch fields :
  (∀ dt utcoffset, Datetime.localize tz dt = Some utcoffset →
                   - 86400000000 < utcoffset < 86400000000) →
  Load.timestamped_row tz row = inr (epoch, fields) →
  - 2 ^ 38 < epoch < 2 ^ 38.
Proof.
  change (2 ^ 38) with 274877906944.
  intros Htz. unfold Load.timestamped_row.
  destruct row as [|text fs]; [done|].
  destruct (Datetime.strptime text Load.ISO_8601_FORMAT) as [dt|] eqn:Hp;
    [|done].
  destruct (Datetime.localize tz dt) as [off|] eqn:Hoff; [|done].
  destruct (Datetime.is_integer _) eqn:Hint; [|done]. simpl.
  intros [= <- _]. specialize (Htz _ _ Hoff).
  assert (Datetime.check_fields dt = true) as Hfields.
  { unfold Datetime.strptime in Hp.
    destruct (Datetime.pattern _ _) as [re|]; [|done]. simpl in Hp.
    destruct (head _) as [[f rest]|]; [|done]. simpl in Hp.
    case_decide; [|done].
    destruct (Datetime.check_fields (f Datetime.defaults)) eqn:E; [|done].
    by injection Hp as <-. }
  unfold Datetime.check_fields in Hfields.
  rewrite !andb_true_iff, !bool_decide_eq_true in Hfields.
  destruct Hfields as ((((((Hy & Hm) & Hd) & HH) & HM) & HS) & Hus).
  pose proof (days_in_month_le (Datetime.year dt) (Datetime.month dt)).
  pose proof (days_before_month_range (Datetime.year dt) _ Hm).
  apply bool_decide_eq_true in Hint.
  assert (- 62308000000000000 ≤ Datetime.timestamp dt off
          ≤ 253500000000000000) as Hrange.
  { unfold Datetime.timestamp, Datetime.naive_microseconds,
      Datetime._ymd2ord, Datetime._days_before_year.
    set (y := Datetime.year dt - 1).
    assert (0 ≤ y ≤ 9998) as Hy' by (unfold y; lia).
    assert (0 ≤ y / 4 < 2500)
      by (split; [apply Z.div_pos | apply Z.div_lt_upper_bound]; lia).
    assert (0 ≤ y / 100 < 100)
      by (split; [apply Z.div_pos | apply Z.div_lt_upper_bound]; lia).
    assert (0 ≤ y / 400 < 25)
      by (split; [apply Z.div_pos | apply Z.div_lt_upper_bound]; lia).
    clearbody y. clear Hp Hoff Hint.
    generalize dependent (y / 4). generalize dependent (y / 100).
    generalize dependent (y / 400).
    generalize dependent
      (Datetime._days_before_month (Datetime.year dt) (Datetime.month dt)).
    generalize dependent
      (Datetime._days_in_month (Datetime.year dt) (Datetime.month dt)).
    intros. lia. }
  unfold Datetime.int.
  pose proof (Z.quot_rem' (Datetime.timestamp dt off) 1000000) as E.
  assert (Z.rem (Datetime.timestamp dt off) 1000000 = 0) as Hrem
    by (by apply Z.rem_mod_eq_0).
  generalize dependent (Datetime.timestamp dt off ÷ 1000000).
  generalize dependent (Datetime.timestamp dt off).
  intros. lia.
Qed.

(** ** The grid builder on int64 *)

Section grid_int64.
Context {V : Type} `{Float V}.
Implicit Types db : Db.Store V.






End grid_int64.



(** * Further properties of [load.py] *)

(** ** [generate_timestamped_rows] *)

(** X1.  A file whose rows start with a valid datetime written
    [YYYY-MM-DD HH:MM:SS], in a zone that gives each of them an offset of
    whole seconds, is normalised to its end: no exception, and row for row
    the seconds since 1970 less the offset, followed by the other fields
    as they were. *)
Theorem well_formed_rows_all_yielded tz (inputs : list (Datetime.datetime * list string)) :
  (∀ dt fields, (dt, fields) ∈ inputs →
     Datetime.check_fields dt = true ∧ Datetime.microsecond dt = 0 ∧
     ∃ utcoffset, Datetime.localize tz dt = Some (utcoffset * 1000000)) →
  let g := Load.generate_timestamped_rows
             ((λ r, iso_text r.1 :: r.2) <$> inputs) tz in
  Load.raised g = None ∧
  Forall2 (λ r out,
             out.2 = r.2 ∧
             ∃ utcoffset,
               Datetime.localize tz r.1 = Some (utcoffset * 1000000) ∧
               out.1 = naive_seconds r.1 - utcoffset)
          inputs (Load.yielded g).
Proof.
  intros Hin. induction inputs as [|[dt fields] inputs IH]; simpl.
  { split; [done | constructor]. }
  destruct (Hin dt fields ltac:(left)) as (Hcheck & Hus & off & Hoff).
  destruct IH as [IHr IHy];
    [intros dt' fields' Hin'; apply (Hin dt' fields'); by right|].
  rewrite (strptime_iso_text dt Hcheck Hus), Hoff.
  assert (Datetime.timestamp dt (off * 1000000)
          = (naive_seconds dt - off) * 1000000) as E.
  { unfold Datetime.timestamp, Datetime.naive_microseconds, naive_seconds.
    rewrite Hus. lia. }
  rewrite E. unfold Datetime.is_integer, Datetime.int.
  rewrite bool_decide_eq_true_2 by apply Z_mod_mult.
  rewrite Z.quot_mul by lia. simpl. split; [done|].
  constructor; [|done]. simpl. eauto.
Qed.

Lemma well_formed_rows_all_yielded_witness :
  let dt := {| Datetime.year := 2020; Datetime.month := 2;
               Datetime.day := 29; Datetime.hour := 23;
               Datetime.minute := 59; Datetime.second := 59;
               Datetime.microsecond := 0 |} in
  let inputs := [(dt, ["1.5"; "note"]%string)] in
  (∀ dt' fields, (dt', fields) ∈ inputs →
     Datetime.check_fields dt' = true ∧ Datetime.microsecond dt' = 0 ∧
     ∃ utcoffset,
       Datetime.localize Scenario.Africa_Lagos dt'
         = Some (utcoffset * 1000000)) ∧
  iso_text dt = "2020-02-29 23:59:59"%string ∧
  Load.generate_timestamped_rows [["2020-02-29 23:59:59"; "1.5"; "note"]%string]
    Scenario.Africa_Lagos =
    {| Load.yielded := [(1583017199, ["1.5"; "note"]%string)];
       Load.raised := None |}.
Proof.
  intros dt inputs.
  assert (∀ dt' fields, (dt', fields) ∈ inputs →
     Datetime.check_fields dt' = true ∧ Datetime.microsecond dt' = 0 ∧
     ∃ utcoffset,
       Datetime.localize Scenario.Africa_Lagos dt'
         = Some (utcoffset * 1000000)) as Hin.
  { intros dt' fields [= -> ->]%list_elem_of_singleton.
    split_and!; [reflexivity | reflexivity | by exists 3600]. }
  split; [exact Hin|]. split; [reflexivity|].
  destruct (well_formed_rows_all_yielded Scenario.Africa_Lagos inputs Hin)
    as [Hr Hy].
  by vm_compute.
Defined.

(** X2.  The rows the generator yields are the leading rows of its input,
    in their order: never more than the input has, all of them exactly
    when no exception ends it, and each the normalisation of the input row
    at its place, whose fields after the first it carries unchanged. *)
Theorem yielded_rows_follow_input tz rows :
  let g := Load.generate_timestamped_rows rows tz in
  (length (Load.yielded g) ≤ length rows)%nat ∧
  (Load.raised g = None ↔ length (Load.yielded g) = length rows) ∧
  ∀ i out, Load.yielded g !! i = Some out →
    ∃ text, rows !! i = Some (text :: out.2) ∧
            Load.timestamped_row tz (text :: out.2) = inr out.
Proof.
  induction rows as [|row rows (IHlen & IHr & IHi)]; simpl.
  { split_and!; [done | done | by intros ??]. }
  destruct (Load.timestamped_row tz row) as [e|out] eqn:Hrow; simpl.
  - split_and!; [lia | split; [done | lia] | by intros ??].
  - split_and!; [lia | rewrite IHr; lia |].
    intros [|i] out' Hi.
    + injection Hi as <-. unfold Load.timestamped_row in Hrow.
      destruct row as [|text fields]; [done|]. exists text.
      assert (out.2 = fields) as ->; [|done].
      destruct (Datetime.strptime _ _); [|done].
      destruct (Datetime.localize _ _); [|done].
      destruct (negb _); [done|]. by injection Hrow as <-.
    + by apply IHi.
Qed.

Lemma whole_second_offsets_never_fractional_witness :
  (∀ dt utcoffset,
     Datetime.localize Scenario.Africa_Lagos dt = Some utcoffset →
     utcoffset mod 1000000 = 0) ∧
  Load.raised
    (Load.generate_timestamped_rows
       [["2020-01-01 00:00:00"; "1.5"]; ["2020-01-01 00:00:00.5"; "2"]]%string
       Scenario.Africa_Lagos)
    ≠ Some (NonIntegerSeconds "2020-01-01 00:00:00.5").
Proof.
  assert (∀ dt utcoffset,
     Datetime.localize Scenario.Africa_Lagos dt = Some utcoffset →
     utcoffset mod 1000000 = 0) as Htz
    by (intros dt off [= <-]; reflexivity).
  split; [exact Htz|].
  exact (whole_second_offsets_never_fractional Scenario.Africa_Lagos _ _ Htz).
Defined.

Lemma epoch_range_witness :
  (∀ dt utcoffset,
     Datetime.localize Scenario.Africa_Lagos dt = Some utcoffset →
     - 86400000000 < utcoffset < 86400000000) ∧
  Load.timestamped_row Scenario.Africa_Lagos
    ["9999-12-31 23:59:59"; "0"]%string = inr (253402297199, ["0"%string]) ∧
  - 2 ^ 38 < 253402297199 < 2 ^ 38.
Proof.
  assert (∀ dt utcoffset,
     Datetime.localize Scenario.Africa_Lagos dt = Some utcoffset →
     - 86400000000 < utcoffset < 86400000000) as Htz
    by (intros dt off [= <-]; lia).
  assert (Load.timestamped_row Scenario.Africa_Lagos
            ["9999-12-31 23:59:59"; "0"]%string
          = inr (253402297199, ["0"%string])) as Hrow
    by (vm_compute; reflexivity).
  split; [exact Htz|]. split; [exact Hrow|].
  exact (epoch_range Scenario.Africa_Lagos _ _ _ Htz Hrow).
Defined.

(** X5.  A row without a field, as [csv.reader] makes of a blank line,
    ends the generator with IndexError; the rows before it have been
    yielded and the rows after it are not read. *)
Theorem blank_row_raises_IndexError tz pre outs post :
  Load.generate_timestamped_rows pre tz =
    {| Load.yielded := outs; Load.raised := None |} →
  Load.generate_timestamped_rows (pre ++ [] :: post) tz =
    {| Load.yielded := outs; Load.raised := Some IndexError |}.
Proof.
  intros Hpre. rewrite (generate_timestamped_rows_app _ _ _ _ Hpre).
  simpl. by rewrite app_nil_r.
Qed.

Lemma blank_row_raises_IndexError_witness :
  let pre := [["2020-01-01 00:00:00"; "1.5"]]%string in
  let outs := [(1577833200, ["1.5"%string])] in
  Load.generate_timestamped_rows pre Scenario.Africa_Lagos =
    {| Load.yielded := outs; Load.raised := None |} ∧
  Load.generate_timestamped_rows
    (pre ++ [] :: [["2020-01-01 01:00:00"; "2"]%string])
    Scenario.Africa_Lagos =
    {| Load.yielded := outs; Load.raised := Some IndexError |}.
Proof.
  intros pre outs.
  assert (Load.generate_timestamped_rows pre Scenario.Africa_Lagos =
            {| Load.yielded := outs; Load.raised := None |}) as Hpre
    by (vm_compute; reflexivity).
  split; [exact Hpre|].
  exact (blank_row_raises_IndexError Scenario.Africa_Lagos pre outs _ Hpre).
Defined.

(** ** [load_data] *)

Lemma load_data_staged_witness :
  let rainfall := [(0, 0%Q); (3600, 5%Q); (7200, 10%Q)] in
  let zeta := [(-1800, 1%Q); (9000, 2%Q)] in
  (∀ db : Db.Store Q,
     Load.read_header Scenario.precipitation_file db
     = Db.Ok (tail Scenario.precipitation_file) db) ∧
  Load.generate_timestamped_rows (tail Scenario.water_level_file)
    Scenario.Africa_Lagos =
    {| Load.yielded := [(-1800, ["1"%string]); (9000, ["2"%string])];
       Load.raised := None |} ∧
  Load.bind_rows Scenario.read_Q
    [(-1800, ["1"%string]); (9000, ["2"%string])] = (zeta, true) ∧
  Load.load_data Scenario.read_Q Scenario.precipitation_file
    Scenario.evapotranspiration_file Scenario.water_level_file
    Scenario.Africa_Lagos Db.empty =
  match Load.align (Db.staged rainfall [] zeta) with
  | Db.Ok _ db => Db.Ok () db
  | Db.Raise exn db => Db.Raise exn db
  end.
Proof.
  intros rainfall zeta.
  assert (∀ db : Db.Store Q,
     Load.read_header Scenario.precipitation_file db
     = Db.Ok (tail Scenario.precipitation_file) db) as Hp by done.
  assert (Load.generate_timestamped_rows (tail Scenario.water_level_file)
            Scenario.Africa_Lagos =
          {| Load.yielded := [(-1800, ["1"%string]); (9000, ["2"%string])];
             Load.raised := None |}) as Hgw by (vm_compute; reflexivity).
  assert (Load.bind_rows Scenario.read_Q
            [(-1800, ["1"%string]); (9000, ["2"%string])] = (zeta, true))
    as Hbw by (vm_compute; reflexivity).
  split_and!; [exact Hp | exact Hgw | exact Hbw |].
  apply (load_data_staged Scenario.read_Q Scenario.Africa_Lagos
           Scenario.precipitation_file Scenario.evapotranspiration_file
           Scenario.water_level_file
           (tail Scenario.precipitation_file)
           (tail Scenario.evapotranspiration_file)
           (tail Scenario.water_level_file)
           [(0, ["0"%string]); (3600, ["5"%string]); (7200, ["10"%string])]
           [] [(-1800, ["1"%string]); (9000, ["2"%string])]);
    solve [done | vm_compute; reflexivity].
Defined.

Section load_data_errors.
Context {V : Type} `{Float V} (sql_value : string → V).

(** X7.  When the first column of the precipitation header, in lower case,
    does not start with [datetime], [load_data] stops with AssertionError
    before it reads a row: no table is touched, whatever the other files
    hold. *)
Theorem header_mismatch_stops_before_rows h0 columns rows e w tz
    (db : Db.Store V) :
  Py.startswith (Py.lower h0) "datetime" = false →
  Load.load_data sql_value ((h0 :: columns) :: rows) e w tz db
  = Db.Raise AssertionError db.
Proof.
  intros Hh. unfold Load.load_data, Db.bind, Load.read_header.
  by rewrite Hh.
Qed.

(** X8.  When a row of the water-level file stops the generator, after
    two files that load and water-level rows that are accepted,
    [load_data] raises that exception with the rainfall and
    evapotranspiration series staged in full and the water level staged up
    to that row; it has written no time step, no grid and no aligned
    row. *)
Theorem water_level_row_error_stops_before_grid tz p e header pre row post
    exn p_rows e_rows p_out e_out w_out rainfall et zeta :
  (∀ db : Db.Store V, Load.read_header p db = Db.Ok p_rows db) →
  (∀ db : Db.Store V, Load.read_header e db = Db.Ok e_rows db) →
  (∀ db : Db.Store V,
     Load.read_header (header :: pre ++ row :: post) db
     = Db.Ok (pre ++ row :: post) db) →
  Load.generate_timestamped_rows p_rows tz =
    {| Load.yielded := p_out; Load.raised := None |} →
  Load.generate_timestamped_rows e_rows tz =
    {| Load.yielded := e_out; Load.raised := None |} →
  Load.generate_timestamped_rows pre tz =
    {| Load.yielded := w_out; Load.raised := None |} →
  Load.timestamped_row tz row = inl exn →
  Load.bind_rows sql_value p_out = (rainfall, true) →
  Load.bind_rows sql_value e_out = (et, true) →
  Load.bind_rows sql_value w_out = (zeta, true) →
  Load.load_data sql_value p e (header :: pre ++ row :: post) tz Db.empty
  = Db.Raise exn (Db.staged rainfall et zeta).
Proof.
  intros Hp He Hw Hgp Hge Hgw Hrow Hbp Hbe Hbw.
  unfold Load.load_data, Load.executemany, Db.bind.
  rewrite Hp, Hgp. simpl. rewrite Hbp. simpl.
  rewrite He, Hge. simpl. rewrite Hbe. simpl.
  rewrite Hw, (generate_timestamped_rows_app _ _ _ _ Hgw). simpl.
  rewrite Hrow. simpl. rewrite app_nil_r, Hbw. done.
Qed.

End load_data_errors.

Lemma header_mismatch_stops_before_rows_witness :
  Py.startswith (Py.lower "Time") "datetime" = false ∧
  Load.load_data Scenario.read_Q
    (["Time"; "Rainfall (mm/h)"]%string :: tail Scenario.precipitation_file)
    Scenario.evapotranspiration_file Scenario.water_level_file
    Scenario.Africa_Lagos Db.empty
  = Db.Raise AssertionError Db.empty.
Proof.
  assert (Py.startswith (Py.lower "Time") "datetime" = false) as Hh
    by reflexivity.
  split; [exact Hh|].
  exact (header_mismatch_stops_before_rows Scenario.read_Q "Time" _ _ _ _ _
           Db.empty Hh).
Defined.

Lemma water_level_row_error_stops_before_grid_witness :
  let row := ["1970-01-01 03:30:00.5"; "2"]%string in
  let w := ["datetime"; "mm"]%string
           :: [["1970-01-01 00:30:00"; "1"]%string] ++ row :: [] in
  Load.timestamped_row Scenario.Africa_Lagos row
    = inl (TimeDataMismatch "1970-01-01 03:30:00.5") ∧
  Load.generate_timestamped_rows [["1970-01-01 00:30:00"; "1"]%string]
    Scenario.Africa_Lagos =
    {| Load.yielded := [(-1800, ["1"%string])]; Load.raised := None |} ∧
  Load.load_data Scenario.read_Q Scenario.precipitation_file
    Scenario.evapotranspiration_file w Scenario.Africa_Lagos Db.empty
  = Db.Raise (TimeDataMismatch "1970-01-01 03:30:00.5")
      (Db.staged [(0, 0%Q); (3600, 5%Q); (7200, 10%Q)] [] [(-1800, 1%Q)]).
Proof.
  intros row w.
  assert (Load.timestamped_row Scenario.Africa_Lagos row
          = inl (TimeDataMismatch "1970-01-01 03:30:00.5")) as Hrow
    by (vm_compute; reflexivity).
  assert (Load.generate_timestamped_rows
            [["1970-01-01 00:30:00"; "1"]%string] Scenario.Africa_Lagos =
          {| Load.yielded := [(-1800, ["1"%string])]; Load.raised := None |})
    as Hgw by (vm_compute; reflexivity).
  split_and!; [exact Hrow | exact Hgw |].
  apply (water_level_row_error_stops_before_grid Scenario.read_Q
           Scenario.Africa_Lagos Scenario.precipitation_file
           Scenario.evapotranspiration_file ["datetime"; "mm"]%string
           [["1970-01-01 00:30:00"; "1"]%string] row []
           (TimeDataMismatch "1970-01-01 03:30:00.5")
           (tail Scenario.precipitation_file)
           (tail Scenario.evapotranspiration_file)
           [(0, ["0"%string]); (3600, ["5"%string]); (7200, ["10"%string])]
           [] [(-1800, ["1"%string])]);
    solve [done | vm_compute; reflexivity].
Defined.

(** ** [populate_grid_time] *)

Section grid_builder_more.
Context {V : Type} `{Float V}.
Implicit Types db : Db.Store V.

(** X9.  [populate_grid_time] returns exactly when two or more staged
    rainfall epochs lie within the water-level range and they are evenly
    spaced; in every other case it raises. *)
Theorem grid_builder_returns_iff db :
  (∃ time_grid time_step db',
     Load.populate_grid_time db = Db.Ok (time_grid, time_step) db') ↔
  (2 ≤ length (Db.overlap_epochs db))%nat ∧
  ∃ time_step, evenly_spaced (Db.overlap_epochs db) time_step.
Proof.
  split.
  - intros (g & s & db' & Hok).
    destruct (populate_grid_time_candidates _ _ _ _ Hok). eauto.
  - intros [Hlen [s Hs]].
    destruct (populate_grid_time_succeeds db s Hlen) as (l & _ & Hok).
    { by apply evenly_spaced_diff. }
    eauto.
Qed.

Lemma sql_min_Permutation (l k : list Z) :
  l ≡ₚ k → Db.sql_min l = Db.sql_min k.
Proof.
  intros Hp.
  destruct (Db.sql_min l) as [m|] eqn:Hl.
  - symmetry. apply sql_min_Some. apply sql_min_Some in Hl as [Hin Hle].
    split; [by rewrite <-Hp | intros e He; apply Hle; by rewrite Hp].
  - destruct l; [|done]. apply Permutation_nil_l in Hp. by subst.
Qed.

Lemma sql_max_Permutation (l k : list Z) :
  l ≡ₚ k → Db.sql_max l = Db.sql_max k.
Proof.
  intros Hp.
  destruct (Db.sql_max l) as [m|] eqn:Hl.
  - symmetry. apply sql_max_Some. apply sql_max_Some in Hl as [Hin Hle].
    split; [by rewrite <-Hp | intros e He; apply Hle; by rewrite Hp].
  - destruct l; [|done]. apply Permutation_nil_l in Hp. by subst.
Qed.

(** X10.  The grid does not depend on the order in which the samples were
    staged: two databases whose rainfall rows, and whose water-level rows,
    are the same up to order give the same grid and step, or the same
    exception. *)
Theorem grid_independent_of_staging_order db db' :
  Db.rainfall_intensity_staging db ≡ₚ Db.rainfall_intensity_staging db' →
  Db.water_level_staging db ≡ₚ Db.water_level_staging db' →
  outcome (Load.populate_grid_time db) = outcome (Load.populate_grid_time db').
Proof.
  intros Hr Hw.
  assert (Db.overlap_epochs db = Db.overlap_epochs db') as Hcand.
  { unfold Db.overlap_epochs.
    rewrite (sql_min_Permutation (Db.water_level_staging db).*1
               (Db.water_level_staging db').*1),
      (sql_max_Permutation (Db.water_level_staging db).*1
         (Db.water_level_staging db').*1)
      by (by apply fmap_Permutation).
    apply (Sorted_unique Z.le).
    - apply (Sorted_merge_sort Z.le).
    - apply (Sorted_merge_sort Z.le).
    - rewrite !merge_sort_Permutation.
      destruct (Db.sql_min (Db.water_level_staging db').*1),
        (Db.sql_max (Db.water_level_staging db').*1); try done.
      by rewrite Hr. }
  unfold Load.populate_grid_time, Db.bind, Db.select_overlap_epochs.
  rewrite Hcand.
  destruct (decide _); [done|]. unfold Db.lift.
  destruct (Py.index (Py.sorted_set _) 0); [|done]. simpl.
  by destruct (Py.index (Db.overlap_epochs db') (-1)).
Qed.

End grid_builder_more.

Lemma grid_independent_of_staging_order_witness :
  let shuffled : Db.Store Q :=
    Db.staged [(7200, 10%Q); (0, 0%Q); (3600, 5%Q)] []
              [(9000, 2%Q); (-1800, 1%Q)] in
  Db.rainfall_intensity_staging Scenario.A
    ≡ₚ Db.rainfall_intensity_staging shuffled ∧
  Db.water_level_staging Scenario.A ≡ₚ Db.water_level_staging shuffled ∧
  outcome (Load.populate_grid_time Scenario.A)
    = inr ([0; 3600; 7200; 10800], 3600) ∧
  outcome (Load.populate_grid_time Scenario.A)
    = outcome (Load.populate_grid_time shuffled).
Proof.
  intros shuffled.
  assert (Db.rainfall_intensity_staging Scenario.A
            ≡ₚ Db.rainfall_intensity_staging shuffled) as Hr.
  { symmetry. apply (Permutation_cons_append [(0, 0%Q); (3600, 5%Q)]). }
  assert (Db.water_level_staging Scenario.A
            ≡ₚ Db.water_level_staging shuffled) as Hw
    by (simpl; apply perm_swap).
  split_and!; [exact Hr | exact Hw | by vm_compute |].
  exact (grid_independent_of_staging_order Scenario.A shuffled Hr Hw).
Defined.

(** ** [populate_rainfall_intensity] and [populate_water_level] *)

Section resamplers_more.
Context {V : Type} `{Float V}.
Implicit Types db : Db.Store V.

(** X11.  On a grid of fewer than two points [populate_rainfall_intensity]
    raises IndexError, from [time_grid[-2]], before it runs its statement:
    the database is as it was. *)
Theorem short_grid_raises_IndexError time_grid time_step db :
  (length time_grid < 2)%nat →
  Load.populate_rainfall_intensity time_grid time_step db
  = Db.Raise IndexError db.
Proof.
  intros Hlen. unfold Load.populate_rainfall_intensity, Db.bind, Py.index.
  rewrite decide_False by lia. by rewrite decide_False by lia.
Qed.

(** X12.  On a water-level table without a row [populate_water_level]
    raises the ValueError of unpacking no values into two names, and
    writes nothing. *)
Theorem no_water_level_rows_raises time_grid time_step db :
  Db.water_level_staging db = [] →
  Load.populate_water_level time_grid time_step db
  = Db.Raise NotEnoughValues db.
Proof.
  intros Hw.
  unfold Load.populate_water_level, Db.bind, Db.select_water_level_staging.
  by rewrite Hw.
Qed.

Lemma align_Ok_grid db time_grid time_step db3 :
  Load.align db = Db.Ok (time_grid, time_step) db3 →
  ∃ db1, Load.populate_grid_time db = Db.Ok (time_grid, time_step) db1.
Proof.
  unfold Load.align, Db.bind. intros Halign.
  destruct (Load.populate_grid_time db) as [[g s] db1|]; [|done].
  destruct (Load.populate_rainfall_intensity g s db1) as [[] db2|]; [|done].
  destruct (Load.populate_water_level g s db2) as [[] ?|]; [|done].
  injection Halign as -> -> _. eauto.
Qed.

(** X13.  On fresh tables, an alignment that returns has left the staged
    series as they were, and holds the grid it returns and one water-level
    row for each grid point but the last, at that point's epoch. *)
Theorem completed_alignment_tables db time_grid time_step db3 :
  Db.grid_time db = [] → Db.rainfall_intensity db = [] →
  Db.water_level db = [] →
  Load.align db = Db.Ok (time_grid, time_step) db3 →
  Db.rainfall_intensity_staging db3 = Db.rainfall_intensity_staging db ∧
  Db.water_level_staging db3 = Db.water_level_staging db ∧
  Db.grid_time db3 = time_grid ∧
  (Db.water_level db3).*1 = Py.slice_to time_grid (-1) ∧
  S (length (Db.water_level db3)) = length time_grid.
Proof.
  intros Hg Hr Hw Halign.
  destruct (align_Ok_grid _ _ _ _ Halign) as [db1 Hok].
  destruct (align_returns _ _ _ _ Hg Hr Hw Hok)
    as (bound & ys & db3' & Halign' & _ & Hslice & Hys & Hwls & Hgt & _
        & Hrows).
  rewrite Halign' in Halign. injection Halign as ->.
  unfold Np.interp in Hys. case_decide; [done|].
  apply mapM_Some, Forall2_length in Hys.
  assert (Db.rainfall_intensity_staging db3 = Db.rainfall_intensity_staging db)
    as Hris.
  { unfold Load.align, Db.bind in Halign'. rewrite Hok in Halign'.
    destruct (populate_rainfall_intensity_after_grid _ _ _ _ Hok)
      as (b & _ & _ & _ & -> & Hpop).
    rewrite Hpop in Halign'.
    unfold Db.insert_rainfall_intensity in Halign'.
    match type of Halign' with
    | context [Load.populate_water_level _ _ ?db2] =>
        destruct (Load.populate_water_level time_grid time_step db2)
          as [[] db4|e db4] eqn:Hpwl; [|done];
        assert (Db.rainfall_intensity_staging db4
                = Db.rainfall_intensity_staging db2) as Hsame
    end.
    { unfold Load.populate_water_level, Db.bind,
        Db.select_water_level_staging in Hpwl.
      destruct (Db.by_epoch _) as [|??]; [done|].
      cbn [Db.lift Db.ret] in Hpwl.
      destruct (Np.interp _ _ _); [|done].
      cbn [Db.lift Db.ret Db.insert_water_level] in Hpwl.
      by injection Hpwl as <-. }
    cbn [Db.ret] in Halign'. injection Halign' as <-. by rewrite Hsame. }
  split_and!; try done.
  - rewrite Hrows, Hslice. by rewrite fst_zip by lia.
  - rewrite Hrows, length_zip, <-Hys, Nat.min_id.
    apply populate_grid_time_Ok in Hok as (l & _ & _ & -> & _).
    rewrite length_app. simpl. lia.
Qed.


End resamplers_more.

Lemma short_grid_raises_IndexError_witness :
  (length [3600] < 2)%nat ∧
  Load.populate_rainfall_intensity [3600] 3600 Scenario.A
  = Db.Raise IndexError Scenario.A.
Proof.
  assert (length [3600] < 2)%nat as Hlen by (simpl; lia).
  split; [exact Hlen|].
  exact (short_grid_raises_IndexError [3600] 3600 Scenario.A Hlen).
Defined.

Lemma no_water_level_rows_raises_witness :
  Db.water_level_staging Scenario.no_water_level = [] ∧
  Load.populate_water_level [0; 3600; 7200] 3600 Scenario.no_water_level
  = Db.Raise NotEnoughValues Scenario.no_water_level.
Proof.
  split; [reflexivity|].
  exact (no_water_level_rows_raises [0; 3600; 7200] 3600
           Scenario.no_water_level eq_refl).
Defined.

Lemma scenario_A_align :
  ∃ db3, Load.align Scenario.A = Db.Ok ([0; 3600; 7200; 10800], 3600) db3.
Proof. eexists. vm_compute. reflexivity. Defined.

Lemma completed_alignment_tables_witness :
  ∃ db3,
    Db.grid_time Scenario.A = [] ∧ Db.rainfall_intensity Scenario.A = [] ∧
    Db.water_level Scenario.A = [] ∧
    Load.align Scenario.A = Db.Ok ([0; 3600; 7200; 10800], 3600) db3 ∧
    Db.rainfall_intensity_staging db3
      = Db.rainfall_intensity_staging Scenario.A ∧
    Db.water_level_staging db3 = Db.water_level_staging Scenario.A ∧
    Db.grid_time db3 = [0; 3600; 7200; 10800] ∧
    (Db.water_level db3).*1 = Py.slice_to [0; 3600; 7200; 10800] (-1) ∧
    S (length (Db.water_level db3)) = length [0; 3600; 7200; 10800].
Proof.
  destruct scenario_A_align as [db3 Halign]. exists db3.
  split; [reflexivity|]. split; [reflexivity|]. split; [reflexivity|].
  split; [exact Halign|].
  exact (completed_alignment_tables Scenario.A _ _ _
           eq_refl eq_refl eq_refl Halign).
Defined.


(** ** The water level between, at and outside the staged samples *)

(** A point within the range of an ascending list is one of its items or
    lies strictly between two neighbours. *)
Lemma Sorted_lt_enclosure (xs : list Z) lo hi x :
  Sorted Z.lt xs → lo ∈ xs → hi ∈ xs → lo ≤ x ≤ hi →
  x ∈ xs ∨
  ∃ j e0 e1, xs !! j = Some e0 ∧ xs !! S j = Some e1 ∧ e0 < x < e1.
Proof.
  intros Hs. revert lo. induction xs as [|a t IH]; intros lo Hlo Hhi Hx.
  { by apply elem_of_nil in Hlo. }
  assert (Forall (Z.lt a) t) as Hall.
  { apply Sorted_StronglySorted in Hs; [|intros ???; lia].
    by apply StronglySorted_inv in Hs as [_ ?]. }
  assert (a ≤ lo) as Ha.
  { apply elem_of_cons in Hlo as [->|Hlo]; [lia|].
    rewrite Forall_forall in Hall. specialize (Hall _ Hlo). lia. }
  destruct (decide (x = a)) as [->|Hne]; [left; left|].
  apply elem_of_cons in Hhi as [->|Hhi]; [lia|].
  destruct t as [|b t']; [by apply elem_of_nil in Hhi|].
  destruct (decide (x < b)) as [Hlt|Hge].
  { right. exists 0%nat, a, b. simpl. split_and!; try done; lia. }
  apply Sorted_inv in Hs as [Hs _].
  destruct (IH Hs b) as [Hin|(j & e0 & e1 & H0 & H1 & Hbetween)];
    [left | done | lia | |].
  - left. by right.
  - right. by exists (S j), e0, e1.
Qed.

Section water_level_shape.
Context {V : Type} `{Float V}.
Implicit Types db : Db.Store V.

(** X15.  When the water level was staged in ascending epoch order, every
    water-level row a run on fresh tables writes is a staged sample
    itself, or lies strictly between two neighbouring staged samples and
    holds the value at its epoch of the line through them: the run never
    extrapolates. *)
Theorem water_level_piecewise_linear_when_ascending db time_grid time_step
    db3 :
  Db.grid_time db = [] → Db.rainfall_intensity db = [] →
  Db.water_level db = [] →
  Sorted Z.lt (Db.water_level_staging db).*1 →
  Load.align db = Db.Ok (time_grid, time_step) db3 →
  ∀ epoch zeta, (epoch, zeta) ∈ Db.water_level db3 →
    (epoch, zeta) ∈ Db.water_level_staging db ∨
    ∃ j e0 w0 e1 w1,
      Db.water_level_staging db !! j = Some (e0, w0) ∧
      Db.water_level_staging db !! S j = Some (e1, w1) ∧
      e0 < epoch < e1 ∧ zeta = Np.lerp e0 w0 e1 w1 epoch.
Proof.
  intros Hg Hr Hw Hs Halign epoch zeta Hin.
  destruct (water_level_interpolated_when_ascending _ _ _ _
              Hg Hr Hw Hs Halign) as [Hfst Hcls].
  destruct (Hcls _ _ Hin) as [Hknot Hbetween].
  destruct (align_Ok_grid _ _ _ _ Halign) as [db1 Hok].
  destruct (align_returns _ _ _ _ Hg Hr Hw Hok)
    as (_ & _ & _ & _ & _ & Hslice & _).
  assert (epoch ∈ Db.overlap_epochs db) as Hc.
  { rewrite <-Hslice, <-Hfst. apply list_elem_of_fmap. by exists (epoch, zeta). }
  destruct (overlap_epochs_nonempty db) as (min_w & max_w & Hmin & Hmax).
  { intros E. rewrite E in Hc. by apply elem_of_nil in Hc. }
  rewrite (overlap_epochs_Permutation db _ _ Hmin Hmax) in Hc.
  apply list_elem_of_filter in Hc as [Hwin _].
  apply sql_min_Some in Hmin as [Hmin _].
  apply sql_max_Some in Hmax as [Hmax _].
  destruct (Sorted_lt_enclosure _ _ _ epoch Hs Hmin Hmax Hwin)
    as [Hk|(j & e0 & e1 & H0 & H1 & Hlt)].
  - left. apply list_elem_of_fmap in Hk as ([e w] & -> & Hk). simpl in *.
    by rewrite (Hknot w Hk).
  - right. rewrite list_lookup_fmap in H0, H1.
    destruct (Db.water_level_staging db !! j) as [[e0' w0]|] eqn:Hj; [|done].
    destruct (Db.water_level_staging db !! S j) as [[e1' w1]|] eqn:Hj';
      [|done].
    simpl in H0, H1. injection H0 as ->. injection H1 as ->.
    exists j, e0, w0, e1, w1. split_and!; try done; try lia.
    by apply (Hbetween j).
Qed.

(** X16.  On a water-level table staged in ascending epoch order
    [populate_water_level] writes one row for each grid point but the
    last; a point before the first staged epoch gets the first staged
    level and a point after the last staged epoch the last staged level
    (flat, not linear, continuation). *)
Theorem water_level_flat_outside_staged_range time_grid time_step db
    e0 w0 en wn :
  Sorted Z.lt (Db.water_level_staging db).*1 →
  head (Db.water_level_staging db) = Some (e0, w0) →
  last (Db.water_level_staging db) = Some (en, wn) →
  ∃ rows,
    Load.populate_water_level time_grid time_step db
      = Db.insert_water_level rows db ∧
    rows.*1 = Py.slice_to time_grid (-1) ∧
    ∀ epoch zeta, (epoch, zeta) ∈ rows →
      (epoch < e0 → zeta = w0) ∧ (en < epoch → zeta = wn).
Proof.
  intros Hs Hhead Hlast.
  assert (Db.water_level_staging db ≠ []) as Hne
    by (intros E; by rewrite E in Hhead).
  destruct (populate_water_level_returns time_grid time_step db Hne)
    as (ys & Hys & Hpop).
  rewrite (by_epoch_sorted_id _ Hs) in Hys.
  set (staging := Db.water_level_staging db) in *.
  assert (length staging.*1 = length staging.*2) as Hl
    by (by rewrite !length_fmap).
  unfold Np.interp in Hys. case_decide; [done|].
  apply mapM_Some in Hys. apply Forall2_length in Hys as Hlen.
  exists (zip (Py.slice_to time_grid (-1)) ys).
  split; [done|]. split; [by rewrite fst_zip by lia|].
  intros epoch zeta (i & Hi)%list_elem_of_lookup.
  apply lookup_zip_with_Some in Hi as (e & z & Heq & He & Hz).
  injection Heq as -> ->.
  destruct (Forall2_lookup_l _ _ _ _ _ Hys He) as (z' & Hz' & Hinterp).
  assert (z' = z) as -> by congruence.
  split; intros Hout.
  - rewrite (interp_at_below staging.*1 staging.*2 e0 e) in Hinterp;
      [| done | done | | done].
    + destruct staging as [|[??] ?]; [done|]. simpl in *. congruence.
    + destruct staging as [|[??] ?]; [done|]. simpl in *. congruence.
  - rewrite (interp_at_above staging.*1 staging.*2 en e) in Hinterp;
      [| done | | done].
    + rewrite fmap_last, Hlast in Hinterp. simpl in Hinterp. congruence.
    + by rewrite fmap_last, Hlast.
Qed.

(** X17.  On a water-level table of one sample [populate_water_level]
    writes that sample's level at every grid point but the last. *)
Theorem single_water_level_sample_is_constant time_grid time_step db e w :
  Db.water_level_staging db = [(e, w)] →
  Load.populate_water_level time_grid time_step db
  = Db.insert_water_level
      ((λ epoch, (epoch, w)) <$> Py.slice_to time_grid (-1)) db.
Proof.
  intros Hone.
  unfold Load.populate_water_level, Db.bind, Db.select_water_level_staging.
  rewrite Hone.
  change (Db.by_epoch [(e, w)]) with [(e, w)]. simpl.
  assert (∀ l : list Z,
            Np.interp l [e] [w] = Some ((λ _, w) <$> l)) as Hconst.
  { intros l. unfold Np.interp. rewrite decide_False by (intros [?|?]; done).
    induction l as [|x l IH]; [done|].
    cbn [mapM]. rewrite IH.
    unfold Np.interp_at. simpl. by repeat case_decide. }
  rewrite Hconst. simpl. f_equal.
  generalize (Py.slice_to time_grid (-1)). intros l.
  induction l as [|x l IH]; [done|]. cbn [fmap list_fmap zip zip_with].
  f_equal. exact IH.
Qed.

End water_level_shape.

Lemma water_level_piecewise_linear_when_ascending_witness :
  ∃ db3,
    Db.grid_time Scenario.A = [] ∧ Db.rainfall_intensity Scenario.A = [] ∧
    Db.water_level Scenario.A = [] ∧
    Sorted Z.lt (Db.water_level_staging Scenario.A).*1 ∧
    Load.align Scenario.A = Db.Ok ([0; 3600; 7200; 10800], 3600) db3 ∧
    ∀ epoch zeta, (epoch, zeta) ∈ Db.water_level db3 →
      (epoch, zeta) ∈ Db.water_level_staging Scenario.A ∨
      ∃ j e0 w0 e1 w1,
        Db.water_level_staging Scenario.A !! j = Some (e0, w0) ∧
        Db.water_level_staging Scenario.A !! S j = Some (e1, w1) ∧
        e0 < epoch < e1 ∧ zeta = Np.lerp e0 w0 e1 w1 epoch.
Proof.
  destruct scenario_A_align as [db3 Halign]. exists db3.
  assert (Sorted Z.lt (Db.water_level_staging Scenario.A).*1) as Hs
    by (repeat constructor).
  split_and!; [reflexivity | reflexivity | reflexivity | exact Hs
               | exact Halign |].
  exact (water_level_piecewise_linear_when_ascending Scenario.A _ _ _
           eq_refl eq_refl eq_refl Hs Halign).
Defined.

Lemma water_level_flat_outside_staged_range_witness :
  Sorted Z.lt (Db.water_level_staging Scenario.A).*1 ∧
  head (Db.water_level_staging Scenario.A) = Some (-1800, 1%Q) ∧
  last (Db.water_level_staging Scenario.A) = Some (9000, 2%Q) ∧
  ∃ rows,
    Load.populate_water_level [-3600; 0; 10800; 14400] 3600 Scenario.A
      = Db.insert_water_level rows Scenario.A ∧
    rows.*1 = Py.slice_to [-3600; 0; 10800; 14400] (-1) ∧
    ∀ epoch zeta, (epoch, zeta) ∈ rows →
      (epoch < -1800 → zeta = 1%Q) ∧ (9000 < epoch → zeta = 2%Q).
Proof.
  assert (Sorted Z.lt (Db.water_level_staging Scenario.A).*1) as Hs
    by (repeat constructor).
  split_and!; [exact Hs | reflexivity | reflexivity |].
  exact (water_level_flat_outside_staged_range [-3600; 0; 10800; 14400] 3600
           Scenario.A (-1800) 1%Q 9000 2%Q Hs eq_refl eq_refl).
Defined.

Lemma single_water_level_sample_is_constant_witness :
  Db.water_level_staging (Db.staged [] [] [(0, 5%Q)]) = [(0, 5%Q)] ∧
  Load.populate_water_level [-60; 0; 60; 120] 60
    (Db.staged [] [] [(0, 5%Q)])
  = Db.insert_water_level
      ((λ epoch, (epoch, 5%Q)) <$> Py.slice_to [-60; 0; 60; 120] (-1))
      (Db.staged [] [] [(0, 5%Q)]).
Proof.
  split; [reflexivity|].
  exact (single_water_level_sample_is_constant [-60; 0; 60; 120] 60
           (Db.staged [] [] [(0, 5%Q)]) 0 5%Q eq_refl).
Defined.

(** ** Evapotranspiration *)

Section evapotranspiration.
Context {V : Type} `{Float V}.
Implicit Types db : Db.Store V.

Lemma ignores_evapotranspiration_ret {A} (a : A) :
  ignores_evapotranspiration (V:=V) (Db.ret a).
Proof. by intros db db' Hsame. Qed.

Lemma ignores_evapotranspiration_raise {A} e :
  ignores_evapotranspiration (V:=V) (A:=A) (Db.raise e).
Proof. by intros db db' Hsame. Qed.

Lemma ignores_evapotranspiration_lift {A} e (o : option A) :
  ignores_evapotranspiration (V:=V) (Db.lift e o).
Proof. by destruct o; intros db db' Hsame. Qed.

Lemma ignores_evapotranspiration_bind {A B} (m : Db.M V A)
    (k : A → Db.M V B) :
  ignores_evapotranspiration m → (∀ a, ignores_evapotranspiration (k a)) →
  ignores_evapotranspiration (Db.bind m k).
Proof.
  intros Hm Hk db db' Hsame. unfold Db.bind.
  destruct (Hm db db' Hsame) as (Hout & Hdb & He & He').
  destruct (m db) as [a s|x s], (m db') as [a' s'|x' s']; simpl in *;
    simplify_eq; [|done].
  destruct (Hk a' s s' Hdb) as (? & ? & ? & ?).
  split_and!; try done; congruence.
Qed.

Lemma ignores_evapotranspiration_populate_grid_time :
  ignores_evapotranspiration (V:=V) Load.populate_grid_time.
Proof.
  unfold Load.populate_grid_time.
  apply ignores_evapotranspiration_bind.
  { intros db db' Hsame. pose proof Hsame as (Hr & Hw & _).
    unfold Db.select_overlap_epochs, Db.overlap_epochs. simpl.
    by rewrite Hr, Hw. }
  intros time_grid. case_decide; [apply ignores_evapotranspiration_raise|].
  apply ignores_evapotranspiration_bind;
    [apply ignores_evapotranspiration_lift|]. intros time_step.
  apply ignores_evapotranspiration_bind.
  { intros db db' (? & ? & Htg & ? & ? & ?).
    unfold Db.insert_time_grid, same_but_evapotranspiration. simpl.
    by rewrite Htg. }
  intros _. apply ignores_evapotranspiration_bind;
    [apply ignores_evapotranspiration_lift|]. intros last_epoch.
  apply ignores_evapotranspiration_bind;
    [|intros; apply ignores_evapotranspiration_ret].
  intros db db' (? & ? & ? & Hgt & ? & ?).
  unfold Db.insert_grid_time, same_but_evapotranspiration. simpl.
  by rewrite Hgt.
Qed.

Lemma ignores_evapotranspiration_populate_rainfall_intensity g s :
  ignores_evapotranspiration (V:=V) (Load.populate_rainfall_intensity g s).
Proof.
  unfold Load.populate_rainfall_intensity.
  apply ignores_evapotranspiration_bind;
    [apply ignores_evapotranspiration_lift|]. intros bound.
  intros db db' (Hr & ? & ? & Hgt & Hri & ?).
  unfold Db.insert_rainfall_intensity, Db.join_rainfall_on_grid,
    same_but_evapotranspiration. simpl.
  by rewrite Hr, Hgt, Hri.
Qed.

Lemma ignores_evapotranspiration_populate_water_level g s :
  ignores_evapotranspiration (V:=V) (Load.populate_water_level g s).
Proof.
  unfold Load.populate_water_level.
  apply ignores_evapotranspiration_bind.
  { intros db db' Hsame. pose proof Hsame as (_ & Hw & _).
    unfold Db.select_water_level_staging. simpl. by rewrite Hw. }
  intros rows. apply ignores_evapotranspiration_bind;
    [apply ignores_evapotranspiration_lift|]. intros [zeta_t zeta_mm].
  apply ignores_evapotranspiration_bind;
    [apply ignores_evapotranspiration_lift|]. intros zeta_on_grid.
  intros db db' (? & ? & ? & ? & ? & Hwl).
  unfold Db.insert_water_level, same_but_evapotranspiration. simpl.
  by rewrite Hwl.
Qed.

(** X18.  The alignment never reads and never writes the staged
    evapotranspiration: on two databases that differ in that table only it
    returns the same grid and step, or raises the same exception, and
    leaves the same time step, grid, rainfall and water-level rows, and
    each one's evapotranspiration as it was. *)
Theorem alignment_ignores_evapotranspiration db db' :
  Db.rainfall_intensity_staging db = Db.rainfall_intensity_staging db' →
  Db.water_level_staging db = Db.water_level_staging db' →
  Db.time_grid db = Db.time_grid db' →
  Db.grid_time db = Db.grid_time db' →
  Db.rainfall_intensity db = Db.rainfall_intensity db' →
  Db.water_level db = Db.water_level db' →
  outcome (Load.align db) = outcome (Load.align db') ∧
  Db.time_grid (database (Load.align db))
    = Db.time_grid (database (Load.align db')) ∧
  Db.grid_time (database (Load.align db))
    = Db.grid_time (database (Load.align db')) ∧
  Db.rainfall_intensity (database (Load.align db))
    = Db.rainfall_intensity (database (Load.align db')) ∧
  Db.water_level (database (Load.align db))
    = Db.water_level (database (Load.align db')) ∧
  Db.evapotranspiration_staging (database (Load.align db))
    = Db.evapotranspiration_staging db ∧
  Db.evapotranspiration_staging (database (Load.align db'))
    = Db.evapotranspiration_staging db'.
Proof.
  intros Hr Hw Htg Hgt Hri Hwl.
  assert (ignores_evapotranspiration (V:=V) Load.align) as Halign.
  { unfold Load.align.
    apply ignores_evapotranspiration_bind;
      [apply ignores_evapotranspiration_populate_grid_time|].
    intros [g s].
    apply ignores_evapotranspiration_bind;
      [apply ignores_evapotranspiration_populate_rainfall_intensity|].
    intros _.
    apply ignores_evapotranspiration_bind;
      [apply ignores_evapotranspiration_populate_water_level|].
    intros _. apply ignores_evapotranspiration_ret. }
  destruct (Halign db db') as (Hout & (_ & _ & ? & ? & ? & ?) & ? & ?); done.
Qed.

End evapotranspiration.

Lemma alignment_ignores_evapotranspiration_witness :
  let db := Scenario.A in
  let db' := Db.staged [(0, 0%Q); (3600, 5%Q); (7200, 10%Q)]
               [(0, 3%Q); (3600, 4%Q)] [(-1800, 1%Q); (9000, 2%Q)] in
  (Db.rainfall_intensity_staging db = Db.rainfall_intensity_staging db' ∧
   Db.water_level_staging db = Db.water_level_staging db' ∧
   Db.time_grid db = Db.time_grid db' ∧
   Db.grid_time db = Db.grid_time db' ∧
   Db.rainfall_intensity db = Db.rainfall_intensity db' ∧
   Db.water_level db = Db.water_level db') ∧
  outcome (Load.align db) = outcome (Load.align db') ∧
  Db.time_grid (database (Load.align db))
    = Db.time_grid (database (Load.align db')) ∧
  Db.grid_time (database (Load.align db))
    = Db.grid_time (database (Load.align db')) ∧
  Db.rainfall_intensity (database (Load.align db))
    = Db.rainfall_intensity (database (Load.align db')) ∧
  Db.water_level (database (Load.align db))
    = Db.water_level (database (Load.align db')) ∧
  Db.evapotranspiration_staging (database (Load.align db))
    = Db.evapotranspiration_staging db ∧
  Db.evapotranspiration_staging (database (Load.align db'))
    = Db.evapotranspiration_staging db'.
Proof.
  split; [repeat split|].
  exact (alignment_ignores_evapotranspiration Scenario.A
           (Db.staged [(0, 0%Q); (3600, 5%Q); (7200, 10%Q)]
              [(0, 3%Q); (3600, 4%Q)] [(-1800, 1%Q); (9000, 2%Q)])
           eq_refl eq_refl eq_refl eq_refl eq_refl eq_refl).
Defined.

(** * Properties of [pestfiles.py] *)

Lemma try_bind_inr {E A B} (m : E + A) (k : A → E + B) b :
  try_bind m k = inr b ↔ ∃ a, m = inr a ∧ k a = inr b.
Proof.
  destruct m as [e|a]; simpl; split; try done.
  - by intros (? & ? & _).
  - eauto.
  - by intros (? & [= ->] & ?).
Qed.

Lemma try_bind_inl {E A B} (m : E + A) (k : A → E + B) e :
  try_bind m k = inl e ↔ m = inl e ∨ ∃ a, m = inr a ∧ k a = inl e.
Proof.
  destruct m as [e'|a]; simpl; split.
  - intros [= ->]. by left.
  - by intros [[= ->]|(? & ? & _)].
  - eauto.
  - by intros [|(? & [= ->] & ?)].
Qed.

Section pestfiles_properties.
Import Yaml.
Context {V : Type}.
Variable str_ : value V → string.
Variable format_g : nat → V → string.
Variable linesep : string.
Variable File : Type.
Variable safe_load : File → option (value V).

Lemma getitem_inl (v : value V) key e :
  getitem v key = inl e → lookup_error e.
Proof.
  unfold getitem, lookup_error. intros Hget.
  destruct v; simplify_eq; eauto.
  destruct (lookup key items); simplify_eq. eauto.
Qed.

Lemma item_inl (parameters : value V) section field e :
  Pest.item parameters section field = inl e → lookup_error e.
Proof.
  unfold Pest.item. intros [Hget|(entry & _ & Hget)]%try_bind_inl;
    by eapply getitem_inl.
Qed.

Lemma iter_inl (v : value V) e : iter v = inl e → lookup_error e.
Proof. destruct v; intros; simplify_eq/=; by left. Qed.

Lemma len_inl (v : value V) e : len v = inl e → lookup_error e.
Proof. destruct v; intros; simplify_eq/=; by left. Qed.

Lemma item_lines_inl (v : value V) e :
  Pest.item_lines str_ v = inl e → lookup_error e.
Proof.
  unfold Pest.item_lines.
  intros [Hiter|(? & _ & ?)]%try_bind_inl; [by eapply iter_inl|done].
Qed.

Lemma in_peatclsm_spline_true (t : value V) :
  Pest.in_peatclsm_spline t = true →
  eq_str t "peatclsm" = true ∨
  eq_str t "peatclsm" = false ∧ eq_str t "spline" = true.
Proof.
  unfold Pest.in_peatclsm_spline.
  destruct (eq_str t "peatclsm"); simpl; eauto.
Qed.

(** What [check_parameters] raises, and what it has checked when it
    returns. *)
Lemma check_parameters_inl parameters e :
  Pest.check_parameters str_ parameters = inl e →
  lookup_error e ∨
  ∃ t, (Pest.item parameters "specific_yield" "type" = inr t ∨
        Pest.item parameters "transmissivity" "type" = inr t) ∧
       Pest.in_peatclsm_spline t = false ∧
       e = ValueError ("Unexpected specific yield type: " +:+ str_ t).
Proof.
  unfold Pest.check_parameters.
  intros [Hitem|(sy & Hsy & Hk)]%try_bind_inl;
    [left; by eapply item_inl|].
  destruct (Pest.in_peatclsm_spline sy) eqn:Hin; simpl in Hk.
  - apply try_bind_inl in Hk as [Hitem|(tr & Htr & Hk)];
      [left; by eapply item_inl|].
    destruct (Pest.in_peatclsm_spline tr) eqn:Hin'; simpl in Hk; [done|].
    injection Hk as <-. right. exists tr. eauto.
  - injection Hk as <-. right. exists sy. eauto.
Qed.

Lemma check_parameters_inr parameters :
  Pest.check_parameters str_ parameters = inr () →
  ∃ sy tr,
    Pest.item parameters "specific_yield" "type" = inr sy ∧
    Pest.in_peatclsm_spline sy = true ∧
    Pest.item parameters "transmissivity" "type" = inr tr ∧
    Pest.in_peatclsm_spline tr = true.
Proof.
  unfold Pest.check_parameters.
  intros (sy & Hsy & Hk)%try_bind_inr.
  destruct (Pest.in_peatclsm_spline sy) eqn:Hin; simpl in Hk; [|done].
  apply try_bind_inr in Hk as (tr & Htr & Hk).
  destruct (Pest.in_peatclsm_spline tr) eqn:Hin'; simpl in Hk; [|done].
  by exists sy, tr.
Qed.

(** On checked parameters the assertions of [generate_rise_tpl_file] hold:
    it raises for a missing or ill-typed item only. *)
Lemma rise_tpl_lines_inl parameters e :
  Pest.check_parameters str_ parameters = inr () →
  Pest.rise_tpl_lines str_ parameters = inl e → lookup_error e.
Proof.
  intros (sy & tr & Hsy & Hsyin & Htr & Htrin)%check_parameters_inr.
  unfold Pest.rise_tpl_lines. rewrite Hsy, Htr. cbn [try_bind].
  intros Hraise.
  repeat match type of Hraise with
  | try_bind _ _ = inl _ =>
      apply try_bind_inl in Hraise as [Hraise|(? & _ & Hraise)]
  | (if ?c then _ else _) = inl _ => destruct c eqn:?; simpl in Hraise
  | Pest.item _ _ _ = inl _ => by eapply item_inl
  | Pest.item_lines _ _ = inl _ => by eapply item_lines_inl
  | len _ = inl _ => by eapply len_inl
  | inr _ = inl _ => done
  | inl (AssertionError None) = inl _ => exfalso
  end.
  all: repeat match goal with
  | H : negb _ = true |- _ => apply negb_true_iff in H
  end.
  all: first
    [ apply in_peatclsm_spline_true in Hsyin as [?|[_ ?]]; congruence
    | apply in_peatclsm_spline_true in Htrin as [?|[_ ?]]; congruence ].
Qed.

(** On checked parameters [generate_rise_pst_file] does not reach its
    ValueError. *)
Lemma rise_pst_lines_inl connection parameters precision e :
  Pest.check_parameters str_ parameters = inr () →
  Pest.rise_pst_lines str_ format_g connection parameters precision = inl e →
  lookup_error e.
Proof.
  intros (sy & tr & Hsy & Hsyin & _)%check_parameters_inr.
  unfold Pest.rise_pst_lines. rewrite Hsy. cbn [try_bind].
  rewrite Hsyin. cbn [negb].
  intros [Hraise|(? & _ & ?)]%try_bind_inl; [|done].
  destruct (eq_str sy "spline"); [|done].
  apply try_bind_inl in Hraise as [Hraise|(? & _ & Hraise)];
    [by eapply item_inl|by eapply len_inl].
Qed.

Lemma by_outfile_type_inr {A} (tpl ins pst : A) outfile_type :
  outfile_type ∈ ["tpl"; "ins"; "pst"] →
  Pest.by_outfile_type (V:=V) tpl ins pst outfile_type = inr tpl ∧
    outfile_type = "tpl" ∨
  Pest.by_outfile_type (V:=V) tpl ins pst outfile_type = inr ins ∧
    outfile_type = "ins" ∨
  Pest.by_outfile_type (V:=V) tpl ins pst outfile_type = inr pst ∧
    outfile_type = "pst".
Proof.
  rewrite !elem_of_cons, elem_of_nil.
  intros [->|[->|[->|[]]]]; vm_compute; eauto.
Qed.

(** X19.  Whenever [generate_rise_pestfiles] raises, nothing has been
    written to [outfile], and the exception is the AssertionError on an
    unknown [outfile_type], an error of [yaml.safe_load], a TypeError or
    KeyError of an item that is missing or of the wrong type, or the
    ValueError of [check_parameters], whose message says "Unexpected
    specific yield type" also when the type it prints is that of the
    transmissivity.  The ValueError of [generate_rise_pst_file] and the
    assertions of [generate_rise_tpl_file] are never raised through
    it. *)
Theorem rise_pestfiles_failures connection parameter_file outfile_type
    configuration_file precision outfile e outfile' :
  Pest.generate_rise_pestfiles str_ format_g linesep File safe_load
    connection parameter_file outfile_type configuration_file precision
    outfile = Pest.Raises e outfile' →
  outfile' = outfile ∧
  (e = AssertionError (Some outfile_type) ∧
     outfile_type ∉ ["tpl"; "ins"; "pst"] ∨
   e = YAMLError ∨
   e = TypeError ∨
   (∃ key, e = KeyError (Str key)) ∨
   ∃ parameters t,
     safe_load parameter_file = Some parameters ∧
     (Pest.item parameters "specific_yield" "type" = inr t ∨
      Pest.item parameters "transmissivity" "type" = inr t) ∧
     Pest.in_peatclsm_spline t = false ∧
     e = ValueError ("Unexpected specific yield type: " +:+ str_ t)).
Proof.
  unfold Pest.generate_rise_pestfiles.
  case_bool_decide as Htype; simpl.
  2:{ intros [= <- <-]. split; [done|]. by left. }
  unfold Pest.load_parameters, Pest.bind.
  destruct (safe_load parameter_file) as [parameters|] eqn:Hload; simpl.
  2:{ intros [= <- <-]. split; [done|]. right. by left. }
  destruct (Pest.check_parameters str_ parameters) as [e'|[]] eqn:Hcheck;
    simpl.
  { intros [= <- <-]. split; [done|].
    apply check_parameters_inl in Hcheck as [[->|[key ->]]|(t & ? & ? & ->)];
      [by right; right; left | right; right; right; left; by exists key |].
    do 4 right. by exists parameters, t. }
  assert (∀ lines : Error V + list string,
            (∀ e, lines = inl e → lookup_error e) →
            ∀ configuration : value V,
            Pest.bind (Pest.lift lines)
              (λ lines, Pest.write (Text.join linesep lines)) outfile
            = Pest.Raises e outfile' →
            outfile' = outfile ∧ lookup_error e) as Hwrite.
  { intros [e'|lines] Hlines _; unfold Pest.bind; simpl; [|done].
    intros [= <- <-]. split; [done|]. by apply Hlines. }
  intros Hraise.
  cut (outfile' = outfile ∧ (e = YAMLError ∨ lookup_error e)).
  { intros [-> [->|[->|[key ->]]]]; split; try done;
      [by right; left | by right; right; left |].
    right; right; right; left. by exists key. }
  destruct (by_outfile_type_inr
              (Pest.generate_rise_tpl_file str_ linesep)
              (Pest.generate_rise_ins_file linesep)
              (Pest.generate_rise_pst_file str_ format_g linesep)
              outfile_type Htype) as [[Hby _]|[[Hby _]|[Hby _]]];
    rewrite Hby in Hraise; simpl in Hraise;
    unfold Pest.load_configuration in Hraise;
    (destruct configuration_file as [file|];
     [destruct (safe_load file) as [configuration|]|]); simpl in Hraise;
    try (injection Hraise as <- <-; split; [done|by left]);
    try done.
  - destruct (Hwrite _ (λ e, rise_tpl_lines_inl parameters e Hcheck)
                configuration Hraise); eauto.
  - destruct (Hwrite _ (λ e, rise_tpl_lines_inl parameters e Hcheck)
                Null Hraise); eauto.
  - destruct (Hwrite _ (λ e, rise_pst_lines_inl connection parameters
                                precision e Hcheck)
                configuration Hraise); eauto.
  - destruct (Hwrite _ (λ e, rise_pst_lines_inl connection parameters
                                precision e Hcheck)
                Null Hraise); eauto.
Qed.

(** X20.  [generate_curves_pestfiles] never returns and never writes: it
    raises the AssertionError on an unknown [outfile_type], an error of
    [yaml.safe_load], or NotImplementedError. *)
Theorem curves_pestfiles_always_raise connection parameter_file
    outfile_type configuration_file outfile :
  ∃ e,
    Pest.generate_curves_pestfiles File safe_load connection parameter_file
      outfile_type configuration_file outfile = Pest.Raises e outfile ∧
    (e = AssertionError (Some outfile_type) ∧
       outfile_type ∉ ["tpl"; "ins"; "pst"] ∨
     e = YAMLError ∨
     e = NotImplementedError ∧ outfile_type ∈ ["tpl"; "ins"; "pst"]).
Proof.
  unfold Pest.generate_curves_pestfiles.
  case_bool_decide as Htype; simpl.
  2:{ eexists. split; [done|]. by left. }
  unfold Pest.bind.
  assert (∀ generate,
            generate ∈ [Pest.generate_curves_tpl_file (V:=V);
                        Pest.generate_curves_ins_file (V:=V);
                        Pest.generate_curves_pst_file (V:=V)] →
            ∃ e,
              match
                Pest.lift (Pest.load_parameters File safe_load parameter_file)
                  outfile
              with
              | Pest.Returns parameters outfile1 =>
                  match
                    Pest.lift
                      (Pest.load_configuration File safe_load
                         configuration_file) outfile1
                  with
                  | Pest.Returns configuration outfile2 =>
                      generate connection parameters configuration outfile2
                  | Pest.Raises e outfile2 => Pest.Raises e outfile2
                  end
              | Pest.Raises e outfile1 => Pest.Raises e outfile1
              end = Pest.Raises e outfile ∧
              (e = YAMLError ∨ e = NotImplementedError)) as Hall.
  { intros generate Hgenerate.
    unfold Pest.load_parameters, Pest.load_configuration.
    destruct (safe_load parameter_file); simpl;
      [|eexists; split; [done|by left]].
    assert (generate = λ _ _ _, Pest.raise (NotImplementedError (V:=V)))
      as ->.
    { rewrite !elem_of_cons, elem_of_nil in Hgenerate.
      by destruct Hgenerate as [->|[->|[->|[]]]]. }
    destruct configuration_file as [file|];
      [destruct (safe_load file)|]; simpl; eexists; split; eauto. }
  destruct (by_outfile_type_inr
              (Pest.generate_curves_tpl_file (V:=V))
              (Pest.generate_curves_ins_file (V:=V))
              (Pest.generate_curves_pst_file (V:=V))
              outfile_type Htype) as [[-> _]|[[-> _]|[-> _]]]; simpl.
  - destruct (Hall Pest.generate_curves_tpl_file) as (e & -> & [->| ->]);
      [rewrite !elem_of_cons; auto|..]; eexists; split; eauto.
  - destruct (Hall Pest.generate_curves_ins_file) as (e & -> & [->| ->]);
      [rewrite !elem_of_cons; auto|..]; eexists; split; eauto.
  - destruct (Hall Pest.generate_curves_pst_file) as (e & -> & [->| ->]);
      [rewrite !elem_of_cons; auto|..]; eexists; split; eauto.
Qed.

(** X23.  The configuration file is read and not used: with a
    configuration file that [yaml.safe_load] accepts,
    [generate_rise_pestfiles] does what it does without one. *)
Theorem rise_pestfiles_ignore_configuration connection parameter_file
    outfile_type file configuration precision outfile :
  safe_load file = Some configuration →
  Pest.generate_rise_pestfiles str_ format_g linesep File safe_load
    connection parameter_file outfile_type (Some file) precision outfile
  = Pest.generate_rise_pestfiles str_ format_g linesep File safe_load
      connection parameter_file outfile_type None precision outfile.
Proof.
  intros Hload. unfold Pest.generate_rise_pestfiles.
  case_bool_decide as Htype; simpl; [|done].
  unfold Pest.bind.
  destruct (Pest.lift (Pest.load_parameters File safe_load parameter_file)
              outfile) as [parameters outfile1|]; [|done].
  destruct (Pest.lift (Pest.check_parameters str_ parameters) outfile1)
    as [[] outfile2|]; [|done].
  unfold Pest.load_configuration. rewrite Hload.
  destruct (by_outfile_type_inr
              (Pest.generate_rise_tpl_file str_ linesep)
              (Pest.generate_rise_ins_file linesep)
              (Pest.generate_rise_pst_file str_ format_g linesep)
              outfile_type Htype) as [[-> _]|[[-> _]|[-> _]]]; done.
Qed.

Lemma lookup_middle {A} (pre mid post : list A) i :
  (i < length mid)%nat →
  (pre ++ mid ++ post) !!
    (length (pre ++ mid ++ post) - length post - length mid + i)%nat
  = mid !! i.
Proof.
  intros Hi. rewrite !length_app.
  replace (length pre + (length mid + length post) - length post
           - length mid + i)%nat with (length pre + i)%nat by lia.
  rewrite lookup_app_r by lia.
  replace (length pre + i - length pre)%nat with i by lia.
  by rewrite lookup_app_l.
Qed.

(** The lines of the control file, in its sections. *)
Lemma rise_pst_lines_sections connection parameters precision lines :
  Pest.rise_pst_lines str_ format_g connection parameters precision
    = inr lines →
  ∃ parameterization npar control groups data trailer,
    Pest.item parameters "specific_yield" "type" = inr parameterization ∧
    lines =
      (control ++ ["* parameter groups"] ++ groups ++
       ["* parameter data"] ++ data ++
       ["* observation groups"; "storageobs"; "* observation data"]) ++
      imap (λ (i : nat) (W : V),
              "e" +:+ pretty (i + 1)%nat +:+ "    " +:+
              format_g precision W +:+ "    1.0   storageobs")
           (Pest.mean_crossing_depth_mm connection) ++
      trailer ∧
    length control = 10%nat ∧
    control !! 3%nat =
      Some (Text.rjust 5 (pretty npar) +:+
            Text.rjust 6
              (pretty (Pest.count_distinct_zeta_number connection)) +:+
            "     4     0     1") ∧
    length groups =
      (if eq_str parameterization "spline" then 1%nat else 4%nat) ∧
    length data = npar ∧
    length trailer = 6%nat.
Proof.
  unfold Pest.rise_pst_lines.
  intros (parameterization & Hitem & Hk)%try_bind_inr.
  destruct (Pest.in_peatclsm_spline parameterization); cbn [negb] in Hk;
    [|done].
  apply try_bind_inr in Hk as (npar & Hnpar & Hk).
  injection Hk as Hlines.
  exists parameterization, npar.
  destruct (eq_str parameterization "spline") eqn:Hspline;
    [|injection Hnpar as <-];
    rewrite <-!app_assoc in Hlines; cbn [app] in Hlines.
  - lazymatch type of Hlines with
    | ?l0 :: ?l1 :: ?l2 :: ?l3 :: ?l4 :: ?l5 :: ?l6 :: ?l7 :: ?l8 :: ?l9 ::
      _ :: ?g0 :: _ :: ?data ++ _ :: _ :: _ :: _ ++ ?trailer = _ =>
        exists [l0; l1; l2; l3; l4; l5; l6; l7; l8; l9], [g0], data, trailer
    end.
    split; [exact Hitem|]. split.
    { rewrite <-Hlines. rewrite <-!app_assoc. cbn [app]. reflexivity. }
    split; [reflexivity|].
    split; [reflexivity|].
    split; [reflexivity|].
    split; [by rewrite length_fmap, length_seq|]. reflexivity.
  - lazymatch type of Hlines with
    | ?l0 :: ?l1 :: ?l2 :: ?l3 :: ?l4 :: ?l5 :: ?l6 :: ?l7 :: ?l8 :: ?l9 ::
      _ :: ?g0 :: ?g1 :: ?g2 :: ?g3 :: _ :: ?d0 :: ?d1 :: ?d2 :: ?d3 ::
      _ :: _ :: _ :: _ ++ ?trailer = _ =>
        exists [l0; l1; l2; l3; l4; l5; l6; l7; l8; l9], [g0; g1; g2; g3],
               [d0; d1; d2; d3], trailer
    end.
    split; [exact Hitem|]. split.
    { rewrite <-Hlines. rewrite <-!app_assoc. cbn [app]. reflexivity. }
    split; [reflexivity|].
    split; [reflexivity|].
    split; [reflexivity|].
    split; reflexivity.
Qed.

(** X21.  The control line of the control file declares as many
    parameters as the parameter data section lists, and as many
    observations as rising_interval_zeta has distinct levels, while the
    observation data section lists one line for each row of
    average_rising_depth; it always declares 4 parameter groups, and the
    parameter groups section lists 4 for peatclsm but 1 for spline. *)
Theorem rise_pst_declared_and_listed connection parameters precision lines :
  Pest.rise_pst_lines str_ format_g connection parameters precision
    = inr lines →
  ∃ parameterization npar control groups data observations trailer,
    Pest.item parameters "specific_yield" "type" = inr parameterization ∧
    lines =
      control ++ ["* parameter groups"] ++ groups ++
      ["* parameter data"] ++ data ++
      ["* observation groups"; "storageobs"; "* observation data"] ++
      observations ++ trailer ∧
    length control = 10%nat ∧
    control !! 3%nat =
      Some (Text.rjust 5 (pretty npar) +:+
            Text.rjust 6
              (pretty (Pest.count_distinct_zeta_number connection)) +:+
            "     4     0     1") ∧
    length groups =
      (if eq_str parameterization "spline" then 1%nat else 4%nat) ∧
    length data = npar ∧
    length observations = length (Pest.mean_crossing_depth_mm connection) ∧
    length trailer = 6%nat.
Proof.
  intros (parameterization & npar & control & groups & data & trailer &
          Hitem & -> & Hcontrol & Hdeclared & Hgroups & Hdata & Htrailer)
    %rise_pst_lines_sections.
  exists parameterization, npar, control, groups, data.
  lazymatch goal with
  | |- context [imap ?f ?l] => exists (imap f l), trailer
  end.
  split; [exact Hitem|]. split.
  { rewrite <-!app_assoc. reflexivity. }
  repeat (split; [assumption|]). split; [|assumption].
  apply length_imap.
Qed.

(** X22.  The instruction file and the control file name the
    observations alike: for every row [i] of average_rising_depth within
    the count of distinct levels, line [i] after the two header lines of
    the instruction file reads the observation that observation line [i]
    of the control file, counted from the end of the file, declares. *)
Theorem rise_observation_names_agree connection parameters precision lines
    i W :
  Pest.rise_pst_lines str_ format_g connection parameters precision
    = inr lines →
  Pest.mean_crossing_depth_mm connection !! i = Some W →
  (i < Pest.count_distinct_zeta_number connection)%nat →
  ∃ name,
    Pest.rise_ins_lines connection !! (2 + i)%nat
      = Some ("l1 [" +:+ name +:+ "]3:24") ∧
    lines !! (length lines - 6
              - length (Pest.mean_crossing_depth_mm connection) + i)%nat
      = Some (name +:+ "    " +:+ format_g precision W +:+
              "    1.0   storageobs").
Proof.
  intros (parameterization & npar & control & groups & data & trailer &
          _ & -> & _ & _ & _ & _ & Htrailer)%rise_pst_lines_sections
    HW Hi.
  exists ("e" +:+ pretty (i + 1)%nat). split.
  - unfold Pest.rise_ins_lines. cbv zeta.
    rewrite lookup_app_r by (simpl; lia).
    replace (2 + i - length ["pif @"; "@# Rise curve simulation vector@"])%nat
      with i by (simpl; lia).
    by rewrite list_lookup_fmap, lookup_seq_lt by done.
  - apply lookup_lt_Some in HW as Hlt.
    rewrite <-Htrailer, <-(length_imap
      (λ (i : nat) (W : V),
         "e" +:+ pretty (i + 1)%nat +:+ "    " +:+
         format_g precision W +:+ "    1.0   storageobs")
      (Pest.mean_crossing_depth_mm connection)).
    rewrite lookup_middle by (by rewrite length_imap).
    by rewrite list_lookup_imap, HW.
Qed.

End pestfiles_properties.

(** * Properties of [specific_yield.py] *)

Section specific_yield_properties.
Import Yaml.
Context {V Spline : Type}.
Variable str_ : value V → string.
Variable from_points : list (value V * value V) → Error V + Spline.

Lemma eq_str_true (v : value V) s : eq_str v s = true ↔ v = Str s.
Proof.
  destruct v; simpl; try (split; [done|by intros [=]]).
  rewrite bool_decide_eq_true. split; [by intros ->|by intros [= ->]].
Qed.

Lemma lookup_popped key (d : list (value V * value V)) :
  lookup key (SpecificYield.pop key d).2 = None.
Proof.
  unfold lookup, SpecificYield.pop. simpl.
  induction d as [|[k v] d IH]; [done|].
  rewrite filter_cons. simpl.
  destruct (eq_str k key) eqn:Hk.
  - by rewrite decide_False by done.
  - rewrite decide_True by done. simpl. by rewrite Hk.
Qed.

Lemma lookup_popped_ne key name (d : list (value V * value V)) :
  name ≠ key →
  lookup name (SpecificYield.pop key d).2 = lookup name d.
Proof.
  intros Hne. unfold lookup, SpecificYield.pop. simpl.
  induction d as [|[k v] d IH]; [done|].
  rewrite filter_cons. simpl.
  destruct (eq_str k key) eqn:Hk.
  - rewrite decide_False by done.
    apply eq_str_true in Hk as ->. simpl.
    by rewrite bool_decide_eq_false_2 by done.
  - rewrite decide_True by done. simpl.
    destruct (eq_str k name); [done|]. apply IH.
Qed.

(** X24.  A dict that went through [create_specific_yield_function] has
    no "type" key, whether the call returned or raised: a second call on
    the same dict raises the ValueError of the missing field and leaves
    the dict as it is. *)
Theorem second_call_raises_ValueError (parameters : list (value V * value V)) :
  lookup "type"
    (SpecificYield.create_specific_yield_function str_ from_points
       parameters).2 = None ∧
  SpecificYield.create_specific_yield_function str_ from_points
    (SpecificYield.create_specific_yield_function str_ from_points
       parameters).2
  = (inl (ValueError
            (Text.quote +:+ "type" +:+ Text.quote +:+
             " field is required in parameters; got " +:+
             str_ (Map (SpecificYield.create_specific_yield_function str_
                          from_points parameters).2))),
     (SpecificYield.create_specific_yield_function str_ from_points
        parameters).2).
Proof.
  assert (∀ d : list (value V * value V),
            lookup "type" d = None →
            SpecificYield.create_specific_yield_function str_ from_points d
            = (inl (ValueError
                      (Text.quote +:+ "type" +:+ Text.quote +:+
                       " field is required in parameters; got " +:+
                       str_ (Map d))), d)) as Hmissing.
  { intros d Hd. unfold SpecificYield.create_specific_yield_function,
      SpecificYield.contains. rewrite Hd.
    by rewrite bool_decide_eq_false_2 by (by intros [? ?]). }
  assert (lookup "type"
            (SpecificYield.create_specific_yield_function str_ from_points
               parameters).2 = None) as Hnone.
  { destruct (lookup "type" parameters) as [t|] eqn:Htype.
    - unfold SpecificYield.create_specific_yield_function,
        SpecificYield.contains. rewrite Htype.
      rewrite bool_decide_eq_true_2 by done. cbn [negb].
      pose proof (lookup_popped "type" parameters) as Hpop.
      by destruct (SpecificYield.pop "type" parameters).
    - by rewrite Hmissing. }
  split; [done|]. by apply Hmissing.
Qed.

(** X25.  When the "type" of the parameters is neither 'peatclsm' nor
    'spline', [create_specific_yield_function] raises KeyError of that
    type, or TypeError when the type is a list or a dict, not ValueError;
    and the "type" key is gone from the caller's dict. *)
Theorem unknown_type_raises_KeyError (parameters : list (value V * value V))
    t :
  lookup "type" parameters = Some t →
  eq_str t "peatclsm" = false → eq_str t "spline" = false →
  SpecificYield.create_specific_yield_function str_ from_points parameters
  = (inl match t with
         | Seq _ | Map _ => TypeError
         | _ => KeyError t
         end,
     filter (λ item, eq_str item.1 "type" = false) parameters).
Proof.
  intros Htype Hp Hs.
  unfold SpecificYield.create_specific_yield_function,
    SpecificYield.contains, SpecificYield.pop.
  rewrite Htype. rewrite bool_decide_eq_true_2 by done.
  cbn [negb default from_option id]. unfold SpecificYield.class_of.
  destruct t; cbn [eq_str] in *; rewrite ?Hp, ?Hs; done.
Qed.

Lemma Forall2_Some_functional {A B} (f : A → option B) l k k' :
  Forall2 (λ x y, f x = Some y) l k → Forall2 (λ x y, f x = Some y) l k' →
  k = k'.
Proof.
  intros Hk. revert k'. induction Hk as [|x y l k Hxy _ IH]; intros k' Hk'.
  - by inversion Hk'.
  - inversion Hk' as [|? y' ? k'' Hxy' Hrest]; subst.
    f_equal; [congruence|by apply IH].
Qed.

Lemma keywords_inr names (d : list (value V * value V)) arguments :
  SpecificYield.keywords names d = inr arguments ↔
  (∀ key v, (key, v) ∈ d → ∃ name, key = Str name ∧ name ∈ names) ∧
  Forall2 (λ name argument, lookup name d = Some argument) names arguments.
Proof.
  unfold SpecificYield.keywords.
  assert (forallb (λ item, existsb (eq_str item.1) names) d = true ↔
          ∀ key v, (key, v) ∈ d → ∃ name, key = Str name ∧ name ∈ names)
    as Hkeys.
  { rewrite forallb_forall. split.
    - intros Hall key v Hin.
      specialize (Hall (key, v)). rewrite <-list_elem_of_In in Hall.
      apply Hall, existsb_exists in Hin as (name & Hname & Heq).
      exists name. split; [by apply eq_str_true|].
      by apply list_elem_of_In.
    - intros Hall [key v] Hin%list_elem_of_In.
      destruct (Hall key v Hin) as (name & -> & Hname).
      apply existsb_exists. exists name. split; [by apply list_elem_of_In|].
      by apply eq_str_true. }
  destruct (forallb _ d).
  - destruct (mapM _ names) as [l|] eqn:Hmap.
    + apply mapM_Some in Hmap. split.
      * intros [= <-]. split; [by apply Hkeys|done].
      * intros [_ Hargs]. f_equal.
        by apply (Forall2_Some_functional _ _ _ _ Hmap).
    + split; [done|]. intros [_ Hargs].
      apply mapM_Some_2 in Hargs. congruence.
  - split; [done|]. intros [Hall _]. by apply Hkeys in Hall.
Qed.

(** X26.  [create_specific_yield_function] returns a PEATCLSM function
    exactly when the "type" is 'peatclsm' and the other keys of the dict
    are sd, theta_s, b and psi_s, all four and no other, in any order;
    the function holds their values. *)
Theorem creates_peatclsm_iff (parameters : list (value V * value V))
    sd theta_s b psi_s :
  (SpecificYield.create_specific_yield_function str_ from_points
     parameters).1
  = inr (SpecificYield.Peatclsm
           {| SpecificYield.sd := sd; SpecificYield.theta_s := theta_s;
              SpecificYield.b := b; SpecificYield.psi_s := psi_s |}) ↔
  lookup "type" parameters = Some (Str "peatclsm") ∧
  (∀ key v, (key, v) ∈ parameters →
     ∃ name, key = Str name ∧
             name ∈ ["type"; "sd"; "theta_s"; "b"; "psi_s"]) ∧
  lookup "sd" parameters = Some sd ∧
  lookup "theta_s" parameters = Some theta_s ∧
  lookup "b" parameters = Some b ∧
  lookup "psi_s" parameters = Some psi_s.
Proof.
  unfold SpecificYield.create_specific_yield_function,
    SpecificYield.contains.
  destruct (lookup "type" parameters) as [t|] eqn:Htype.
  2:{ rewrite bool_decide_eq_false_2 by (by intros [? ?]). simpl.
      split; [done|]. by intros [? _]. }
  rewrite bool_decide_eq_true_2 by done. cbn [negb].
  pose proof (lookup_popped_ne "type" "sd" parameters) as Hsd.
  pose proof (lookup_popped_ne "type" "theta_s" parameters) as Htheta.
  pose proof (lookup_popped_ne "type" "b" parameters) as Hb.
  pose proof (lookup_popped_ne "type" "psi_s" parameters) as Hpsi.
  assert ((∀ key v, (key, v) ∈ (SpecificYield.pop "type" parameters).2 →
             ∃ name, key = Str name ∧
                     name ∈ ["sd"; "theta_s"; "b"; "psi_s"]) ↔
          (∀ key v, (key, v) ∈ parameters →
             ∃ name, key = Str name ∧
                     name ∈ ["type"; "sd"; "theta_s"; "b"; "psi_s"]))
    as Hkeys.
  { unfold SpecificYield.pop. simpl. split.
    - intros Hall key v Hin.
      destruct (eq_str key "type") eqn:Hk.
      + apply eq_str_true in Hk as ->. exists "type". split; [done|left].
      + destruct (Hall key v) as (name & -> & Hname).
        { by apply list_elem_of_filter. }
        exists name. split; [done|by right].
    - intros Hall key v [Hk Hin]%list_elem_of_filter. simpl in Hk.
      destruct (Hall key v Hin) as (name & -> & Hname).
      exists name. split; [done|].
      apply elem_of_cons in Hname as [->|Hname]; [|done].
      by vm_compute in Hk. }
  unfold SpecificYield.pop in *. rewrite Htype.
  cbn [fst snd default from_option id] in *.
  set (rest := filter (λ item, eq_str item.1 "type" = false) parameters) in *.
  cbn [fst].
  destruct (eq_str t "peatclsm") eqn:Hp;
    [apply eq_str_true in Hp as ->|].
  - assert (SpecificYield.class_of from_points (Str "peatclsm")
            = inr SpecificYield.new_PeatclsmSpecificYield) as ->
      by reflexivity.
    cbn [try_bind]. unfold SpecificYield.new_PeatclsmSpecificYield.
    split.
    + intros (arguments & Hkw & Hnew)%try_bind_inr.
      apply keywords_inr in Hkw as [Hall Hargs].
      destruct arguments as [|a0 [|a1 [|a2 [|a3 [|??]]]]]; try done.
      injection Hnew as <- <- <- <-.
      apply Forall2_cons in Hargs as [H0 Hargs].
      apply Forall2_cons in Hargs as [H1 Hargs].
      apply Forall2_cons in Hargs as [H2 Hargs].
      apply Forall2_cons in Hargs as [H3 _].
      rewrite Hsd in H0 by done. rewrite Htheta in H1 by done.
      rewrite Hb in H2 by done. rewrite Hpsi in H3 by done.
      split; [done|]. split; [by apply Hkeys|done].
    + intros (_ & Hall & H0 & H1 & H2 & H3).
      apply try_bind_inr. exists [sd; theta_s; b; psi_s]. split; [|done].
      apply keywords_inr. split; [by apply Hkeys|].
      repeat constructor; [rewrite Hsd|rewrite Htheta|rewrite Hb|rewrite Hpsi];
        done.
  - split; [|intros [[= ->] _]; by vm_compute in Hp].
    intros (new & Hclass & Hnew)%try_bind_inr. exfalso.
    unfold SpecificYield.class_of in Hclass.
    rewrite Hp in Hclass.
    assert (new = SpecificYield.new_SplineSpecificYield from_points) as ->.
    { destruct t; try done; destruct (eq_str _ "spline"); congruence. }
    unfold SpecificYield.new_SplineSpecificYield in Hnew.
    apply try_bind_inr in Hnew as (arguments & _ & Hnew).
    destruct arguments as [|a0 [|a1 [|??]]]; try done.
    apply try_bind_inr in Hnew as (? & _ & Hnew).
    apply try_bind_inr in Hnew as (? & _ & Hnew).
    by apply try_bind_inr in Hnew as (? & _ & Hnew).
Qed.

(** X27.  With the "type" 'spline' and the keys zeta_knots_mm and
    sy_knots, both of which can be iterated, and no other key,
    [create_specific_yield_function] builds the spline from the pairs of
    [zip(zeta_knots_mm, sy_knots)]: when the two sequences differ in
    length, the knots that have no partner are left out without an error;
    it raises what [Spline.from_points] raises, or returns the object,
    which holds the two sequences whole. *)
Theorem creates_spline_from_zipped_knots
    (parameters : list (value V * value V)) zeta_knots_mm sy_knots zetas sys :
  lookup "type" parameters = Some (Str "spline") →
  (∀ key v, (key, v) ∈ parameters →
     ∃ name, key = Str name ∧ name ∈ ["type"; "zeta_knots_mm"; "sy_knots"]) →
  lookup "zeta_knots_mm" parameters = Some zeta_knots_mm →
  lookup "sy_knots" parameters = Some sy_knots →
  iter zeta_knots_mm = inr zetas →
  iter sy_knots = inr sys →
  (SpecificYield.create_specific_yield_function str_ from_points
     parameters).1
  = (spline ←? from_points (zip zetas sys);
     inr (SpecificYield.Spline_
            {| SpecificYield.zeta_knots_mm := zeta_knots_mm;
               SpecificYield.sy_knots := sy_knots;
               SpecificYield._spline := spline |})) ∧
  length (zip zetas sys) = (length zetas `min` length sys)%nat.
Proof.
  intros Htype Hkeys Hzeta Hsy Hzetas Hsys.
  split; [|apply length_zip].
  unfold SpecificYield.create_specific_yield_function,
    SpecificYield.contains.
  rewrite Htype, bool_decide_eq_true_2 by done. cbn [negb].
  pose proof (lookup_popped_ne "type" "zeta_knots_mm" parameters) as Hz.
  pose proof (lookup_popped_ne "type" "sy_knots" parameters) as Hs.
  assert (∀ key v, (key, v) ∈ (SpecificYield.pop "type" parameters).2 →
            ∃ name, key = Str name ∧ name ∈ ["zeta_knots_mm"; "sy_knots"])
    as Hrest.
  { unfold SpecificYield.pop. simpl.
    intros key v [Hk Hin]%list_elem_of_filter. simpl in Hk.
    destruct (Hkeys key v Hin) as (name & -> & Hname).
    exists name. split; [done|].
    apply elem_of_cons in Hname as [->|Hname]; [|done].
    by vm_compute in Hk. }
  unfold SpecificYield.pop in *. rewrite Htype.
  cbn [fst snd default from_option id] in *.
  set (rest := filter (λ item, eq_str item.1 "type" = false) parameters) in *.
  assert (SpecificYield.class_of from_points (Str "spline")
          = inr (SpecificYield.new_SplineSpecificYield from_points)) as ->
    by reflexivity.
  cbn [try_bind]. unfold SpecificYield.new_SplineSpecificYield.
  assert (SpecificYield.keywords ["zeta_knots_mm"; "sy_knots"] rest
          = inr [zeta_knots_mm; sy_knots]) as ->.
  { apply keywords_inr. split; [done|].
    repeat constructor; [rewrite Hz|rewrite Hs]; done. }
  cbn [try_bind]. by rewrite Hzetas, Hsys.
Qed.

End specific_yield_properties.

Section pest_witnesses.
Import Yaml.

Lemma rise_pestfiles_failures_witness :
  Pest.generate_rise_pestfiles PestScenario.str_ PestScenario.format_g
    PestScenario.linesep (value Q) PestScenario.safe_load
    PestScenario.connection PestScenario.unknown_transmissivity "pst" None
    17 EmptyString
  = Pest.Raises (ValueError "Unexpected specific yield type: darcy")
      EmptyString ∧
  EmptyString = EmptyString ∧
  (ValueError "Unexpected specific yield type: darcy"
     = AssertionError (V:=Q) (Some "pst") ∧
     "pst" ∉ ["tpl"; "ins"; "pst"] ∨
   ValueError "Unexpected specific yield type: darcy" = YAMLError (V:=Q) ∨
   ValueError "Unexpected specific yield type: darcy" = TypeError (V:=Q) ∨
   (∃ key, ValueError "Unexpected specific yield type: darcy"
           = KeyError (V:=Q) (Str key)) ∨
   ∃ parameters t,
     PestScenario.safe_load PestScenario.unknown_transmissivity
       = Some parameters ∧
     (Pest.item parameters "specific_yield" "type" = inr t ∨
      Pest.item parameters "transmissivity" "type" = inr t) ∧
     Pest.in_peatclsm_spline t = false ∧
     ValueError (V:=Q) "Unexpected specific yield type: darcy"
     = ValueError ("Unexpected specific yield type: " +:+
                   PestScenario.str_ t)).
Proof.
  split; [reflexivity|].
  exact (rise_pestfiles_failures PestScenario.str_ PestScenario.format_g
           PestScenario.linesep (value Q) PestScenario.safe_load
           PestScenario.connection PestScenario.unknown_transmissivity
           "pst" None 17 EmptyString _ _ eq_refl).
Defined.

Lemma rise_pst_declared_and_listed_witness :
  ∃ lines,
    Pest.rise_pst_lines PestScenario.str_ PestScenario.format_g
      PestScenario.connection PestScenario.spline 17 = inr lines ∧
    ∃ parameterization npar control groups data observations trailer,
      Pest.item PestScenario.spline "specific_yield" "type"
        = inr parameterization ∧
      lines =
        control ++ ["* parameter groups"] ++ groups ++
        ["* parameter data"] ++ data ++
        ["* observation groups"; "storageobs"; "* observation data"] ++
        observations ++ trailer ∧
      length control = 10%nat ∧
      control !! 3%nat =
        Some (Text.rjust 5 (pretty npar) +:+
              Text.rjust 6
                (pretty (Pest.count_distinct_zeta_number
                           PestScenario.connection)) +:+
              "     4     0     1") ∧
      length groups =
        (if eq_str parameterization "spline" then 1%nat else 4%nat) ∧
      length data = npar ∧
      length observations
        = length (Pest.mean_crossing_depth_mm PestScenario.connection) ∧
      length trailer = 6%nat.
Proof.
  eexists. split; [vm_compute; reflexivity|].
  exact (rise_pst_declared_and_listed PestScenario.str_
           PestScenario.format_g PestScenario.connection
           PestScenario.spline 17 _ eq_refl).
Defined.

Lemma rise_observation_names_agree_witness :
  ∃ lines,
    Pest.rise_pst_lines PestScenario.str_ PestScenario.format_g
      PestScenario.connection PestScenario.spline 17 = inr lines ∧
    Pest.mean_crossing_depth_mm PestScenario.connection !! 1%nat
      = Some 15%Q ∧
    (1 < Pest.count_distinct_zeta_number PestScenario.connection)%nat ∧
    ∃ name,
      Pest.rise_ins_lines PestScenario.connection !! (2 + 1)%nat
        = Some ("l1 [" +:+ name +:+ "]3:24") ∧
      lines !! (length lines - 6
                - length (Pest.mean_crossing_depth_mm
                            PestScenario.connection) + 1)%nat
        = Some (name +:+ "    " +:+ PestScenario.format_g 17 15%Q +:+
                "    1.0   storageobs").
Proof.
  eexists. split; [vm_compute; reflexivity|].
  split; [reflexivity|]. split; [vm_compute; lia|].
  exact (rise_observation_names_agree PestScenario.str_
           PestScenario.format_g PestScenario.connection
           PestScenario.spline 17 _ 1%nat 15%Q eq_refl eq_refl
           (le_n 2)).
Defined.

Lemma rise_pestfiles_ignore_configuration_witness :
  PestScenario.safe_load (Map []) = Some (Map []) ∧
  Pest.generate_rise_pestfiles PestScenario.str_ PestScenario.format_g
    PestScenario.linesep (value Q) PestScenario.safe_load
    PestScenario.connection PestScenario.spline "tpl" (Some (Map [])) 17
    EmptyString
  = Pest.generate_rise_pestfiles PestScenario.str_ PestScenario.format_g
      PestScenario.linesep (value Q) PestScenario.safe_load
      PestScenario.connection PestScenario.spline "tpl" None 17
      EmptyString.
Proof.
  split; [reflexivity|].
  exact (rise_pestfiles_ignore_configuration PestScenario.str_
           PestScenario.format_g PestScenario.linesep (value Q)
           PestScenario.safe_load PestScenario.connection
           PestScenario.spline "tpl" (Map []) (Map []) 17 EmptyString
           eq_refl).
Defined.

Lemma unknown_type_raises_KeyError_witness :
  lookup "type" [(Str "type", Str "darcy"); (Str "sd", Int (V:=Q) 1)]
    = Some (Str "darcy") ∧
  eq_str (V:=Q) (Str "darcy") "peatclsm" = false ∧
  eq_str (V:=Q) (Str "darcy") "spline" = false ∧
  SpecificYield.create_specific_yield_function (Spline:=unit)
    PestScenario.str_ (λ _, inr ())
    [(Str "type", Str "darcy"); (Str "sd", Int 1)]
  = (inl (KeyError (Str "darcy")),
     filter (λ item, eq_str item.1 "type" = false)
       [(Str "type", Str "darcy"); (Str "sd", Int 1)]).
Proof.
  split_and!; [reflexivity | reflexivity | reflexivity |].
  exact (unknown_type_raises_KeyError (Spline:=unit) PestScenario.str_
           (λ _, inr ()) [(Str "type", Str "darcy"); (Str "sd", Int 1)]
           (Str "darcy") eq_refl eq_refl eq_refl).
Defined.

Lemma creates_spline_from_zipped_knots_witness :
  let parameters : list (value Q * value Q) :=
    [(Str "type", Str "spline");
     (Str "zeta_knots_mm", Seq [Int (-10); Int 0; Int 20]);
     (Str "sy_knots", Seq [Int 1; Int 2])] in
  lookup "type" parameters = Some (Str "spline") ∧
  (∀ key v, (key, v) ∈ parameters →
     ∃ name, key = Str name ∧ name ∈ ["type"; "zeta_knots_mm"; "sy_knots"]) ∧
  lookup "zeta_knots_mm" parameters = Some (Seq [Int (-10); Int 0; Int 20]) ∧
  lookup "sy_knots" parameters = Some (Seq [Int 1; Int 2]) ∧
  iter (V:=Q) (Seq [Int (-10); Int 0; Int 20])
    = inr [Int (-10); Int 0; Int 20] ∧
  iter (V:=Q) (Seq [Int 1; Int 2]) = inr [Int 1; Int 2] ∧
  (SpecificYield.create_specific_yield_function PestScenario.str_ inr
     parameters).1
  = (spline ←? inr (zip [Int (-10); Int 0; Int 20] [Int 1; Int 2]);
     inr (SpecificYield.Spline_
            {| SpecificYield.zeta_knots_mm := Seq [Int (-10); Int 0; Int 20];
               SpecificYield.sy_knots := Seq [Int 1; Int 2];
               SpecificYield._spline := spline |})) ∧
  length (zip [Int (V:=Q) (-10); Int 0; Int 20] [Int (V:=Q) 1; Int 2])
  = (length [Int (V:=Q) (-10); Int 0; Int 20]
     `min` length [Int (V:=Q) 1; Int 2])%nat.
Proof.
  assert (∀ key v : value Q,
            (key, v) ∈ [(Str "type", Str "spline");
                        (Str "zeta_knots_mm",
                         Seq [Int (-10); Int 0; Int 20]);
                        (Str "sy_knots", Seq [Int 1; Int 2])] →
            ∃ name, key = Str name ∧
                    name ∈ ["type"; "zeta_knots_mm"; "sy_knots"]) as Hkeys.
  { intros key v Hin. rewrite !elem_of_cons, elem_of_nil in Hin.
    destruct Hin as [[= -> _]|[[= -> _]|[[= -> _]|[]]]];
      eexists; (split; [reflexivity|]); rewrite !elem_of_cons; auto. }
  cbv zeta.
  split; [reflexivity|]. split; [exact Hkeys|].
  split; [reflexivity|]. split; [reflexivity|].
  split; [reflexivity|]. split; [reflexivity|].
  exact (creates_spline_from_zipped_knots PestScenario.str_ inr
           [(Str "type", Str "spline");
            (Str "zeta_knots_mm", Seq [Int (-10); Int 0; Int 20]);
            (Str "sy_knots", Seq [Int 1; Int 2])]
           (Seq [Int (-10); Int 0; Int 20]) (Seq [Int 1; Int 2])
           [Int (-10); Int 0; Int 20] [Int 1; Int 2]
           eq_refl Hkeys eq_refl eq_refl eq_refl eq_refl).
Defined.

End pest_witnesses.
